(** * StockMaster: rule scheduling, rule application and catalog reconciliation

    A shallow embedding of the inventory task code of the StockMaster
    Django application and of the REST client it talks to Shopify with.

    Sources embedded, by module of this file:
    - [Models]        apps/accounts/models.py, apps/inventory/models.py,
                      apps/rules/models.py
    - [Utils]         apps/inventory/tasks/utils.py
    - [Client]        core/shopify/client.py
    - [RuleTasks]     apps/inventory/tasks/rule_tasks.py (the [tasks] package,
                      which is what [apps.inventory.tasks] resolves to)
    - [LegacyTasks]   apps/inventory/tasks.py (the module shadowed by the
                      package; it is the variant that calls the remote API)
    - [Orm]           the queryset calls the sync code relies on
                      ([update_or_create], [get_or_create], [update])
    - [SyncTasks]     apps/inventory/tasks/sync_tasks.py
    - [LegacySync]    apps/inventory/tasks.py, [sync_product] and
                      [process_out_of_stock_rules]

    - [ClientDefs]    core/shopify/client.py, [graphql]
    - [RuleModels]    apps/rules/models.py, the schedule properties of
                      [RuleApplication]
    - [LegacyPoller]  apps/inventory/tasks.py, [check_scheduled_rules]
    - [InventoryTasks] apps/inventory/tasks/inventory_tasks.py

    [Mirror] holds the relations between two runs of the reconciliation,
    [Samples] concrete databases and payloads, [ApplySpec] the
    predicates the statements about [apply_rule] are phrased with;
    [LegacySpec], [SyncSpec] and [LegacySyncSpec] hold the predicates of
    the later statements, [Fixtures], [SyncFixtures], [MoreFixtures] and
    [RecoveryFixtures] further sample data.  The modules whose names end
    in [Facts], and [Lockstep], hold the theorems.

    Conventions.  Timestamps are integers (seconds); [timezone.now()] is the
    parameter [now] of each task.  Character fields are strings, nullable
    fields are options.  Database tables are lists of rows in insertion
    order, each row carrying its primary key.  What can go wrong outside
    the tables is a parameter of each task: the statements that raise
    during a run ([Store.Faults]), the answers of the remote
    ([Client.Network], [SyncTasks.Remote]) and the values the columns
    take ([SyncTasks.Columns]). *)

From Stdlib Require Import ZArith List String Ascii Bool Lia DecimalString.
Import ListNotations.

Local Open Scope string_scope.
Local Open Scope Z_scope.
Local Open Scope list_scope.

Set Implicit Arguments.

(* ===================================================================== *)
(** * Python values and exceptions *)
(* ===================================================================== *)

Module Py.

(** Truthiness of [str | None]: [None] and the empty string are falsy. *)
Definition truthy (s : option string) : bool :=
  match s with
  | None => false
  | Some s => negb (s =? "")%string
  end.

(** [a == b] on [str | None]; string comparison is by code point, hence
    case-sensitive. *)
Definition eqb (a b : option string) : bool :=
  match a, b with
  | None, None => true
  | Some x, Some y => (x =? y)%string
  | _, _ => false
  end.

Definition neqb (a b : option string) : bool := negb (eqb a b).

(** The exceptions the embedded code can see. *)
Inductive Exn : Type :=
| DoesNotExist (model : string)
| MultipleObjectsReturned (model : string)
| DatabaseError (what : string)
| BrokerError (what : string)
| ValueError (what : string)
| TypeError (what : string)
| AttributeError (what : string)
| RecursionError
| RequestException (what : string)
| Retry (cause : string).

Inductive Result (A : Type) : Type :=
| Ok (a : A)
| Raise (e : Exn).
Arguments Ok {A} a.
Arguments Raise {A} e.

End Py.
Import Py.

(* ===================================================================== *)
(** * The models *)
(* ===================================================================== *)

Module Models.

Definition Id := Z.
Definition Time := Z.

(** apps/accounts/models.py, [ShopifyStore] (the fields the tasks use). *)
Record ShopifyStore : Type := {
  store_id : Id;
  shop_url : string;
  access_token : option string;
  store_is_active : bool;
  sync_status : string;
  last_sync_at : option Time
}.

(** apps/inventory/models.py, [Product]. *)
Record Product : Type := {
  product_id : Id;
  product_store : Id;
  product_shopify_id : Z;
  title : string;
  handle : string;
  product_type : option string;
  vendor : option string;
  status : string;
  published_at : option string;
  product_created_at : Time;
  product_updated_at : Time;
  last_synced : Time;
  is_visible : bool;
  hidden_at : option Time;
  scheduled_return : option Time
}.

(** apps/inventory/models.py, [ProductVariant]. *)
Record ProductVariant : Type := {
  variant_id : Id;
  variant_product : Id;
  variant_shopify_id : Z;
  variant_title : string;
  sku : option string;
  barcode : option string;
  price : string;
  compare_at_price : option string;
  position : Z;
  variant_created_at : Time;
  variant_updated_at : Time;
  inventory_item_id : Z
}.

(** apps/inventory/models.py, [InventoryLocation]. *)
Record InventoryLocation : Type := {
  location_id : Id;
  location_store : Id;
  location_shopify_id : Z;
  location_name : string;
  location_is_active : bool;
  location_created_at : Time;
  location_updated_at : Time
}.

(** apps/inventory/models.py, [InventoryLevel]. *)
Record InventoryLevel : Type := {
  level_id : Id;
  level_variant : Id;
  level_location : Id;
  available : Z;
  level_updated_at : Time;
  level_last_synced : Time
}.

(** apps/inventory/models.py, [InventoryLog]. *)
Record InventoryLog : Type := {
  log_store : Id;
  log_product : option Id;
  log_variant : option Id;
  log_location : option Id;
  log_action : string;
  previous_value : option Z;
  new_value : option Z;
  previous_status : option string;
  new_status : option string;
  log_notes : option string;
  log_created_at : Time
}.

(** apps/rules/models.py, [Rule].  The last two fields are not columns
    of the class: [return_days] and [send_notification] are attributes
    that tasks/rule_tasks.py reads, and in the program each of these
    reads raises [AttributeError].  They are kept here to say what the
    statements after the read would do; the runs the program can make
    are those in which the read raises ([OpReadReturnDays],
    [OpReadSendNotification] of the run, as in
    [Samples.models_as_declared]). *)
Record Rule : Type := {
  rule_id : Id;
  rule_store : Id;
  rule_name : string;
  trigger_type : string;
  action_type : string;
  delay_minutes : Z;
  auto_restore : bool;
  restore_after_days : Z;
  product_type_filter : option string;
  vendor_filter : option string;
  rule_is_active : bool;
  priority : Z;
  return_days : Z;
  send_notification : bool
}.

(** apps/rules/models.py, [RuleApplication].  The last two fields are
    not columns of the class, which declares [scheduled_for] and no
    restore stamp: [scheduled_at] and [restored_at] are names that
    tasks/rule_tasks.py hands to [create] and to [save(update_fields=)],
    and in the program each of these calls raises ([TypeError],
    [ValueError]).  They are kept here to say what the calls would
    write; the runs the program can make are those in which the call
    raises ([OpCreateApplication], [OpSaveRestored] of the run, as in
    [Samples.models_as_declared]). *)
Record RuleApplication : Type := {
  app_id : Id;
  app_rule : Id;
  app_product : Id;
  app_status : string;
  triggered_at : Time;
  scheduled_for : option Time;
  applied_at : option Time;
  restore_scheduled_for : option Time;
  app_notes : option string;
  scheduled_at : option Time;
  restored_at : option Time
}.

(** [RuleApplication.STATUS_CHOICES], first components. *)
Definition STATUS_CHOICES : list string :=
  ["pending"; "applied"; "reversed"; "failed"].

(** [Rule.ACTION_CHOICES], first components. *)
Definition ACTION_CHOICES : list string :=
  ["hide_product"; "show_product"; "move_to_collection";
   "reorder_collection"; "tag_product"; "notify"].

End Models.
Import Models.

(* ===================================================================== *)
(** * apps/inventory/tasks/utils.py *)
(* ===================================================================== *)

Module Utils.

(** [rule_matches_product(rule, product)]: two early returns, then
    [True].  It reads four attributes and touches nothing else. *)
Definition rule_matches_product (rule : Rule) (product : Product) : bool :=
  if truthy (product_type_filter rule)
     && neqb (product_type_filter rule) (product_type product)
  then false
  else if truthy (vendor_filter rule)
          && neqb (vendor_filter rule) (vendor product)
  then false
  else true.

(** One filter of the conjunction, in the words of the specification:
    an unset or empty filter passes, a set one passes when it equals the
    attribute. *)
Definition filter_passes (flt attr : option string) : Prop :=
  flt = None \/ flt = Some "" \/ flt = attr.

End Utils.

(* ===================================================================== *)
(** * core/shopify/client.py *)
(* ===================================================================== *)

Module Client.

(** Decoded JSON, what [response.json()] returns. *)
#[local] Unset Elimination Schemes.
Inductive Json : Type :=
| JNull
| JBool (b : bool)
| JInt (z : Z)
| JStr (s : string)
| JArr (items : list Json)
| JObj (fields : list (string * Json)).
  #[local] Set Elimination Schemes.

(** Python truthiness of a decoded value. *)
Definition json_truthy (j : Json) : bool :=
  match j with
  | JNull => false
  | JBool b => b
  | JInt z => negb (z =? 0)
  | JStr s => negb (s =? "")%string
  | JArr items => match items with [] => false | _ => true end
  | JObj fields => match fields with [] => false | _ => true end
  end.

(** [key in response]: membership among the keys of an object, among
    the items of an array, as a substring of a string; [TypeError] on a
    number or a boolean. *)
Definition contains (key : string) (j : Json) : Result bool :=
  match j with
  | JObj fields => Ok (existsb (fun kv => (fst kv =? key)%string) fields)
  | JArr items =>
      Ok (existsb (fun it => match it with
                             | JStr s => (s =? key)%string
                             | _ => false
                             end) items)
  | JStr s => Ok (match index 0 key s with Some _ => true | None => false end)
  | _ => Raise (TypeError "argument is not iterable")
  end.

(** What one HTTP exchange through [requests] can come to.
    - [RequestsRaises]: [requests.get/post/put/delete] raised a
      [requests.exceptions.RequestException] (connection error, timeout,
      too many redirects, ...).
    - [Response status retry_after json]: a response arrived.
      [retry_after] is the [Retry-After] header as [int(...)] sees it:
      [None] when the header is absent (the code then uses 10),
      [Some None] when it is present and [int] rejects it,
      [Some (Some n)] when it reads as the integer [n].
      [json] is the decoded body, [None] when the body does not decode
      ([response.json()] then raises [requests.exceptions.JSONDecodeError],
      which is a [RequestException] since requests 2.27; the repository
      pins no version). *)
Inductive HttpOutcome : Type :=
| RequestsRaises (what : string)
| Response (status_code : Z) (retry_after : option (option Z))
           (json : option Json).

(** The remote side: the outcome of the n-th request this process sends. *)
Definition Network := nat -> HttpOutcome.

(** The four branches of the method dispatch; any other method reaches
    [raise ValueError]. *)
Definition supported_method (method : string) : bool :=
  ((method =? "GET") || (method =? "POST") ||
   (method =? "PUT") || (method =? "DELETE"))%string.

(** [response.raise_for_status()] raises [HTTPError] (a
    [RequestException]) for client and server errors, i.e. for
    [400 <= status_code < 600], and for nothing else. *)
Definition raise_for_status (status_code : Z) : bool :=
  (400 <=? status_code) && (status_code <? 600).

(** [ShopifyClient._request(method, endpoint, data, params)].
    [depth] is the number of Python frames still available: the method
    calls itself after a 429, and Python raises [RecursionError] when
    the frame limit is reached.  [sent] counts the requests already
    sent; the result carries the new count.  The endpoint, the body and
    the query take no part in the control flow and are left to the
    network.  The [ValueError] of the method dispatch carries the
    message of the source, which ends in the method; the two of
    [int(...)] and [time.sleep(...)] carry the fixed part of Python's
    message. *)
Fixpoint _request (depth : nat) (net : Network) (sent : nat)
         (method : string) : Result (option Json) * nat :=
  match depth with
  | O => (Raise RecursionError, sent)
  | S depth' =>
      if negb (supported_method method)
      then (Raise (ValueError ("Unsupported HTTP method: " ++ method)), sent)
      else
        match net sent with
        | RequestsRaises _ => (Ok None, S sent)
        | Response status_code retry_after json =>
            if status_code =? 429 then
              match retry_after with
              | Some None => (Raise (ValueError "invalid literal for int()"), S sent)
              | Some (Some n) =>
                  if n <? 0
                  then (Raise (ValueError "sleep length must be non-negative"), S sent)
                  else _request depth' net (S sent) method
              | None => _request depth' net (S sent) method
              end
            else if raise_for_status status_code then (Ok None, S sent)
            else (Ok json, S sent)
        end
  end.

(** The REST wrappers: each is one call of [_request] with a fixed
    method. *)
Definition get_products depth net sent := _request depth net sent "GET".
Definition get_product depth net sent (product_id : Z) :=
  _request depth net sent "GET".
Definition update_product depth net sent (product_id : Z) (data : Json) :=
  _request depth net sent "PUT".
Definition get_inventory_levels depth net sent
           (location_id : option Z) (inventory_item_ids : list Z) :=
  _request depth net sent "GET".
Definition get_inventory_item depth net sent (inventory_item_id : Z) :=
  _request depth net sent "GET".
Definition update_inventory_item depth net sent
           (inventory_item_id : Z) (data : Json) :=
  _request depth net sent "PUT".
Definition adjust_inventory_level depth net sent
           (location_id inventory_item_id available_adjustment : Z) :=
  _request depth net sent "POST".
Definition create_webhook depth net sent (topic address : string) :=
  _request depth net sent "POST".
Definition get_webhooks depth net sent := _request depth net sent "GET".
Definition delete_webhook depth net sent (webhook_id : Z) :=
  _request depth net sent "DELETE".

(** The wrappers, as a list, for statements about all of them. *)
Definition rest_wrappers :
  list (nat -> Network -> nat -> Result (option Json) * nat) :=
  [ get_products;
    (fun d n s => get_product d n s 0);
    (fun d n s => update_product d n s 0 JNull);
    (fun d n s => get_inventory_levels d n s None []);
    (fun d n s => get_inventory_item d n s 0);
    (fun d n s => update_inventory_item d n s 0 JNull);
    (fun d n s => adjust_inventory_level d n s 0 0 0);
    (fun d n s => create_webhook d n s "" "");
    get_webhooks;
    (fun d n s => delete_webhook d n s 0) ].

(** The failures the amended statement is about: [requests] raised, or
    the response is a client or server error other than 429. *)
Definition remote_failure (o : HttpOutcome) : Prop :=
  match o with
  | RequestsRaises _ => True
  | Response status_code _ _ =>
      400 <= status_code < 600 /\ status_code <> 429
  end.

(** The failures as the claim words them: [requests] raised, or the
    status is outside 2xx and is not 429. *)
Definition not_2xx_failure (o : HttpOutcome) : Prop :=
  match o with
  | RequestsRaises _ => True
  | Response status_code _ _ =>
      ~ (200 <= status_code < 300) /\ status_code <> 429
  end.

End Client.

(* ===================================================================== *)
(** * The database, the task queue and the effects of a task *)
(* ===================================================================== *)

Module Store.

(** The tables. *)
Record DB : Type := {
  stores : list ShopifyStore;
  products : list Product;
  variants : list ProductVariant;
  locations : list InventoryLocation;
  levels : list InventoryLevel;
  logs : list InventoryLog;
  rules : list Rule;
  applications : list RuleApplication
}.

(** A Celery message: the task and its arguments ([eta] for
    [apply_async]). *)
Inductive Task : Type :=
| ApplyRule (rule_application_id : Id)
| RestoreProduct (rule_application_id : Id) (eta : option Time)
| SendRuleAppliedNotification (args : list Id).

(** What a task runs against: the database, the broker queue and the
    number of HTTP requests sent so far. *)
Record World : Type := {
  db : DB;
  queue : list Task;
  sent : nat
}.

(** The statements of the rule tasks that can raise for reasons outside
    the tables: the database or the broker is unavailable, or the
    statement names a column or an attribute that the model class does
    not have ([scheduled_at], [restored_at], [return_days],
    [send_notification] in tasks/rule_tasks.py).  [OpSaveRestored] is
    [application.save(update_fields=['status', 'restored_at'])]. *)
Inductive Op : Type :=
| OpCreateApplication
| OpSaveProduct
| OpSaveApplication
| OpSaveRestored
| OpCreateLog
| OpReadReturnDays
| OpReadSendNotification
| OpEnqueueApply
| OpEnqueueRestore
| OpEnqueueNotification.

(** Which of them raise during one run, and what they raise. *)
Definition Faults := Op -> option Exn.
Definition no_faults : Faults := fun _ => None.

(** State and exceptions. *)
Definition M (A : Type) : Type := World -> Result A * World.

Definition ret {A} (a : A) : M A := fun w => (Ok a, w).
Definition raise {A} (e : Exn) : M A := fun w => (Raise e, w).
Definition bind {A B} (m : M A) (k : A -> M B) : M B :=
  fun w => match m w with
           | (Ok a, w') => k a w'
           | (Raise e, w') => (Raise e, w')
           end.

Definition get_db : M DB := fun w => (Ok (db w), w).
Definition put_db (d : DB) : M unit :=
  fun w => (Ok tt, {| db := d; queue := queue w; sent := sent w |}).
Definition enqueue (t : Task) : M unit :=
  fun w => (Ok tt, {| db := db w; queue := queue w ++ [t]; sent := sent w |}).

(** A statement that raises when the run says so. *)
Definition fallible (faults : Faults) (op : Op) : M unit :=
  match faults op with
  | Some e => raise e
  | None => ret tt
  end.

(** [with transaction.atomic(): body]: when the body raises, the
    database is put back as it was on entry and the exception goes on;
    messages already handed to the broker and requests already sent are
    not taken back. *)
Definition atomic {A} (body : M A) : M A :=
  fun w => match body w with
           | (Ok a, w') => (Ok a, w')
           | (Raise e, w') =>
               (Raise e, {| db := db w; queue := queue w'; sent := sent w' |})
           end.

(** [try: body except Exception as e: handler(e)]. *)
Definition try_except {A} (body : M A) (handler : Exn -> M A) : M A :=
  fun w => match body w with
           | (Ok a, w') => (Ok a, w')
           | (Raise e, w') => handler e w'
           end.

(** Primary keys: the next value of the table's sequence. *)
Definition next_id (ids : list Id) : Id :=
  1 + fold_right Z.max 0 ids.

(** Lookups by primary key. *)
Definition find_application (id : Id) (d : DB) : option RuleApplication :=
  find (fun a => app_id a =? id) (applications d).
Definition find_rule (id : Id) (d : DB) : option Rule :=
  find (fun r => rule_id r =? id) (rules d).
Definition find_product (id : Id) (d : DB) : option Product :=
  find (fun p => product_id p =? id) (products d).
Definition find_store (id : Id) (d : DB) : option ShopifyStore :=
  find (fun s => store_id s =? id) (stores d).

(** Table replacement. *)
Definition set_products (ps : list Product) (d : DB) : DB :=
  {| stores := stores d; products := ps; variants := variants d;
     locations := locations d; levels := levels d; logs := logs d;
     rules := rules d; applications := applications d |}.
Definition set_variants (vs : list ProductVariant) (d : DB) : DB :=
  {| stores := stores d; products := products d; variants := vs;
     locations := locations d; levels := levels d; logs := logs d;
     rules := rules d; applications := applications d |}.
Definition set_locations (ls : list InventoryLocation) (d : DB) : DB :=
  {| stores := stores d; products := products d; variants := variants d;
     locations := ls; levels := levels d; logs := logs d;
     rules := rules d; applications := applications d |}.
Definition set_levels (ls : list InventoryLevel) (d : DB) : DB :=
  {| stores := stores d; products := products d; variants := variants d;
     locations := locations d; levels := ls; logs := logs d;
     rules := rules d; applications := applications d |}.
Definition set_logs (ls : list InventoryLog) (d : DB) : DB :=
  {| stores := stores d; products := products d; variants := variants d;
     locations := locations d; levels := levels d; logs := ls;
     rules := rules d; applications := applications d |}.
Definition set_applications (az : list RuleApplication) (d : DB) : DB :=
  {| stores := stores d; products := products d; variants := variants d;
     locations := locations d; levels := levels d; logs := logs d;
     rules := rules d; applications := az |}.
Definition set_stores (ss : list ShopifyStore) (d : DB) : DB :=
  {| stores := ss; products := products d; variants := variants d;
     locations := locations d; levels := levels d; logs := logs d;
     rules := rules d; applications := applications d |}.

(** [UPDATE ... WHERE id = ...]: the row with that key is replaced. *)
Definition write_product (p : Product) (d : DB) : DB :=
  set_products
    (map (fun q => if product_id q =? product_id p then p else q)
         (products d)) d.
Definition write_application (a : RuleApplication) (d : DB) : DB :=
  set_applications
    (map (fun b => if app_id b =? app_id a then a else b)
         (applications d)) d.
Definition write_store (s : ShopifyStore) (d : DB) : DB :=
  set_stores
    (map (fun t => if store_id t =? store_id s then s else t)
         (stores d)) d.

(** [InventoryLog.objects.create(...)]. *)
Definition insert_log (l : InventoryLog) (d : DB) : DB :=
  set_logs (logs d ++ [l]) d.

(** What a task returns: the [status] key of the dictionary, with the
    reason, the schedule, the [action] key when there is one, or the
    message. *)
Inductive TaskResult : Type :=
| Skipped (reason : string)
| Deferred (scheduled_for : Time)
| Success (action : option string)
| Error (message : string).

Definition result_status (r : TaskResult) : string :=
  match r with
  | Skipped _ => "skipped"
  | Deferred _ => "deferred"
  | Success _ => "success"
  | Error _ => "error"
  end.

(** [str(n)] of an integer, as an f-string prints it. *)
Definition show_Z (z : Z) : string := NilZero.string_of_int (Z.to_int z).

(** [str(e)], as far as the tasks show it. *)
Definition str_exn (e : Exn) : string :=
  match e with
  | DoesNotExist m => m ++ " matching query does not exist."
  | MultipleObjectsReturned m => "get() returned more than one " ++ m
  | DatabaseError w => w
  | BrokerError w => w
  | ValueError w => w
  | TypeError w => w
  | AttributeError w => w
  | RecursionError => "maximum recursion depth exceeded"
  | RequestException w => w
  | Retry c => c
  end.

End Store.
Import Store.

Declare Scope task_scope.
Delimit Scope task_scope with task.
Notation "x <- m ;; k" := (bind m (fun x => k))
  (at level 61, m at next level, right associativity) : task_scope.
Notation "m ;; k" := (bind m (fun _ => k))
  (at level 61, right associativity) : task_scope.

(* ===================================================================== *)
(** * apps/inventory/tasks/rule_tasks.py *)
(* ===================================================================== *)

Module RuleTasks.
Local Open Scope task_scope.

(** [RuleApplication.objects.filter(rule=rule, product=product,
    status='pending')]. *)
Definition is_pending_for (rule : Rule) (product : Product)
           (a : RuleApplication) : bool :=
  (app_rule a =? rule_id rule) && (app_product a =? product_id product)
  && (app_status a =? "pending")%string.

Definition pending_for (rule : Rule) (product : Product) (d : DB)
  : list RuleApplication :=
  filter (is_pending_for rule product) (applications d).

(** [RuleApplication.objects.create(rule=rule, product=product,
    status='pending', scheduled_at=apply_at)]; the other columns take
    their defaults. *)
Definition new_application (id : Id) (rule : Rule) (product : Product)
           (now apply_at : Time) : RuleApplication :=
  {| app_id := id; app_rule := rule_id rule; app_product := product_id product;
     app_status := "pending"; triggered_at := now; scheduled_for := None;
     applied_at := None; restore_scheduled_for := None; app_notes := None;
     scheduled_at := Some apply_at; restored_at := None |}.

(** [schedule_rule_application(rule, product)].  No exception handler:
    what raises goes to the caller. *)
Definition schedule_rule_application (faults : Faults) (now : Time)
           (rule : Rule) (product : Product) : M unit :=
  d <- get_db ;;
  let existing :=
    match pending_for rule product d with [] => false | _ => true end in
  if existing then ret tt
  else
    let apply_at :=
      if 0 <? delay_minutes rule then now + 60 * delay_minutes rule
      else now in
    fallible faults OpCreateApplication ;;
    let application :=
      new_application (next_id (map app_id (applications d)))
                      rule product now apply_at in
    put_db (set_applications (applications d ++ [application]) d) ;;
    if delay_minutes rule <=? 0 then
      fallible faults OpEnqueueApply ;;
      enqueue (ApplyRule (app_id application))
    else ret tt.

(** The loop of [process_out_of_stock_rules]: each rule is scheduled
    when it matches. *)
Fixpoint schedule_all (faults : Faults) (now : Time) (rs : list Rule)
         (product : Product) : M unit :=
  match rs with
  | [] => ret tt
  | rule :: rs' =>
      (if Utils.rule_matches_product rule product
       then schedule_rule_application faults now rule product
       else ret tt) ;;
      schedule_all faults now rs' product
  end.

Definition out_of_stock_rules (store : ShopifyStore) (d : DB) : list Rule :=
  filter (fun r => (rule_store r =? store_id store) && rule_is_active r
                   && (trigger_type r =? "out_of_stock")%string)
         (rules d).

(** [order_by('priority')]: insertion sort, lowest priority first. *)
Fixpoint insert_by_priority (r : Rule) (rs : list Rule) : list Rule :=
  match rs with
  | [] => [r]
  | x :: rest =>
      if priority r <? priority x then r :: x :: rest
      else x :: insert_by_priority r rest
  end.

Definition order_by_priority (rs : list Rule) : list Rule :=
  fold_right insert_by_priority [] rs.

(** [process_out_of_stock_rules(store, product)]. *)
Definition process_out_of_stock_rules (faults : Faults) (now : Time)
           (store : ShopifyStore) (product : Product) : M unit :=
  d <- get_db ;;
  schedule_all faults now (order_by_priority (out_of_stock_rules store d))
               product.

(** [select_related('rule', 'product').get(id=...)]. *)
Definition get_application (id : Id)
  : M (RuleApplication * Rule * Product) :=
  d <- get_db ;;
  match find_application id d with
  | None => raise (DoesNotExist "RuleApplication")
  | Some a =>
      match find_rule (app_rule a) d, find_product (app_product a) d with
      | Some r, Some p => ret (a, r, p)
      | _, _ => raise (DoesNotExist "RuleApplication")
      end
  end.

Definition save_product (faults : Faults) (p : Product) : M unit :=
  fallible faults OpSaveProduct ;;
  d <- get_db ;; put_db (write_product p d).

Definition save_application (faults : Faults) (a : RuleApplication)
  : M unit :=
  fallible faults OpSaveApplication ;;
  d <- get_db ;; put_db (write_application a d).

Definition save_restored (faults : Faults) (a : RuleApplication)
  : M unit :=
  fallible faults OpSaveRestored ;;
  d <- get_db ;; put_db (write_application a d).

Definition create_log (faults : Faults) (l : InventoryLog) : M unit :=
  fallible faults OpCreateLog ;;
  d <- get_db ;; put_db (insert_log l d).

Definition hide (now : Time) (p : Product) : Product :=
  {| product_id := product_id p; product_store := product_store p;
     product_shopify_id := product_shopify_id p; title := title p;
     handle := handle p; product_type := product_type p;
     vendor := vendor p; status := status p;
     published_at := published_at p;
     product_created_at := product_created_at p;
     product_updated_at := product_updated_at p;
     last_synced := last_synced p;
     is_visible := false; hidden_at := Some now;
     scheduled_return := scheduled_return p |}.

Definition hide_until (now return_at : Time) (p : Product) : Product :=
  {| product_id := product_id p; product_store := product_store p;
     product_shopify_id := product_shopify_id p; title := title p;
     handle := handle p; product_type := product_type p;
     vendor := vendor p; status := status p;
     published_at := published_at p;
     product_created_at := product_created_at p;
     product_updated_at := product_updated_at p;
     last_synced := last_synced p;
     is_visible := false; hidden_at := Some now;
     scheduled_return := Some return_at |}.

Definition show (p : Product) : Product :=
  {| product_id := product_id p; product_store := product_store p;
     product_shopify_id := product_shopify_id p; title := title p;
     handle := handle p; product_type := product_type p;
     vendor := vendor p; status := status p;
     published_at := published_at p;
     product_created_at := product_created_at p;
     product_updated_at := product_updated_at p;
     last_synced := last_synced p;
     is_visible := true; hidden_at := None; scheduled_return := None |}.

Definition mark_applied (now : Time) (a : RuleApplication)
  : RuleApplication :=
  {| app_id := app_id a; app_rule := app_rule a; app_product := app_product a;
     app_status := "applied"; triggered_at := triggered_at a;
     scheduled_for := scheduled_for a; applied_at := Some now;
     restore_scheduled_for := restore_scheduled_for a;
     app_notes := app_notes a; scheduled_at := scheduled_at a;
     restored_at := restored_at a |}.

Definition mark_restored (now : Time) (a : RuleApplication)
  : RuleApplication :=
  {| app_id := app_id a; app_rule := app_rule a; app_product := app_product a;
     app_status := "restored"; triggered_at := triggered_at a;
     scheduled_for := scheduled_for a; applied_at := applied_at a;
     restore_scheduled_for := restore_scheduled_for a;
     app_notes := app_notes a; scheduled_at := scheduled_at a;
     restored_at := Some now |}.

Definition status_log (now : Time) (p : Product) (action : string)
           (previous new notes : string) : InventoryLog :=
  {| log_store := product_store p; log_product := Some (product_id p);
     log_variant := None; log_location := None; log_action := action;
     previous_value := None; new_value := None;
     previous_status := Some previous; new_status := Some new;
     log_notes := Some notes; log_created_at := now |}.

(** The body of the [with transaction.atomic()] block of [apply_rule]. *)
Definition apply_rule_body (faults : Faults) (now : Time)
           (rule_application_id : Id) : M TaskResult :=
  arp <- get_application rule_application_id ;;
  let '(application, rule, product) := arp in
  if negb (app_status application =? "pending")%string
  then ret (Skipped ("Status is " ++ app_status application))
  else
    product' <-
      (if (action_type rule =? "hide_product")%string then
         let product' := hide now product in
         save_product faults product' ;;
         ret product'
       else if (action_type rule =? "schedule_return")%string then
         fallible faults OpReadReturnDays ;;
         let return_at := now + 86400 * return_days rule in
         let product' := hide_until now return_at product in
         save_product faults product' ;;
         fallible faults OpEnqueueRestore ;;
         enqueue (RestoreProduct (app_id application) (Some return_at)) ;;
         ret product'
       else ret product) ;;
    save_application faults (mark_applied now application) ;;
    create_log faults
      (status_log now product' "rule"
         (if is_visible product' then "visible" else "hidden") "hidden"
         ("Rule '" ++ rule_name rule ++ "' applied")) ;;
    fallible faults OpReadSendNotification ;;
    (if send_notification rule then
       fallible faults OpEnqueueNotification ;;
       enqueue (SendRuleAppliedNotification [app_id application])
     else ret tt) ;;
    ret (Success (Some (action_type rule))).

(** The two [except] clauses of a task: [RuleApplication.DoesNotExist]
    first, then [Exception]. *)
Definition error_handler (not_found : string) (e : Exn) : M TaskResult :=
  match e with
  | DoesNotExist model =>
      if (model =? "RuleApplication")%string
      then ret (Error not_found)
      else ret (Error (str_exn e))
  | _ => ret (Error (str_exn e))
  end.

Definition not_found (rule_application_id : Id) : string :=
  "Rule application " ++ show_Z rule_application_id ++ " not found".

(** [apply_rule(rule_application_id)]. *)
Definition apply_rule (faults : Faults) (now : Time)
           (rule_application_id : Id) : M TaskResult :=
  try_except (atomic (apply_rule_body faults now rule_application_id))
             (error_handler (not_found rule_application_id)).

(** The body of the [with transaction.atomic()] block of
    [restore_product]. *)
Definition restore_product_body (faults : Faults) (now : Time)
           (rule_application_id : Id) : M TaskResult :=
  arp <- get_application rule_application_id ;;
  let '(application, rule, product) := arp in
  if negb (app_status application =? "applied")%string
  then ret (Skipped ("Status is " ++ app_status application))
  else
    let product' := show product in
    save_product faults product' ;;
    create_log faults
      (status_log now product' "schedule" "hidden" "visible"
         ("Product restored after rule '" ++ rule_name rule ++ "'")) ;;
    save_restored faults (mark_restored now application) ;;
    ret (Success None).

(** [restore_product(rule_application_id)]. *)
Definition restore_product (faults : Faults) (now : Time)
           (rule_application_id : Id) : M TaskResult :=
  try_except (atomic (restore_product_body faults now rule_application_id))
             (error_handler (not_found rule_application_id)).

End RuleTasks.

(* ===================================================================== *)
(** * apps/inventory/tasks.py: the rule functions *)
(* ===================================================================== *)

Module LegacyTasks.
Local Open Scope task_scope.

(** The module's own [rule_matches_product], the same text as in
    tasks/utils.py. *)
Definition rule_matches_product (rule : Rule) (product : Product) : bool :=
  if truthy (product_type_filter rule)
     && neqb (product_type_filter rule) (product_type product)
  then false
  else if truthy (vendor_filter rule)
          && neqb (vendor_filter rule) (vendor product)
  then false
  else true.

(** One call of a client method: the request counter of the world is
    passed in and stored back. *)
Definition http (call : nat -> Result (option Client.Json) * nat)
  : M (option Client.Json) :=
  fun w => let '(r, n) := call (sent w) in
           (r, {| db := db w; queue := queue w; sent := n |}).

Definition reschedule (now scheduled restore : option Time)
           (a : RuleApplication) : RuleApplication :=
  {| app_id := app_id a; app_rule := app_rule a; app_product := app_product a;
     app_status := app_status a;
     triggered_at := match now with Some t => t | None => triggered_at a end;
     scheduled_for := scheduled; applied_at := applied_at a;
     restore_scheduled_for := restore;
     app_notes := app_notes a; scheduled_at := scheduled_at a;
     restored_at := restored_at a |}.

Definition new_application (id : Id) (rule : Rule) (product : Product)
           (now : Time) (scheduled restore : option Time)
  : RuleApplication :=
  {| app_id := id; app_rule := rule_id rule; app_product := product_id product;
     app_status := "pending"; triggered_at := now;
     scheduled_for := scheduled; applied_at := None;
     restore_scheduled_for := restore; app_notes := None;
     scheduled_at := None; restored_at := None |}.

(** [schedule_rule_application(rule, product)]: the two times, then
    [update_or_create(rule=, product=, status='pending', defaults=...)]
    and, without delay, [apply_rule.delay]. *)
Definition scheduled_time (now : Time) (rule : Rule) : Time :=
  if 0 <? delay_minutes rule then now + 60 * delay_minutes rule else now.

Definition restore_time (now : Time) (rule : Rule) : option Time :=
  if auto_restore rule && (0 <? restore_after_days rule)
  then Some (scheduled_time now rule + 86400 * restore_after_days rule)
  else None.

Definition schedule_rule_application (faults : Faults) (now : Time)
           (rule : Rule) (product : Product) : M unit :=
  let scheduled_for := scheduled_time now rule in
  let restore_scheduled_for := restore_time now rule in
  d <- get_db ;;
  rule_app <-
    match RuleTasks.pending_for rule product d with
    | [] =>
        fallible faults OpCreateApplication ;;
        let a := new_application (next_id (map app_id (applications d)))
                   rule product now (Some scheduled_for)
                   restore_scheduled_for in
        put_db (set_applications (applications d ++ [a]) d) ;;
        ret a
    | [a0] =>
        fallible faults OpSaveApplication ;;
        let a := reschedule (Some now) (Some scheduled_for)
                            restore_scheduled_for a0 in
        put_db (write_application a d) ;;
        ret a
    | _ :: _ :: _ => raise (MultipleObjectsReturned "RuleApplication")
    end ;;
  if delay_minutes rule =? 0 then
    fallible faults OpEnqueueApply ;;
    enqueue (ApplyRule (app_id rule_app))
  else ret tt.

(** [RuleApplication.objects.select_related('rule','product').get(id=)]
    followed by [rule.store]. *)
Definition get_application (id : Id)
  : M (RuleApplication * Rule * Product) :=
  RuleTasks.get_application id.

Definition get_store (rule : Rule) : M ShopifyStore :=
  d <- get_db ;;
  match find_store (rule_store rule) d with
  | Some s => ret s
  | None => raise (DoesNotExist "ShopifyStore")
  end.

(** [response and 'product' in response]. *)
Definition has_product (response : option Client.Json) : Result bool :=
  match response with
  | None => Ok false
  | Some j =>
      if Client.json_truthy j then Client.contains "product" j
      else Ok false
  end.

Definition lift {A} (r : Result A) : M A := fun w => (r, w).

Definition set_status (new_status_ : string) (visible : bool)
           (hidden : option Time) (now : Time) (p : Product) : Product :=
  {| product_id := product_id p; product_store := product_store p;
     product_shopify_id := product_shopify_id p; title := title p;
     handle := handle p; product_type := product_type p;
     vendor := vendor p; status := new_status_;
     published_at := published_at p;
     product_created_at := product_created_at p;
     product_updated_at := now;
     last_synced := last_synced p;
     is_visible := visible; hidden_at := hidden;
     scheduled_return := scheduled_return p |}.

Definition mark (new_status_ : string) (applied : option Time)
           (notes : option string) (a : RuleApplication)
  : RuleApplication :=
  {| app_id := app_id a; app_rule := app_rule a; app_product := app_product a;
     app_status := new_status_; triggered_at := triggered_at a;
     scheduled_for := scheduled_for a; applied_at := applied;
     restore_scheduled_for := restore_scheduled_for a;
     app_notes := notes; scheduled_at := scheduled_at a;
     restored_at := restored_at a |}.

Definition status_log (now : Time) (store : ShopifyStore) (p : Product)
           (action : string) (previous new notes : string)
  : InventoryLog :=
  {| log_store := store_id store; log_product := Some (product_id p);
     log_variant := None; log_location := None; log_action := action;
     previous_value := None; new_value := None;
     previous_status := Some previous; new_status := Some new;
     log_notes := Some notes; log_created_at := now |}.

Definition status_patch (shopify_id : Z) (new_status_ : string)
  : Client.Json :=
  Client.JObj [("product",
                Client.JObj [("id", Client.JInt shopify_id);
                             ("status", Client.JStr new_status_)])].

Definition save_product (faults : Faults) (p : Product) : M unit :=
  RuleTasks.save_product faults p.
Definition save_application (faults : Faults) (a : RuleApplication)
  : M unit :=
  RuleTasks.save_application faults a.
Definition create_log (faults : Faults) (l : InventoryLog) : M unit :=
  RuleTasks.create_log faults l.

(** [scheduled_for and scheduled_for > timezone.now()]. *)
Definition not_yet_due (now : Time) (a : RuleApplication) : bool :=
  match scheduled_for a with
  | Some t => now <? t
  | None => false
  end.

Definition not_found (rule_application_id : Id) : string :=
  "Rule application with ID " ++ show_Z rule_application_id ++ " not found".

(** The [try] block of [apply_rule]. *)
Definition apply_rule_body (faults : Faults) (depth : nat)
           (net : Client.Network) (now : Time)
           (rule_application_id : Id) : M TaskResult :=
  arp <- get_application rule_application_id ;;
  let '(rule_app, rule, product) := arp in
  if negb (app_status rule_app =? "pending")%string
  then ret (Skipped ("Rule already in status: " ++ app_status rule_app))
  else if not_yet_due now rule_app
  then ret (Deferred (match scheduled_for rule_app with
                      | Some t => t
                      | None => now
                      end))
  else
    store <- get_store rule ;;
    if (action_type rule =? "hide_product")%string then
      response <-
        http (fun n => Client.update_product depth net n
                         (product_shopify_id product)
                         (status_patch (product_shopify_id product) "draft")) ;;
      ok <- lift (has_product response) ;;
      if ok : bool then
        let old_status := status product in
        let product' := set_status "draft" false (Some now) now product in
        save_product faults product' ;;
        create_log faults
          (status_log now store product' "hide" old_status "draft"
             ("Hidden by rule: " ++ rule_name rule)) ;;
        save_application faults
          (mark "applied" (Some now) (app_notes rule_app) rule_app) ;;
        fallible faults OpEnqueueNotification ;;
        enqueue (SendRuleAppliedNotification
                   [store_id store; rule_id rule; product_id product]) ;;
        ret (Success (Some "hide_product"))
      else
        save_application faults
          (mark "failed" (applied_at rule_app)
                (Some "Failed to update product in Shopify") rule_app) ;;
        ret (Error "Failed to update product in Shopify")
    else
      save_application faults
        (mark "failed" (applied_at rule_app)
              (Some ("Unsupported action type: " ++ action_type rule)%string)
              rule_app) ;;
      ret (Error ("Unsupported action type: " ++ action_type rule)).

(** [apply_rule(rule_application_id)]: no transaction here, what was
    saved before an exception stays saved. *)
Definition apply_rule (faults : Faults) (depth : nat)
           (net : Client.Network) (now : Time)
           (rule_application_id : Id) : M TaskResult :=
  try_except (apply_rule_body faults depth net now rule_application_id)
             (RuleTasks.error_handler (not_found rule_application_id)).

(** The [try] block of [restore_product]. *)
Definition restore_product_body (faults : Faults) (depth : nat)
           (net : Client.Network) (now : Time)
           (rule_application_id : Id) : M TaskResult :=
  arp <- get_application rule_application_id ;;
  let '(rule_app, rule, product) := arp in
  if (app_status rule_app =? "reversed")%string
  then ret (Skipped "Rule already reversed")
  else if negb (app_status rule_app =? "applied")%string
  then ret (Skipped ("Rule not in applied status: " ++ app_status rule_app))
  else
    store <- get_store rule ;;
    if (action_type rule =? "hide_product")%string then
      response <-
        http (fun n => Client.update_product depth net n
                         (product_shopify_id product)
                         (status_patch (product_shopify_id product) "active")) ;;
      ok <- lift (has_product response) ;;
      if ok : bool then
        let old_status := status product in
        let product' :=
          set_status "active" true (hidden_at product) now product in
        save_product faults product' ;;
        create_log faults
          (status_log now store product' "show" old_status "active"
             ("Restored by rule: " ++ rule_name rule)) ;;
        save_application faults
          (mark "reversed" (applied_at rule_app) (app_notes rule_app)
                rule_app) ;;
        ret (Success (Some "show_product"))
      else ret (Error "Failed to update product in Shopify")
    else ret (Error ("Unsupported action type: " ++ action_type rule)).

(** [restore_product(rule_application_id)]. *)
Definition restore_product (faults : Faults) (depth : nat)
           (net : Client.Network) (now : Time)
           (rule_application_id : Id) : M TaskResult :=
  try_except (restore_product_body faults depth net now rule_application_id)
             (RuleTasks.error_handler (not_found rule_application_id)).

End LegacyTasks.

(* ===================================================================== *)
(** * The ORM calls of the synchronisation code *)
(* ===================================================================== *)

Module Orm.

Section Table.
Variable Row : Type.
Variable pk : Row -> Id.

(** The first row the lookup matches is updated in place.  The lookups
    used below are the [unique_together] keys of their tables, so the
    database holds at most one match. *)
Fixpoint update_first (matches : Row -> bool) (upd : Row -> Row)
         (rows : list Row) : option (Row * list Row) :=
  match rows with
  | [] => None
  | r :: rest =>
      if matches r then Some (upd r, upd r :: rest)
      else match update_first matches upd rest with
           | Some (x, rest') => Some (x, r :: rest')
           | None => None
           end
  end.

(** [objects.update_or_create(<lookup>, defaults=...)]: the matching
    row with the defaults written over it, or a new row (lookup and
    defaults) under the next primary key.  Returns the object. *)
Definition update_or_create (matches : Row -> bool) (upd : Row -> Row)
           (mk : Id -> Row) (rows : list Row) : Row * list Row :=
  match update_first matches upd rows with
  | Some res => res
  | None => let r := mk (next_id (map pk rows)) in (r, rows ++ [r])
  end.

(** [objects.get_or_create(<lookup>, defaults=...)]: the matching row
    as it is, or a new one. *)
Definition get_or_create (matches : Row -> bool) (mk : Id -> Row)
           (rows : list Row) : Row * list Row :=
  update_or_create matches (fun r => r) mk rows.

(** [objects.filter(...).exclude(...).update(...)]. *)
Definition update_where (selected : Row -> bool) (upd : Row -> Row)
           (rows : list Row) : list Row :=
  map (fun r => if selected r then upd r else r) rows.
End Table.

End Orm.

(* ===================================================================== *)
(** * apps/inventory/tasks/sync_tasks.py *)
(* ===================================================================== *)

Module SyncTasks.
Local Open Scope task_scope.

(** What the [shopify] library hands over for a variant, an inventory
    level and a product.  [vd_position = None] stands for an object
    without the attribute. *)
Record VariantData : Type := {
  vd_id : Z;
  vd_title : string;
  vd_price : string;
  vd_inventory_item_id : Z;
  vd_sku : option string;
  vd_barcode : option string;
  vd_compare_at_price : option string;
  vd_position : option Z
}.

Record LevelData : Type := {
  ld_location_id : Z;
  ld_available : option Z
}.

Record ProductData : Type := {
  pd_id : Z;
  pd_title : string;
  pd_handle : string;
  pd_status : string;
  pd_product_type : option string;
  pd_vendor : option string;
  pd_published_at : option string;
  pd_variants : list VariantData
}.

(** The remote shop as one synchronisation sees it.
    - [session_ok]: [shopify.Session(...)] and [activate_session] go
      through.
    - [catalog]: the pages of [Product.find(limit=250)] and
      [next_page()]; [None] is a page whose fetch raises.
    - [inventory_levels]: [InventoryLevel.find(inventory_item_ids=i)];
      [None] when the call raises. *)
Record Remote : Type := {
  session_ok : bool;
  catalog : list (option (list ProductData));
  inventory_levels : Z -> option (list LevelData)
}.

(** ** Step 4: the upserts *)

Definition product_matches (store : Id) (shopify_id : Z) (p : Product)
  : bool :=
  (product_store p =? store) && (product_shopify_id p =? shopify_id).

Definition product_defaults (now : Time) (pd : ProductData) (p : Product)
  : Product :=
  {| product_id := product_id p; product_store := product_store p;
     product_shopify_id := product_shopify_id p;
     title := pd_title pd; handle := pd_handle pd;
     product_type := pd_product_type pd; vendor := pd_vendor pd;
     status := pd_status pd; published_at := pd_published_at pd;
     product_created_at := product_created_at p;
     product_updated_at := now; last_synced := now;
     is_visible := is_visible p; hidden_at := hidden_at p;
     scheduled_return := scheduled_return p |}.

Definition new_product (now : Time) (store : Id) (pd : ProductData)
           (id : Id) : Product :=
  {| product_id := id; product_store := store;
     product_shopify_id := pd_id pd;
     title := pd_title pd; handle := pd_handle pd;
     product_type := pd_product_type pd; vendor := pd_vendor pd;
     status := pd_status pd; published_at := pd_published_at pd;
     product_created_at := now; product_updated_at := now;
     last_synced := now;
     is_visible := true; hidden_at := None; scheduled_return := None |}.

Definition variant_matches (product : Id) (shopify_id : Z)
           (v : ProductVariant) : bool :=
  (variant_product v =? product) && (variant_shopify_id v =? shopify_id).

(** [variant_defaults]: three keys always, the optional ones only when
    the remote value is truthy ([position]: when the attribute exists). *)
Definition variant_defaults (now : Time) (vd : VariantData)
           (v : ProductVariant) : ProductVariant :=
  {| variant_id := variant_id v; variant_product := variant_product v;
     variant_shopify_id := variant_shopify_id v;
     variant_title := vd_title vd;
     sku := if truthy (vd_sku vd) then vd_sku vd else sku v;
     barcode := if truthy (vd_barcode vd) then vd_barcode vd else barcode v;
     price := vd_price vd;
     compare_at_price :=
       if truthy (vd_compare_at_price vd) then vd_compare_at_price vd
       else compare_at_price v;
     position := match vd_position vd with
                 | Some n => n
                 | None => position v
                 end;
     variant_created_at := variant_created_at v;
     variant_updated_at := now;
     inventory_item_id := vd_inventory_item_id vd |}.

Definition new_variant (now : Time) (product : Id) (vd : VariantData)
           (id : Id) : ProductVariant :=
  {| variant_id := id; variant_product := product;
     variant_shopify_id := vd_id vd;
     variant_title := vd_title vd;
     sku := if truthy (vd_sku vd) then vd_sku vd else None;
     barcode := if truthy (vd_barcode vd) then vd_barcode vd else None;
     price := vd_price vd;
     compare_at_price :=
       if truthy (vd_compare_at_price vd) then vd_compare_at_price vd
       else None;
     position := match vd_position vd with Some n => n | None => 1 end;
     variant_created_at := now; variant_updated_at := now;
     inventory_item_id := vd_inventory_item_id vd |}.

Definition location_matches (store : Id) (shopify_id : Z)
           (l : InventoryLocation) : bool :=
  (location_store l =? store) && (location_shopify_id l =? shopify_id).

Definition new_location (now : Time) (store : Id) (shopify_id : Z)
           (id : Id) : InventoryLocation :=
  {| location_id := id; location_store := store;
     location_shopify_id := shopify_id;
     location_name := "Location " ++ show_Z shopify_id;
     location_is_active := true;
     location_created_at := now; location_updated_at := now |}.

Definition level_matches (variant location : Id) (l : InventoryLevel)
  : bool :=
  (level_variant l =? variant) && (level_location l =? location).

(** [level_data.available or 0]. *)
Definition available_or_0 (ld : LevelData) : Z :=
  match ld_available ld with Some n => n | None => 0 end.

Definition level_defaults (now : Time) (ld : LevelData)
           (l : InventoryLevel) : InventoryLevel :=
  {| level_id := level_id l; level_variant := level_variant l;
     level_location := level_location l;
     available := available_or_0 ld;
     level_updated_at := now; level_last_synced := now |}.

Definition new_level (now : Time) (variant location : Id) (ld : LevelData)
           (id : Id) : InventoryLevel :=
  {| level_id := id; level_variant := variant; level_location := location;
     available := available_or_0 ld;
     level_updated_at := now; level_last_synced := now |}.

(** ** What the columns hold

    The values handed over by the remote shop are written as they
    come.  A value that does not fit its column makes the ORM call
    raise, in Django or in the database, and that call writes nothing:
    an id outside the 64 bits of a [BigIntegerField], a [position] or
    an [available] outside the 32 bits of an [IntegerField], a text
    longer than the [max_length] of its [CharField] (on a database
    that enforces it), a [price] that is no decimal number of ten
    digits, a [published_at] that is no date.  Which values fit is a
    matter of the database behind Django; it depends on the values of
    the call and on nothing else, so a table holds no row with values
    that do not fit, and it makes no difference that the calls below
    test the values before they look the row up. *)
Record Columns : Type := {
  fits_product : ProductData -> bool;
  fits_variant : VariantData -> bool;
  fits_location : Z -> bool;
  fits_level : LevelData -> bool
}.

(** An ORM call on [model] whose values fit, or not. *)
Definition checked (fits : bool) (model : string) : M unit :=
  if fits then ret tt else raise (DatabaseError model).

(** One remote call. *)
Definition tick (n : nat) : M unit :=
  fun w => (Ok tt, {| db := db w; queue := queue w; sent := (sent w + n)%nat |}).

(** [for x in xs: body(x)]. *)
Fixpoint for_each {X : Type} (body : X -> M unit) (xs : list X) : M unit :=
  match xs with
  | [] => ret tt
  | x :: rest => body x ;; for_each body rest
  end.

(** One inventory level of a variant: the location is fetched or
    created, then the level is upserted under (variant, location). *)
Definition sync_level (columns : Columns) (now : Time) (store variant : Id)
           (ld : LevelData) : M unit :=
  checked (fits_location columns (ld_location_id ld)) "InventoryLocation" ;;
  d <- get_db ;;
  let '(location, locs) :=
    Orm.get_or_create location_id
      (location_matches store (ld_location_id ld))
      (new_location now store (ld_location_id ld)) (locations d) in
  put_db (set_locations locs d) ;;
  checked (fits_level columns ld) "InventoryLevel" ;;
  d <- get_db ;;
  let '(_, lvls) :=
    Orm.update_or_create level_id
      (level_matches variant (location_id location))
      (level_defaults now ld)
      (new_level now variant (location_id location) ld) (levels d) in
  put_db (set_levels lvls d).

(** One variant of a product: the upsert under (product, shopify_id),
    then its inventory levels inside their own [try]: whatever raises
    there, the lookup or a write, is logged and the loop over the
    levels of this variant is left. *)
Definition sync_variant (columns : Columns) (remote : Remote) (now : Time)
           (store product : Id) (vd : VariantData) : M unit :=
  checked (fits_variant columns vd) "ProductVariant" ;;
  d <- get_db ;;
  let '(variant, vs) :=
    Orm.update_or_create variant_id
      (variant_matches product (vd_id vd))
      (variant_defaults now vd)
      (new_variant now product vd) (variants d) in
  put_db (set_variants vs d) ;;
  try_except
    (tick 1 ;;
     match inventory_levels remote (vd_inventory_item_id vd) with
     | None => raise (RequestException "InventoryLevel.find")
     | Some lds =>
         for_each (sync_level columns now store (variant_id variant)) lds
     end)
    (fun _ => ret tt).

Definition touch_variant (now : Time) (v : ProductVariant)
  : ProductVariant :=
  {| variant_id := variant_id v; variant_product := variant_product v;
     variant_shopify_id := variant_shopify_id v;
     variant_title := variant_title v; sku := sku v; barcode := barcode v;
     price := price v; compare_at_price := compare_at_price v;
     position := position v;
     variant_created_at := variant_created_at v;
     variant_updated_at := now;
     inventory_item_id := inventory_item_id v |}.

Definition touch_product (now : Time) (p : Product) : Product :=
  {| product_id := product_id p; product_store := product_store p;
     product_shopify_id := product_shopify_id p; title := title p;
     handle := handle p; product_type := product_type p;
     vendor := vendor p; status := status p;
     published_at := published_at p;
     product_created_at := product_created_at p;
     product_updated_at := now; last_synced := last_synced p;
     is_visible := is_visible p; hidden_at := hidden_at p;
     scheduled_return := scheduled_return p |}.

Definition mem (z : Z) (zs : list Z) : bool := existsb (Z.eqb z) zs.

(** One product of the fetched list: the upsert under
    (store, shopify_id), its variants, then the [update(updated_at=...)]
    of the variants of the product that were not in the list. *)
Definition sync_product_data (columns : Columns) (remote : Remote)
           (now : Time) (store : Id) (pd : ProductData) : M unit :=
  checked (fits_product columns pd) "Product" ;;
  d <- get_db ;;
  let '(product, ps) :=
    Orm.update_or_create product_id
      (product_matches store (pd_id pd))
      (product_defaults now pd)
      (new_product now store pd) (products d) in
  put_db (set_products ps d) ;;
  for_each (sync_variant columns remote now store (product_id product))
           (pd_variants pd) ;;
  let synced_variant_ids := map vd_id (pd_variants pd) in
  d <- get_db ;;
  put_db (set_variants
            (Orm.update_where
               (fun v => (variant_product v =? product_id product)
                         && negb (mem (variant_shopify_id v)
                                      synced_variant_ids))
               (touch_variant now) (variants d)) d).

(** Step 4 as a whole: the body of its [try]. *)
Definition process_products (columns : Columns) (remote : Remote)
           (now : Time) (store : Id) (all_products : list ProductData)
  : M unit :=
  for_each (sync_product_data columns remote now store) all_products ;;
  let synced_product_ids := map pd_id all_products in
  d <- get_db ;;
  put_db (set_products
            (Orm.update_where
               (fun p => (product_store p =? store)
                         && negb (mem (product_shopify_id p)
                                      synced_product_ids))
               (touch_product now) (products d)) d).

(** ** The task *)

(** Step 3: the pages are fetched one after the other; each fetch is
    one remote call; a failing one raises. *)
Fixpoint fetch_pages (pages : list (option (list ProductData)))
  : M (list ProductData) :=
  match pages with
  | [] => ret []
  | None :: _ => tick 1 ;; raise (RequestException "Product.find")
  | Some page :: rest =>
      tick 1 ;;
      more <- fetch_pages rest ;;
      ret (page ++ more)
  end.

Definition with_sync_status (st : string) (s : ShopifyStore)
  : ShopifyStore :=
  {| store_id := store_id s; shop_url := shop_url s;
     access_token := access_token s;
     store_is_active := store_is_active s;
     sync_status := st; last_sync_at := last_sync_at s |}.

Definition with_sync_success (now : Time) (s : ShopifyStore)
  : ShopifyStore :=
  {| store_id := store_id s; shop_url := shop_url s;
     access_token := access_token s;
     store_is_active := store_is_active s;
     sync_status := "success"; last_sync_at := Some now |}.

(** [store.sync_status = ...; store.save(update_fields=[...])]. *)
Definition update_store (id : Id) (f : ShopifyStore -> ShopifyStore)
  : M unit :=
  d <- get_db ;;
  put_db (set_stores
            (Orm.update_where (fun s => store_id s =? id) f (stores d)) d).

Definition count_variants (ps : list ProductData) : nat :=
  fold_right (fun pd n => (List.length (pd_variants pd) + n)%nat) O ps.

(** The outer [try] block of [sync_store_data].  Each handler of
    steps 2, 3 and 4 marks the store failed and ends in [raise
    self.retry(exc=e)].  [self.retry] belongs to Celery, which is not
    part of the repository; it does not return: run by a worker with
    retries left it raises Celery's [Retry] (and has the task sent
    again, which the queue of this embedding does not show), called
    directly or with the retries used up it raises [e] itself.  [Retry]
    stands for either exception. *)
Definition sync_store_data_body (columns : Columns) (remote : Remote)
           (now : Time) (store_id_ : Id) : M TaskResult :=
  d <- get_db ;;
  match find_store store_id_ d with
  | None =>
      ret (Error ("Store with ID " ++ show_Z store_id_ ++ " not found"))
  | Some store =>
      if negb (truthy (access_token store)) then
        update_store store_id_ (with_sync_status "failed") ;;
        ret (Error ("Store " ++ shop_url store ++ " has no access token"))
      else
        (if session_ok remote then ret tt
         else
           update_store store_id_ (with_sync_status "failed") ;;
           raise (Retry "session")) ;;
        all_products <-
          try_except
            (fetch_pages (match catalog remote with
                          | [] => [Some []]
                          | pages => pages
                          end))
            (fun e =>
               update_store store_id_ (with_sync_status "failed") ;;
               raise (Retry (str_exn e))) ;;
        try_except
          (process_products columns remote now (store_id store)
                            all_products)
          (fun e =>
             update_store store_id_ (with_sync_status "failed") ;;
             raise (Retry (str_exn e))) ;;
        update_store store_id_ (with_sync_success now) ;;
        ret (Success None)
  end.

(** [sync_store_data(self, store_id)]: the outer handler marks the
    store failed once more and raises out of [self.retry] again; the
    [finally] clause clears the library's session, which touches
    neither the database nor the network. *)
Definition sync_store_data (columns : Columns) (remote : Remote)
           (now : Time) (store_id_ : Id) : M TaskResult :=
  try_except (sync_store_data_body columns remote now store_id_)
             (fun e =>
                update_store store_id_ (with_sync_status "failed") ;;
                raise (Retry (str_exn e))).

End SyncTasks.

(* ===================================================================== *)
(** * apps/inventory/tasks.py: [sync_product] and the out-of-stock test *)
(* ===================================================================== *)

Module LegacySync.
Local Open Scope task_scope.

(** The [product] object of the response of [client.get_product], its
    variants, and the items of [inventory_levels]; a field is [None]
    when the key is missing, which is when [.get] takes its default.  A
    key that is present holds a value of the column's type (a JSON
    [null] under [available] would make the level write raise and the
    transaction roll back).  [pp_published_at] is the key after
    [parse_shopify_datetime]: [None] when the key is missing or empty
    and when [datetime.fromisoformat] rejects it, the date otherwise. *)
Record VariantPayload : Type := {
  vp_id : option Z;
  vp_inventory_item_id : option Z;
  vp_title : option string;
  vp_sku : option string;
  vp_barcode : option string;
  vp_price : option string;
  vp_compare_at_price : option string;
  vp_position : option Z
}.

Record LevelPayload : Type := {
  lp_inventory_item_id : option Z;
  lp_location_id : option Z;
  lp_available : option Z
}.

Record ProductPayload : Type := {
  pp_title : option string;
  pp_handle : option string;
  pp_product_type : option string;
  pp_vendor : option string;
  pp_status : option string;
  pp_published_at : option string;
  pp_variants : list VariantPayload
}.

Definition get {A} (o : option A) (default : A) : A :=
  match o with Some a => a | None => default end.

(** Truthiness of an id: present and not zero. *)
Definition truthy_id (o : option Z) : bool :=
  match o with Some n => negb (n =? 0) | None => false end.

Definition product_defaults (now : Time) (pp : ProductPayload)
           (p : Product) : Product :=
  {| product_id := product_id p; product_store := product_store p;
     product_shopify_id := product_shopify_id p;
     title := get (pp_title pp) ""; handle := get (pp_handle pp) "";
     product_type := Some (get (pp_product_type pp) "");
     vendor := Some (get (pp_vendor pp) "");
     status := get (pp_status pp) "active";
     published_at := pp_published_at pp;
     product_created_at := product_created_at p;
     product_updated_at := now; last_synced := now;
     is_visible := is_visible p; hidden_at := hidden_at p;
     scheduled_return := scheduled_return p |}.

Definition new_product (now : Time) (store : Id) (shopify_id : Z)
           (pp : ProductPayload) (id : Id) : Product :=
  {| product_id := id; product_store := store;
     product_shopify_id := shopify_id;
     title := get (pp_title pp) ""; handle := get (pp_handle pp) "";
     product_type := Some (get (pp_product_type pp) "");
     vendor := Some (get (pp_vendor pp) "");
     status := get (pp_status pp) "active";
     published_at := pp_published_at pp;
     product_created_at := now; product_updated_at := now;
     last_synced := now;
     is_visible := true; hidden_at := None; scheduled_return := None |}.

Definition variant_defaults (now : Time) (vp : VariantPayload)
           (item : Z) (v : ProductVariant) : ProductVariant :=
  {| variant_id := variant_id v; variant_product := variant_product v;
     variant_shopify_id := variant_shopify_id v;
     variant_title := get (vp_title vp) "";
     sku := Some (get (vp_sku vp) "");
     barcode := Some (get (vp_barcode vp) "");
     price := get (vp_price vp) "0";
     compare_at_price := vp_compare_at_price vp;
     position := get (vp_position vp) 1;
     variant_created_at := variant_created_at v;
     variant_updated_at := now;
     inventory_item_id := item |}.

Definition new_variant (now : Time) (product : Id) (shopify_id : Z)
           (vp : VariantPayload) (item : Z) (id : Id) : ProductVariant :=
  {| variant_id := id; variant_product := product;
     variant_shopify_id := shopify_id;
     variant_title := get (vp_title vp) "";
     sku := Some (get (vp_sku vp) "");
     barcode := Some (get (vp_barcode vp) "");
     price := get (vp_price vp) "0";
     compare_at_price := vp_compare_at_price vp;
     position := get (vp_position vp) 1;
     variant_created_at := now; variant_updated_at := now;
     inventory_item_id := item |}.

(** The variant loop: only variants with a truthy id and a truthy
    inventory item are written; the inventory items are collected. *)
Definition sync_variant (now : Time) (product : Id) (vp : VariantPayload)
           (acc : list Z * DB) : list Z * DB :=
  let '(inventory_item_ids, d) := acc in
  match vp_id vp, vp_inventory_item_id vp with
  | Some variant_id_, Some item =>
      if negb (variant_id_ =? 0) && negb (item =? 0) then
        let '(_, vs) :=
          Orm.update_or_create variant_id
            (SyncTasks.variant_matches product variant_id_)
            (variant_defaults now vp item)
            (new_variant now product variant_id_ vp item) (variants d) in
        (inventory_item_ids ++ [item], set_variants vs d)
      else acc
  | _, _ => acc
  end.

Definition level_write (now : Time) (n : Z) (l : InventoryLevel)
  : InventoryLevel :=
  {| level_id := level_id l; level_variant := level_variant l;
     level_location := level_location l; available := n;
     level_updated_at := now; level_last_synced := now |}.

Definition new_level (now : Time) (variant location : Id) (n : Z)
           (id : Id) : InventoryLevel :=
  {| level_id := id; level_variant := variant; level_location := location;
     available := n; level_updated_at := now; level_last_synced := now |}.

Definition sync_log (now : Time) (store product variant location : Id)
           (previous new : Z) : InventoryLog :=
  {| log_store := store; log_product := Some product;
     log_variant := Some variant; log_location := Some location;
     log_action := "sync"; previous_value := Some previous;
     new_value := Some new; previous_status := None; new_status := None;
     log_notes := None; log_created_at := now |}.

(** One item of [inventory_levels].  The log is written when the level
    existed and the object returned by [update_or_create] differs from
    the value just written into it. *)
Definition sync_level (now : Time) (store product : Id)
           (lp : LevelPayload) (d : DB) : DB :=
  match lp_inventory_item_id lp, lp_location_id lp with
  | Some item, Some location_shopify_id =>
      if negb (item =? 0) then
        let available_ := get (lp_available lp) 0 in
        let '(location, locs) :=
          Orm.get_or_create location_id
            (SyncTasks.location_matches store location_shopify_id)
            (SyncTasks.new_location now store location_shopify_id)
            (locations d) in
        let d := set_locations locs d in
        match find (fun v => (variant_product v =? product)
                             && (inventory_item_id v =? item))
                   (variants d) with
        | None => d
        | Some variant =>
            let existed :=
              existsb (SyncTasks.level_matches (variant_id variant)
                                               (location_id location))
                      (levels d) in
            let '(inv_level, lvls) :=
              Orm.update_or_create level_id
                (SyncTasks.level_matches (variant_id variant)
                                         (location_id location))
                (level_write now available_)
                (new_level now (variant_id variant) (location_id location)
                           available_)
                (levels d) in
            let d := set_levels lvls d in
            if existed && negb (available inv_level =? available_)
            then insert_log
                   (sync_log now store product (variant_id variant)
                             (location_id location)
                             (available inv_level) available_) d
            else d
        end
      else d
  | _, _ => d
  end.

(** [InventoryLevel.objects.filter(variant__product=product)]: the
    levels whose variant row belongs to the product. *)
Definition level_of_product (product : Id) (d : DB) (l : InventoryLevel)
  : bool :=
  match find (fun v => variant_id v =? level_variant l) (variants d) with
  | Some v => variant_product v =? product
  | None => false
  end.

(** [sum(... .values_list('available', flat=True))]. *)
Definition total_inventory (product : Id) (d : DB) : Z :=
  fold_right Z.add 0
    (map available (filter (level_of_product product d) (levels d))).

(** The same quantity in the words of the specification: over the
    variants of the product, over the levels of each variant. *)
Definition available_of_variant (v : ProductVariant) (d : DB) : Z :=
  fold_right Z.add 0
    (map available
         (filter (fun l => level_variant l =? variant_id v) (levels d))).

Definition sum_over_pairs (product : Id) (d : DB) : Z :=
  fold_right Z.add 0
    (map (fun v => available_of_variant v d)
         (filter (fun v => variant_product v =? product) (variants d))).

(** [order_by('-priority')]: insertion sort, highest priority first. *)
Fixpoint insert_by_priority (r : Rule) (rs : list Rule) : list Rule :=
  match rs with
  | [] => [r]
  | x :: rest =>
      if priority x <? priority r then r :: x :: rest
      else x :: insert_by_priority r rest
  end.

Definition order_by_priority_desc (rs : list Rule) : list Rule :=
  fold_right insert_by_priority [] rs.

(** [process_out_of_stock_rules(store, product)]. *)
Fixpoint schedule_matching (faults : Faults) (now : Time)
         (rs : list Rule) (product : Product) : M unit :=
  match rs with
  | [] => ret tt
  | rule :: rs' =>
      (if LegacyTasks.rule_matches_product rule product
       then LegacyTasks.schedule_rule_application faults now rule product
       else ret tt) ;;
      schedule_matching faults now rs' product
  end.

Definition process_out_of_stock_rules (faults : Faults) (now : Time)
           (store : ShopifyStore) (product : Product) : M unit :=
  d <- get_db ;;
  schedule_matching faults now
    (order_by_priority_desc (RuleTasks.out_of_stock_rules store d))
    product.

(** What [sync_product] returns. *)
Inductive SyncResult : Type :=
| SyncError (message : string)
| Synced (product_id_ : Z) (total_inventory_ : Z) (is_out_of_stock : bool).

(** The writes of [sync_product] up to the stock test: product,
    variants and, when there are inventory items and the levels
    response is usable, locations and levels. *)
Definition store_product (now : Time) (store : ShopifyStore)
           (shopify_id : Z) (pp : ProductPayload)
           (inventory_response : option (list LevelPayload)) (d : DB)
  : Product * DB :=
  let '(product, ps) :=
    Orm.update_or_create product_id
      (SyncTasks.product_matches (store_id store) shopify_id)
      (product_defaults now pp)
      (new_product now (store_id store) shopify_id pp) (products d) in
  let d := set_products ps d in
  let '(inventory_item_ids, d) :=
    fold_left (fun acc vp => sync_variant now (product_id product) vp acc)
              (pp_variants pp) ([], d) in
  let d :=
    match inventory_item_ids, inventory_response with
    | _ :: _, Some lps =>
        fold_left (fun d lp => sync_level now (store_id store)
                                          (product_id product) lp d)
                  lps d
    | _, _ => d
    end in
  (product, d).

(** The [with transaction.atomic()] block of [sync_product]. *)
Definition sync_product_block (faults : Faults) (now : Time)
           (store : ShopifyStore) (shopify_id : Z) (pp : ProductPayload)
           (inventory_response : option (list LevelPayload))
  : M SyncResult :=
  d <- get_db ;;
  let '(product, d) :=
    store_product now store shopify_id pp inventory_response d in
  put_db d ;;
  let total := total_inventory (product_id product) d in
  (if total <=? 0
   then process_out_of_stock_rules faults now store product
   else ret tt) ;;
  ret (Synced shopify_id total (total <=? 0)).

(** [sync_product(client, store, product_id)].  [product_response] is
    what [client.get_product] gave, reduced to the [product] object
    ([None] when the response is empty or has no such key);
    [inventory_response] likewise for [client.get_inventory_levels]. *)
Definition sync_product (faults : Faults) (now : Time)
           (store : ShopifyStore) (shopify_id : Z)
           (product_response : option ProductPayload)
           (inventory_response : option (list LevelPayload))
  : M SyncResult :=
  match product_response with
  | None => ret (SyncError ("Could not fetch product " ++ show_Z shopify_id))
  | Some pp =>
      try_except
        (atomic (sync_product_block faults now store shopify_id pp
                                    inventory_response))
        (fun e => ret (SyncError (str_exn e)))
  end.

End LegacySync.

(* ===================================================================== *)
(** * The mirror tables up to timestamps *)
(* ===================================================================== *)

Module Mirror.

(** ** Rows up to timestamps

    For each mirrored table: [key_*], the primary key and the lookup
    columns; [same_*], equality of all columns but the timestamps the
    synchronisation stamps ([last_synced], [updated_at]); [rel3_* x y z],
    the relation kept between a row [x] of a first run in progress, the
    row [z] it ends as, and the row [y] of a second run; and
    [erase_*], the row with those timestamps zeroed. *)

Definition key_p (x z : Product) : Prop :=
  product_id x = product_id z /\ product_store x = product_store z
  /\ product_shopify_id x = product_shopify_id z.

Definition data_p (p : Product) :=
  (title p, handle p, product_type p, vendor p, status p, published_at p).

Definition keep_p (p : Product) :=
  (product_created_at p, is_visible p, hidden_at p, scheduled_return p).

Definition same_p (y z : Product) : Prop :=
  key_p y z /\ keep_p y = keep_p z /\ data_p y = data_p z.

Definition rel3_p (x y z : Product) : Prop :=
  key_p x z /\ key_p y z /\ keep_p y = keep_p z
  /\ (data_p y = data_p x \/ data_p y = data_p z).

Definition erase_p (p : Product) : Product :=
  {| product_id := product_id p; product_store := product_store p;
     product_shopify_id := product_shopify_id p; title := title p;
     handle := handle p; product_type := product_type p;
     vendor := vendor p; status := status p;
     published_at := published_at p;
     product_created_at := product_created_at p;
     product_updated_at := 0; last_synced := 0;
     is_visible := is_visible p; hidden_at := hidden_at p;
     scheduled_return := scheduled_return p |}.

Definition key_v (x z : ProductVariant) : Prop :=
  variant_id x = variant_id z /\ variant_product x = variant_product z
  /\ variant_shopify_id x = variant_shopify_id z.

Definition base_v (v : ProductVariant) :=
  (variant_title v, price v, inventory_item_id v).

Definition same_v (y z : ProductVariant) : Prop :=
  key_v y z /\ variant_created_at y = variant_created_at z
  /\ base_v y = base_v z /\ sku y = sku z /\ barcode y = barcode z
  /\ compare_at_price y = compare_at_price z /\ position y = position z.

Definition rel3_v (x y z : ProductVariant) : Prop :=
  key_v x z /\ key_v y z /\ variant_created_at y = variant_created_at z
  /\ (base_v y = base_v x \/ base_v y = base_v z)
  /\ (sku y = sku x \/ sku y = sku z)
  /\ (barcode y = barcode x \/ barcode y = barcode z)
  /\ (compare_at_price y = compare_at_price x
      \/ compare_at_price y = compare_at_price z)
  /\ (position y = position x \/ position y = position z).

Definition erase_v (v : ProductVariant) : ProductVariant :=
  {| variant_id := variant_id v; variant_product := variant_product v;
     variant_shopify_id := variant_shopify_id v;
     variant_title := variant_title v; sku := sku v; barcode := barcode v;
     price := price v; compare_at_price := compare_at_price v;
     position := position v;
     variant_created_at := variant_created_at v;
     variant_updated_at := 0;
     inventory_item_id := inventory_item_id v |}.

Definition key_l (x z : InventoryLocation) : Prop :=
  location_id x = location_id z /\ location_store x = location_store z
  /\ location_shopify_id x = location_shopify_id z.

Definition same_l (y z : InventoryLocation) : Prop := y = z.

Definition rel3_l (x y z : InventoryLocation) : Prop := key_l x z /\ y = z.

Definition key_i (x z : InventoryLevel) : Prop :=
  level_id x = level_id z /\ level_variant x = level_variant z
  /\ level_location x = level_location z.

Definition same_i (y z : InventoryLevel) : Prop :=
  key_i y z /\ available y = available z.

Definition rel3_i (x y z : InventoryLevel) : Prop :=
  key_i x z /\ key_i y z
  /\ (available y = available x \/ available y = available z).

Definition erase_i (l : InventoryLevel) : InventoryLevel :=
  {| level_id := level_id l; level_variant := level_variant l;
     level_location := level_location l; available := available l;
     level_updated_at := 0; level_last_synced := 0 |}.

(** The mirror of the catalog in a database, timestamps zeroed. *)
Definition erase (d : DB) : DB :=
  {| stores := stores d; products := map erase_p (products d);
     variants := map erase_v (variants d); locations := locations d;
     levels := map erase_i (levels d); logs := logs d; rules := rules d;
     applications := applications d |}.

(** ** The writes of step 4, one table at a time

    [sync_level], [sync_variant] and [sync_product_data] are these
    writes chained, the primary key of the row just written being passed
    on. *)

Definition product_op (now : Time) (store : Id) (pd : SyncTasks.ProductData)
           (d : DB) : DB :=
  set_products
    (snd (Orm.update_or_create product_id
            (SyncTasks.product_matches store (SyncTasks.pd_id pd))
            (SyncTasks.product_defaults now pd)
            (SyncTasks.new_product now store pd) (products d))) d.

Definition product_op_pk (now : Time) (store : Id)
           (pd : SyncTasks.ProductData) (d : DB) : Id :=
  product_id
    (fst (Orm.update_or_create product_id
            (SyncTasks.product_matches store (SyncTasks.pd_id pd))
            (SyncTasks.product_defaults now pd)
            (SyncTasks.new_product now store pd) (products d))).

Definition variant_op (now : Time) (product : Id)
           (vd : SyncTasks.VariantData) (d : DB) : DB :=
  set_variants
    (snd (Orm.update_or_create variant_id
            (SyncTasks.variant_matches product (SyncTasks.vd_id vd))
            (SyncTasks.variant_defaults now vd)
            (SyncTasks.new_variant now product vd) (variants d))) d.

Definition variant_op_pk (now : Time) (product : Id)
           (vd : SyncTasks.VariantData) (d : DB) : Id :=
  variant_id
    (fst (Orm.update_or_create variant_id
            (SyncTasks.variant_matches product (SyncTasks.vd_id vd))
            (SyncTasks.variant_defaults now vd)
            (SyncTasks.new_variant now product vd) (variants d))).

Definition location_op (now : Time) (store : Id) (shopify_id : Z) (d : DB)
  : DB :=
  set_locations
    (snd (Orm.get_or_create location_id
            (SyncTasks.location_matches store shopify_id)
            (SyncTasks.new_location now store shopify_id) (locations d))) d.

Definition location_op_pk (now : Time) (store : Id) (shopify_id : Z)
           (d : DB) : Id :=
  location_id
    (fst (Orm.get_or_create location_id
            (SyncTasks.location_matches store shopify_id)
            (SyncTasks.new_location now store shopify_id) (locations d))).

Definition level_op (now : Time) (variant : Id) (ld : SyncTasks.LevelData)
           (location : Id) (d : DB) : DB :=
  set_levels
    (snd (Orm.update_or_create level_id
            (SyncTasks.level_matches variant location)
            (SyncTasks.level_defaults now ld)
            (SyncTasks.new_level now variant location ld) (levels d))) d.

Definition touch_variants (now : Time) (product : Id) (synced : list Z)
           (d : DB) : DB :=
  set_variants
    (Orm.update_where
       (fun v => (variant_product v =? product)
                 && negb (SyncTasks.mem (variant_shopify_id v) synced))
       (SyncTasks.touch_variant now) (variants d)) d.

Definition touch_products (now : Time) (store : Id) (synced : list Z)
           (d : DB) : DB :=
  set_products
    (Orm.update_where
       (fun p => (product_store p =? store)
                 && negb (SyncTasks.mem (product_shopify_id p) synced))
       (SyncTasks.touch_product now) (products d)) d.

(** [store.save(update_fields=[...])] as a database transformer. *)
Definition mark (f : ShopifyStore -> ShopifyStore) (id : Id) (d : DB) : DB :=
  set_stores (Orm.update_where (fun s => store_id s =? id) f (stores d)) d.

(** ** Three lists of rows in step

    [R same rel3 a b fin]: [a] are the rows of a table during a first
    run, [fin] the rows when that run is over, [b] the rows during a
    second run started from [fin].  [pre key a fin]: [fin] has the rows
    of [a], in place, with their keys, and possibly more after them. *)

Section Rows.
Variable Row : Type.
Variable same : Row -> Row -> Prop.
Variable rel3 : Row -> Row -> Row -> Prop.
Variable key : Row -> Row -> Prop.

Inductive R : list Row -> list Row -> list Row -> Prop :=
| R_done b fin : Forall2 same b fin -> R [] b fin
| R_row x a y b z fin :
    rel3 x y z -> R a b fin -> R (x :: a) (y :: b) (z :: fin).

Inductive pre : list Row -> list Row -> Prop :=
| pre_nil fin : pre [] fin
| pre_row x a z fin : key x z -> pre a fin -> pre (x :: a) (z :: fin).
End Rows.

(** ** The four tables together *)

Definition DR (a b fin : DB) : Prop :=
  R same_p rel3_p (products a) (products b) (products fin)
  /\ R same_v rel3_v (variants a) (variants b) (variants fin)
  /\ R same_l rel3_l (locations a) (locations b) (locations fin)
  /\ R same_i rel3_i (levels a) (levels b) (levels fin).

Definition db_pre (a fin : DB) : Prop :=
  pre key_p (products a) (products fin)
  /\ pre key_v (variants a) (variants fin)
  /\ pre key_l (locations a) (locations fin)
  /\ pre key_i (levels a) (levels fin).

(** The tables the synchronisation does not write. *)
Definition frame (f : DB -> DB) : Prop :=
  forall d, stores (f d) = stores d /\ logs (f d) = logs d
            /\ rules (f d) = rules d
            /\ applications (f d) = applications d.

(** [lockstep f1 f2]: [f1] and [f2] are the same piece of the
    synchronisation under two clock readings. *)
Definition lockstep (f1 f2 : DB -> DB) : Prop :=
  (forall d, db_pre d (f1 d))
  /\ (forall a b fin, DR a b fin -> db_pre (f1 a) fin ->
                      DR (f1 a) (f2 b) fin)
  /\ frame f1 /\ frame f2.

(** ** Step 4 as a function of the database

    What the loops of step 4 make of the tables: the ORM calls above,
    chained, each loop being left at the first call whose values do
    not fit.  [loop fits part xs] runs [part] over [xs] up to and
    including the first [x] that does not fit (whose [part] is what
    was written for it before the exception); [calls fits n xs] adds
    up the remote calls made on the way. *)

Fixpoint loop (X : Type) (fits : X -> bool) (part : X -> DB -> DB)
         (xs : list X) (d : DB) : DB :=
  match xs with
  | [] => d
  | x :: rest =>
      if fits x then loop fits part rest (part x d) else part x d
  end.

Fixpoint calls (X : Type) (fits : X -> bool) (n : X -> nat) (xs : list X)
  : nat :=
  match xs with
  | [] => O
  | x :: rest => (n x + if fits x then calls fits n rest else O)%nat
  end.

Definition level_fits (columns : SyncTasks.Columns)
           (ld : SyncTasks.LevelData) : bool :=
  SyncTasks.fits_location columns (SyncTasks.ld_location_id ld)
  && SyncTasks.fits_level columns ld.

Definition level_part (columns : SyncTasks.Columns) (now : Time)
           (store variant : Id) (ld : SyncTasks.LevelData) (d : DB) : DB :=
  if SyncTasks.fits_location columns (SyncTasks.ld_location_id ld) then
    if SyncTasks.fits_level columns ld then
      level_op now variant ld
        (location_op_pk now store (SyncTasks.ld_location_id ld) d)
        (location_op now store (SyncTasks.ld_location_id ld) d)
    else location_op now store (SyncTasks.ld_location_id ld) d
  else d.

Definition levels_of (columns : SyncTasks.Columns)
           (remote : SyncTasks.Remote) (now : Time) (store : Id)
           (vd : SyncTasks.VariantData) (variant : Id) (d : DB) : DB :=
  match SyncTasks.inventory_levels remote
          (SyncTasks.vd_inventory_item_id vd) with
  | None => d
  | Some lds =>
      loop (level_fits columns) (level_part columns now store variant) lds d
  end.

Definition variant_part (columns : SyncTasks.Columns)
           (remote : SyncTasks.Remote) (now : Time) (store product : Id)
           (vd : SyncTasks.VariantData) (d : DB) : DB :=
  if SyncTasks.fits_variant columns vd then
    levels_of columns remote now store vd
      (variant_op_pk now product vd d) (variant_op now product vd d)
  else d.

Definition variant_calls (columns : SyncTasks.Columns)
           (vd : SyncTasks.VariantData) : nat :=
  if SyncTasks.fits_variant columns vd then 1%nat else O.

(** A product fits when its row and the rows of its variants do. *)
Definition product_fits (columns : SyncTasks.Columns)
           (pd : SyncTasks.ProductData) : bool :=
  SyncTasks.fits_product columns pd
  && forallb (SyncTasks.fits_variant columns) (SyncTasks.pd_variants pd).

Definition variants_of (columns : SyncTasks.Columns)
           (remote : SyncTasks.Remote) (now : Time) (store : Id)
           (pd : SyncTasks.ProductData) (product : Id) (d : DB) : DB :=
  let d :=
    loop (SyncTasks.fits_variant columns)
         (variant_part columns remote now store product)
         (SyncTasks.pd_variants pd) d in
  if forallb (SyncTasks.fits_variant columns) (SyncTasks.pd_variants pd)
  then touch_variants now product
         (map SyncTasks.vd_id (SyncTasks.pd_variants pd)) d
  else d.

Definition product_part (columns : SyncTasks.Columns)
           (remote : SyncTasks.Remote) (now : Time) (store : Id)
           (pd : SyncTasks.ProductData) (d : DB) : DB :=
  if SyncTasks.fits_product columns pd then
    variants_of columns remote now store pd
      (product_op_pk now store pd d) (product_op now store pd d)
  else d.

Definition product_calls (columns : SyncTasks.Columns)
           (pd : SyncTasks.ProductData) : nat :=
  if SyncTasks.fits_product columns pd
  then calls (SyncTasks.fits_variant columns) (variant_calls columns)
             (SyncTasks.pd_variants pd)
  else O.

(** Every product and every variant of the list fits. *)
Definition catalog_fits (columns : SyncTasks.Columns)
           (all_products : list SyncTasks.ProductData) : bool :=
  forallb (product_fits columns) all_products.

(** The tables after step 4, and the [InventoryLevel.find] calls it
    made. *)
Definition step4 (columns : SyncTasks.Columns) (remote : SyncTasks.Remote)
           (now : Time) (store : Id)
           (all_products : list SyncTasks.ProductData) (d : DB) : DB :=
  let d :=
    loop (product_fits columns) (product_part columns remote now store)
         all_products d in
  if catalog_fits columns all_products
  then touch_products now store (map SyncTasks.pd_id all_products) d
  else d.

Definition finds_made (columns : SyncTasks.Columns)
           (all_products : list SyncTasks.ProductData) : nat :=
  calls (product_fits columns) (product_calls columns) all_products.

(** [acts m ok f n]: the piece [m] of step 4 ends without exception
    when [ok] and with one otherwise, makes [f] of the database, sends
    [n] requests and queues nothing. *)
Definition acts (m : M unit) (ok : bool) (f : DB -> DB) (n : nat) : Prop :=
  forall w,
    (if ok then fst (m w) = Ok tt else exists e, fst (m w) = Raise e)
    /\ db (snd (m w)) = f (db w)
    /\ queue (snd (m w)) = queue w
    /\ sent (snd (m w)) = (sent w + n)%nat.

End Mirror.

(* ===================================================================== *)
(** * Sample data and the statements under test *)
(* ===================================================================== *)

Module Samples.

Definition rule0 : Rule :=
  {| rule_id := 1; rule_store := 1; rule_name := "Hide sold out";
     trigger_type := "out_of_stock"; action_type := "hide_product";
     delay_minutes := 0; auto_restore := false; restore_after_days := 0;
     product_type_filter := None; vendor_filter := None;
     rule_is_active := true; priority := 0; return_days := 2;
     send_notification := false |}.

(** The same rule restricted to one vendor. *)
Definition rule_acme : Rule :=
  {| rule_id := 1; rule_store := 1; rule_name := "Hide sold out";
     trigger_type := "out_of_stock"; action_type := "hide_product";
     delay_minutes := 0; auto_restore := false; restore_after_days := 0;
     product_type_filter := Some ""; vendor_filter := Some "Acme";
     rule_is_active := true; priority := 0; return_days := 2;
     send_notification := false |}.

Definition product0 : Product :=
  {| product_id := 1; product_store := 1; product_shopify_id := 1001;
     title := "Mug"; handle := "mug"; product_type := Some "Kitchen";
     vendor := Some "Acme"; status := "active"; published_at := None;
     product_created_at := 0; product_updated_at := 0; last_synced := 0;
     is_visible := true; hidden_at := None; scheduled_return := None |}.

Definition store0 : ShopifyStore :=
  {| store_id := 1; shop_url := "acme.myshopify.com";
     access_token := Some "shpat_1"; store_is_active := true;
     sync_status := "pending"; last_sync_at := None |}.

Definition world0 : World :=
  {| db := {| stores := [store0]; products := [product0]; variants := [];
              locations := []; levels := []; logs := [];
              rules := [rule0]; applications := [] |};
     queue := []; sent := 0 |}.

Definition with_applications (az : list RuleApplication) (w : World)
  : World :=
  {| db := set_applications az (db w); queue := queue w; sent := sent w |}.

Definition with_rules (rs : list Rule) (w : World) : World :=
  {| db := {| stores := stores (db w); products := products (db w);
              variants := variants (db w); locations := locations (db w);
              levels := levels (db w); logs := logs (db w); rules := rs;
              applications := applications (db w) |};
     queue := queue w; sent := sent w |}.

Definition with_products (ps : list Product) (w : World) : World :=
  {| db := set_products ps (db w); queue := queue w; sent := sent w |}.

Definition application0 (st : string) : RuleApplication :=
  {| app_id := 1; app_rule := 1; app_product := 1; app_status := st;
     triggered_at := 0; scheduled_for := Some 0; applied_at := None;
     restore_scheduled_for := None; app_notes := None;
     scheduled_at := Some 0; restored_at := None |}.

(** One pending application of [rule0] to [product0]. *)
Definition world_pending : World :=
  with_applications [application0 "pending"] world0.

(** The same application once applied, the product hidden. *)
Definition world_applied : World :=
  with_products [RuleTasks.hide 5 product0]
    (with_applications [RuleTasks.mark_applied 5 (application0 "pending")]
                       world0).

(** A rule whose action is one of [ACTION_CHOICES] that no task
    implements. *)
Definition rule_tag : Rule :=
  {| rule_id := 1; rule_store := 1; rule_name := "Tag sold out";
     trigger_type := "out_of_stock"; action_type := "tag_product";
     delay_minutes := 0; auto_restore := false; restore_after_days := 0;
     product_type_filter := None; vendor_filter := None;
     rule_is_active := true; priority := 0; return_days := 0;
     send_notification := false |}.

Definition world_tag : World := with_rules [rule_tag] world_pending.

(** A run in which writing the audit log fails. *)
Definition log_fails : Faults :=
  fun op => match op with
            | OpCreateLog => Some (DatabaseError "InventoryLog.create")
            | _ => None
            end.

(** A run of tasks/rule_tasks.py against the model classes as
    apps/rules/models.py declares them: [RuleApplication] has no
    [scheduled_at] and no [restored_at], [Rule] has no [return_days] and
    no [send_notification]. *)
Definition models_as_declared : Faults :=
  fun op =>
    match op with
    | OpCreateApplication =>
        Some (TypeError
                ("RuleApplication() got unexpected keyword arguments: "
                 ++ "'scheduled_at'"))
    | OpSaveRestored =>
        Some (ValueError
                ("The following fields do not exist in this model, are "
                 ++ "m2m fields, or are non-concrete fields: restored_at"))
    | OpReadReturnDays =>
        Some (AttributeError "'Rule' object has no attribute 'return_days'")
    | OpReadSendNotification =>
        Some (AttributeError
                "'Rule' object has no attribute 'send_notification'")
    | _ => None
    end.

(** A remote that answers every request with 503. *)
Definition unavailable : Client.Network :=
  fun _ => Client.Response 503 None None.

(** A store whose credential was cleared, with one product mirrored. *)
Definition store_no_token : ShopifyStore :=
  {| store_id := 1; shop_url := "acme.myshopify.com";
     access_token := Some ""; store_is_active := false;
     sync_status := "success"; last_sync_at := Some 50 |}.

Definition world_no_token : World :=
  {| db := set_stores [store_no_token] (db world0);
     queue := []; sent := 0 |}.

(** A remote shop with one product in one page. *)
Definition remote0 : SyncTasks.Remote :=
  {| SyncTasks.session_ok := true;
     SyncTasks.catalog :=
       [Some [{| SyncTasks.pd_id := 1001; SyncTasks.pd_title := "Mug";
                 SyncTasks.pd_handle := "mug"; SyncTasks.pd_status := "active";
                 SyncTasks.pd_product_type := Some "Kitchen";
                 SyncTasks.pd_vendor := Some "Acme";
                 SyncTasks.pd_published_at := None;
                 SyncTasks.pd_variants :=
                   [{| SyncTasks.vd_id := 2001; SyncTasks.vd_title := "Blue";
                       SyncTasks.vd_price := "9.90";
                       SyncTasks.vd_inventory_item_id := 3001;
                       SyncTasks.vd_sku := Some "MUG-B";
                       SyncTasks.vd_barcode := None;
                       SyncTasks.vd_compare_at_price := None;
                       SyncTasks.vd_position := Some 1 |}] |}]];
     SyncTasks.inventory_levels :=
       fun item => if item =? 3001
                   then Some [{| SyncTasks.ld_location_id := 4001;
                                 SyncTasks.ld_available := Some 3 |}]
                   else None |}.

(** Columns as PostgreSQL has them, as far as the integers and the
    lengths of the texts go: 64 bits for an id, 32 bits for a position
    or a quantity, [max_length] characters for a text. *)
Definition int64 (z : Z) : bool := (- 2 ^ 63 <=? z) && (z <? 2 ^ 63).
Definition int32 (z : Z) : bool := (- 2 ^ 31 <=? z) && (z <? 2 ^ 31).
Definition within (n : nat) (o : option string) : bool :=
  match o with
  | Some text => Nat.leb (String.length text) n
  | None => true
  end.

Definition columns0 : SyncTasks.Columns :=
  {| SyncTasks.fits_product :=
       fun pd => int64 (SyncTasks.pd_id pd)
                 && within 255 (Some (SyncTasks.pd_title pd))
                 && within 255 (Some (SyncTasks.pd_handle pd))
                 && within 50 (Some (SyncTasks.pd_status pd))
                 && within 255 (SyncTasks.pd_product_type pd)
                 && within 255 (SyncTasks.pd_vendor pd);
     SyncTasks.fits_variant :=
       fun vd => int64 (SyncTasks.vd_id vd)
                 && int64 (SyncTasks.vd_inventory_item_id vd)
                 && within 255 (Some (SyncTasks.vd_title vd))
                 && within 255 (SyncTasks.vd_sku vd)
                 && within 255 (SyncTasks.vd_barcode vd)
                 && match SyncTasks.vd_position vd with
                    | Some n => int32 n
                    | None => true
                    end;
     SyncTasks.fits_location := int64;
     SyncTasks.fits_level :=
       fun ld => match SyncTasks.ld_available ld with
                 | Some n => int32 n
                 | None => true
                 end |}.

(** The product of the sample shop as [client.get_product] returns it,
    with one variant, and its inventory at two locations. *)
Definition payload0 : LegacySync.ProductPayload :=
  {| LegacySync.pp_title := Some "Mug"; LegacySync.pp_handle := Some "mug";
     LegacySync.pp_product_type := Some "Kitchen";
     LegacySync.pp_vendor := Some "Acme";
     LegacySync.pp_status := Some "active";
     LegacySync.pp_published_at := None;
     LegacySync.pp_variants :=
       [{| LegacySync.vp_id := Some 2001;
           LegacySync.vp_inventory_item_id := Some 3001;
           LegacySync.vp_title := Some "Blue";
           LegacySync.vp_sku := Some "MUG-B";
           LegacySync.vp_barcode := None;
           LegacySync.vp_price := Some "9.90";
           LegacySync.vp_compare_at_price := None;
           LegacySync.vp_position := Some 1 |}] |}.

Definition levels_at_two_locations (first second : Z)
  : option (list LegacySync.LevelPayload) :=
  Some [{| LegacySync.lp_inventory_item_id := Some 3001;
           LegacySync.lp_location_id := Some 4001;
           LegacySync.lp_available := Some first |};
        {| LegacySync.lp_inventory_item_id := Some 3001;
           LegacySync.lp_location_id := Some 4002;
           LegacySync.lp_available := Some second |}].

End Samples.

Module ApplySpec.

(** The visibility state of a product row. *)
Definition visibility (p : Product) : bool * option Time * option Time :=
  (is_visible p, hidden_at p, scheduled_return p).


(** The statements of the apply transition of tasks/rule_tasks.py that
    can raise, as a run reaches them for a pending application of
    [r]: the branch of the action, the application, the audit log, the
    notification. *)
Definition apply_steps (r : Rule) : list Op :=
  (if (action_type r =? "hide_product")%string then [OpSaveProduct]
   else if (action_type r =? "schedule_return")%string
        then [OpReadReturnDays; OpSaveProduct; OpEnqueueRestore]
        else [])
  ++ [OpSaveApplication; OpCreateLog; OpReadSendNotification]
  ++ (if send_notification r then [OpEnqueueNotification] else []).

End ApplySpec.

Module ScheduleSpec.

(** A run in which the statements of a scheduling call go through: the
    insert or the update of the application, and the message to the
    broker. *)
Definition goes_through (faults : Faults) : Prop :=
  faults OpCreateApplication = None /\ faults OpSaveApplication = None
  /\ faults OpEnqueueApply = None.

(** The claim on the second call, for a [schedule_rule_application]:
    made for a pair whose application from the first call is still
    pending, it leaves the world as it found it. *)
Definition second_call_is_noop
           (schedule : Faults -> Time -> Rule -> Product -> M unit)
  : Prop :=
  forall now1 now2 rule product w0 w1,
    RuleTasks.pending_for rule product (db w0) = [] ->
    schedule no_faults now1 rule product w0 = (Ok tt, w1) ->
    schedule no_faults now2 rule product w1 = (Ok tt, w1).

End ScheduleSpec.

(* ===================================================================== *)
(** * core/shopify/client.py: the GraphQL call and the rate limit *)
(* ===================================================================== *)

Module ClientDefs.
Import Client.

(** [ShopifyClient.graphql(query, variables)]: one POST, no branch for
    429, the same [except] clause as [_request]. *)
Definition graphql (net : Network) (sent : nat)
  : Result (option Json) * nat :=
  match net sent with
  | RequestsRaises _ => (Ok None, S sent)
  | Response status_code _ json =>
      if raise_for_status status_code then (Ok None, S sent)
      else (Ok json, S sent)
  end.

(** A [Retry-After] header the rate-limit branch of [_request] can
    sleep on: absent, or a non-negative integer. *)
Definition sleepable (retry_after : option (option Z)) : Prop :=
  retry_after = None \/ exists n, retry_after = Some (Some n) /\ 0 <= n.

(** The outcome is a 429 that [_request] waits on and retries. *)
Definition rate_limited (o : HttpOutcome) : Prop :=
  exists retry_after json,
    o = Response 429 retry_after json /\ sleepable retry_after.

(** What an answer [r] of [_request], given with the request counter at
    [n], says about the exchange that began at [sent]: some number of
    429 responses were waited on, and the outcome after them was either
    an exception of [requests] or a response other than 429, which gave
    [None] for a 4xx or 5xx status and its decoded body otherwise. *)
Definition answered (net : Network) (sent : nat) (r : option Json)
           (n : nat) : Prop :=
  exists k,
    n = S (sent + k)
    /\ (forall i, (i < k)%nat -> rate_limited (net (sent + i)%nat))
    /\ match net (sent + k)%nat with
       | RequestsRaises _ => r = None
       | Response status_code _ json =>
           status_code <> 429
           /\ r = if raise_for_status status_code then None else json
       end.

(** A remote that answers 429 twice, the second time with a
    [Retry-After] of one second, and then 200 with a product. *)
Definition busy_then_ok : Network :=
  fun n => match n with
           | O => Response 429 None None
           | S O => Response 429 (Some (Some 1)) None
           | _ => Response 200 None (Some (JObj [("product", JObj [])]))
           end.

End ClientDefs.

(* ===================================================================== *)
(** * apps/rules/models.py: the schedule properties *)
(* ===================================================================== *)

Module RuleModels.

(** [RuleApplication.is_scheduled]. *)
Definition is_scheduled (now : Time) (a : RuleApplication) : bool :=
  (app_status a =? "pending")%string
  && match scheduled_for a with
     | Some t => now <? t
     | None => false
     end.

(** [RuleApplication.is_restoration_scheduled]. *)
Definition is_restoration_scheduled (now : Time) (a : RuleApplication)
  : bool :=
  (app_status a =? "applied")%string
  && match restore_scheduled_for a with
     | Some t => now <? t
     | None => false
     end.

End RuleModels.

(* ===================================================================== *)
(** * apps/inventory/tasks.py: the poller *)
(* ===================================================================== *)

Module LegacyPoller.
Local Open Scope task_scope.

(** [<field>__lte=now]: a NULL stamp satisfies no comparison. *)
Definition lte (stamp : option Time) (now : Time) : bool :=
  match stamp with
  | Some t => t <=? now
  | None => false
  end.

(** [filter(status='pending', scheduled_for__lte=now)]. *)
Definition due_to_apply (now : Time) (a : RuleApplication) : bool :=
  (app_status a =? "pending")%string && lte (scheduled_for a) now.

(** [filter(status='applied', restore_scheduled_for__lte=now)]. *)
Definition due_to_restore (now : Time) (a : RuleApplication) : bool :=
  (app_status a =? "applied")%string && lte (restore_scheduled_for a) now.

(** [RuleApplication.Meta.ordering = ['-triggered_at']], the order a
    queryset without [order_by] comes in: insertion sort, latest
    trigger first. *)
Fixpoint insert_by_trigger (a : RuleApplication)
         (az : list RuleApplication) : list RuleApplication :=
  match az with
  | [] => [a]
  | x :: rest =>
      if triggered_at x <? triggered_at a then a :: x :: rest
      else x :: insert_by_trigger a rest
  end.

Definition default_ordering (az : list RuleApplication)
  : list RuleApplication :=
  fold_right insert_by_trigger [] az.

(** [for app in <queryset>: <task>.delay(app.id); count += 1]. *)
Fixpoint delay_each (faults : Faults) (op : Op) (task : Id -> Task)
         (az : list RuleApplication) (count : nat) : M nat :=
  match az with
  | [] => ret count
  | app :: rest =>
      fallible faults op ;;
      enqueue (task (app_id app)) ;;
      delay_each faults op task rest (S count)
  end.

(** The dictionary [check_scheduled_rules] returns. *)
Record PollResult : Type := {
  applied_count : nat;
  restored_count : nat;
  timestamp : Time
}.

(** [check_scheduled_rules()] of tasks.py.  No exception handler. *)
Definition check_scheduled_rules (faults : Faults) (now : Time)
  : M PollResult :=
  d <- get_db ;;
  let pending_applications :=
    default_ordering (filter (due_to_apply now) (applications d)) in
  count <- delay_each faults OpEnqueueApply ApplyRule
                      pending_applications 0 ;;
  d <- get_db ;;
  let restore_applications :=
    default_ordering (filter (due_to_restore now) (applications d)) in
  restore_count <- delay_each faults OpEnqueueRestore
                              (fun id => RestoreProduct id None)
                              restore_applications 0 ;;
  ret {| applied_count := count; restored_count := restore_count;
         timestamp := now |}.

End LegacyPoller.

(* ===================================================================== *)
(** * More sample data *)
(* ===================================================================== *)

Module Fixtures.

(** A remote that accepts every product update. *)
Definition accepting : Client.Network :=
  fun _ => Client.Response 200 None
             (Some (Client.JObj [("product", Client.JObj [])])).

(** A pending application of [rule0] to [product0], due at 500, with a
    restoration planned at 900. *)
Definition application_at_500 : RuleApplication :=
  {| app_id := 1; app_rule := 1; app_product := 1; app_status := "pending";
     triggered_at := 100; scheduled_for := Some 500; applied_at := None;
     restore_scheduled_for := Some 900; app_notes := None;
     scheduled_at := None; restored_at := None |}.

Definition world_scheduled : World :=
  Samples.with_applications [application_at_500] Samples.world0.

End Fixtures.

(* ===================================================================== *)
(** * apps/inventory/tasks.py: what counts as an accepted update *)
(* ===================================================================== *)

Module LegacySpec.
Import LegacyTasks.

(** A response the tasks take for a success: it passes
    [raise_for_status] and its body is an object with a [product]
    key. *)
Definition updated (o : Client.HttpOutcome) : Prop :=
  exists status retry_after j,
    o = Client.Response status retry_after (Some j)
    /\ status <> 429 /\ Client.raise_for_status status = false
    /\ has_product (Some j) = Ok true.

End LegacySpec.

(* ===================================================================== *)
(** * apps/inventory/tasks/sync_tasks.py: the product table *)
(* ===================================================================== *)

Module SyncSpec.
Import SyncTasks.

(** The writes of step 4 to the product table alone: one
    [update_or_create] per fetched product, in order. *)
Definition upsert_products (now : Time) (store : Id)
           (all_products : list ProductData) (rows : list Product)
  : list Product :=
  fold_left
    (fun rows pd =>
       snd (Orm.update_or_create product_id
              (product_matches store (pd_id pd))
              (product_defaults now pd)
              (new_product now store pd) rows))
    all_products rows.

(** The columns of a product row that belong to the application and
    not to the remote catalog. *)
Definition kept (x z : Product) : Prop :=
  product_id z = product_id x /\ product_store z = product_store x
  /\ product_shopify_id z = product_shopify_id x
  /\ product_created_at z = product_created_at x
  /\ ApplySpec.visibility z = ApplySpec.visibility x.

(** [p] is the mirror of the remote product [pd] written at [now]. *)
Definition mirrors (now : Time) (store : Id) (pd : ProductData)
           (p : Product) : Prop :=
  product_store p = store /\ product_shopify_id p = pd_id pd
  /\ title p = pd_title pd /\ handle p = pd_handle pd
  /\ status p = pd_status pd /\ product_type p = pd_product_type pd
  /\ vendor p = pd_vendor pd /\ published_at p = pd_published_at pd
  /\ last_synced p = now /\ product_updated_at p = now.

End SyncSpec.

Module SyncFixtures.
Import SyncTasks.

(** The one page of [Samples.remote0]. *)
Definition page0 : list ProductData :=
  match catalog Samples.remote0 with
  | Some page :: _ => page
  | _ => []
  end.

(** The same shop when the second page cannot be fetched. *)
Definition remote_broken : Remote :=
  {| session_ok := true;
     catalog := [Some page0; None];
     inventory_levels := inventory_levels Samples.remote0 |}.

(** A product of store 1 that the remote shop does not list any more,
    and a product of another store. *)
Definition product_unlisted : Product :=
  {| product_id := 2; product_store := 1; product_shopify_id := 2002;
     title := "Teapot"; handle := "teapot"; product_type := Some "Kitchen";
     vendor := Some "Acme"; status := "active"; published_at := None;
     product_created_at := 0; product_updated_at := 0; last_synced := 0;
     is_visible := false; hidden_at := Some 7; scheduled_return := None |}.

Definition product_elsewhere : Product :=
  {| product_id := 3; product_store := 2; product_shopify_id := 1001;
     title := "Mug"; handle := "mug"; product_type := None;
     vendor := None; status := "active"; published_at := None;
     product_created_at := 0; product_updated_at := 0; last_synced := 0;
     is_visible := true; hidden_at := None; scheduled_return := None |}.

Definition world_three_products : World :=
  Samples.with_products
    [Samples.product0; product_unlisted; product_elsewhere] Samples.world0.

End SyncFixtures.

(* ===================================================================== *)
(** * apps/inventory/tasks.py: what scheduling may change *)
(* ===================================================================== *)

Module LegacySyncSpec.

(** What scheduling may change: the rule applications and the queue,
    and nothing else. *)
Definition only_schedules (w w' : World) : Prop :=
  stores (db w') = stores (db w) /\ products (db w') = products (db w)
  /\ variants (db w') = variants (db w)
  /\ locations (db w') = locations (db w)
  /\ levels (db w') = levels (db w) /\ logs (db w') = logs (db w)
  /\ rules (db w') = rules (db w) /\ sent w' = sent w.

(** The filter of [process_out_of_stock_rules], with the matcher. *)
Definition concerns (store : ShopifyStore) (product : Product) (r : Rule)
  : bool :=
  (rule_store r =? store_id store) && rule_is_active r
  && (trigger_type r =? "out_of_stock")%string
  && LegacyTasks.rule_matches_product r product.

End LegacySyncSpec.

Module MoreFixtures.

(** An out-of-stock rule of another store. *)
Definition rule_elsewhere : Rule :=
  {| rule_id := 9; rule_store := 2; rule_name := "Hide sold out";
     trigger_type := "out_of_stock"; action_type := "hide_product";
     delay_minutes := 0; auto_restore := false; restore_after_days := 0;
     product_type_filter := None; vendor_filter := None;
     rule_is_active := true; priority := 0; return_days := 0;
     send_notification := false |}.

End MoreFixtures.

(* ===================================================================== *)
(** * apps/inventory/tasks/inventory_tasks.py *)
(* ===================================================================== *)

Module InventoryTasks.
Local Open Scope task_scope.

(** A positional argument of a call to [ShopifyClient]. *)
Inductive Arg : Type :=
| ArgStore (store : ShopifyStore)
| ArgStr (s : option string).

(** What [ShopifyClient.__init__] keeps of its arguments. *)
Record ClientObject : Type := {
  client_shop_url : Arg;
  client_access_token : Arg
}.

(** A call of [ShopifyClient] with positional arguments:
    [__init__(self, shop_url, access_token)] has two required
    parameters and no other. *)
Definition ShopifyClient (args : list Arg) : Result ClientObject :=
  match args with
  | [shop_url; access_token] =>
      Ok {| client_shop_url := shop_url;
            client_access_token := access_token |}
  | [] =>
      Raise (TypeError
               ("ShopifyClient.__init__() missing 2 required positional "
                ++ "arguments: 'shop_url' and 'access_token'"))
  | [_] =>
      Raise (TypeError
               ("ShopifyClient.__init__() missing 1 required positional "
                ++ "argument: 'access_token'"))
  | _ =>
      Raise (TypeError
               ("ShopifyClient.__init__() takes 3 positional arguments but "
                ++ show_Z (Z.of_nat (S (List.length args)))
                ++ " were given"))
  end.

(** [ShopifyStore.objects.get(shop_url=shop_domain, is_active=True)]. *)
Definition get_active_store (shop_domain : string) : M ShopifyStore :=
  d <- get_db ;;
  match filter (fun s => (shop_url s =? shop_domain)%string
                         && store_is_active s) (stores d) with
  | [] => raise (DoesNotExist "ShopifyStore")
  | [s] => ret s
  | _ :: _ :: _ => raise (MultipleObjectsReturned "ShopifyStore")
  end.

(** What the task returns: the [error] dictionary, or what
    [sync_product] returned. *)
Inductive UpdateResult : Type :=
| UpdateError (message : string)
| NotImplemented.

(** [sync_product(client, store, product_id)] of tasks/sync_tasks.py. *)
Definition sync_product (client : ClientObject) (store : ShopifyStore)
           (product_id : Z) : M UpdateResult :=
  ret NotImplemented.

Section Update.

(** [get_variant_by_id(client, variant_id)] of tasks/utils.py: the
    product id it found, or [None]; it may raise. *)
Variable get_variant_by_id : ClientObject -> Z -> M (option Z).

Definition finish (client : ClientObject) (store : ShopifyStore)
           (product_id : option Z) : M UpdateResult :=
  match product_id with
  | Some n =>
      if negb (n =? 0) then sync_product client store n
      else ret (UpdateError
                  "No product ID provided and could not be determined")
  | None =>
      ret (UpdateError "No product ID provided and could not be determined")
  end.

(** The [try] block of [process_inventory_update]. *)
Definition process_inventory_update_body (shop_domain : string)
           (product_id variant_id : option Z) : M UpdateResult :=
  store <- get_active_store shop_domain ;;
  client <- LegacyTasks.lift (ShopifyClient [ArgStore store]) ;;
  match variant_id with
  | Some v =>
      if negb (v =? 0) && negb (LegacySync.truthy_id product_id) then
        variant_info <- get_variant_by_id client v ;;
        match variant_info with
        | Some found => finish client store (Some found)
        | None =>
            ret (UpdateError
                   ("Could not find product for variant " ++ show_Z v))
        end
      else finish client store product_id
  | None => finish client store product_id
  end.

(** [process_inventory_update(shop_domain, product_id, variant_id)] of
    tasks/inventory_tasks.py. *)
Definition process_inventory_update (shop_domain : string)
           (product_id variant_id : option Z) : M UpdateResult :=
  try_except
    (process_inventory_update_body shop_domain product_id variant_id)
    (fun e =>
       match e with
       | DoesNotExist model =>
           if (model =? "ShopifyStore")%string
           then ret (UpdateError ("Store " ++ shop_domain
                                  ++ " not found or not active"))
           else ret (UpdateError (str_exn e))
       | _ => ret (UpdateError (str_exn e))
       end).

End Update.

End InventoryTasks.

Module RecoveryFixtures.

(** A run in which the broker refuses [apply_rule.delay]. *)
Definition broker_down : Faults :=
  fun op => match op with
            | OpEnqueueApply => Some (BrokerError "apply_rule.delay")
            | _ => None
            end.

End RecoveryFixtures.

(* ===================================================================== *)
(** * Running a task symbolically *)
(* ===================================================================== *)

Ltac run_task :=
  cbv beta iota delta [bind ret raise get_db put_db enqueue fallible
                       no_faults atomic try_except LegacyTasks.lift
                       LegacyTasks.http];
  cbn [db queue sent fst snd].

(* ===================================================================== *)
(** * Facts about the Python helpers *)
(* ===================================================================== *)

Module PyFacts.

Lemma eqb_eq (a b : option string) : Py.eqb a b = true <-> a = b.
Proof.
  destruct a as [x|], b as [y|]; simpl; try (split; congruence).
  rewrite String.eqb_eq. split; congruence.
Qed.

Lemma neqb_false (a b : option string) : Py.neqb a b = false <-> a = b.
Proof.
  unfold Py.neqb. rewrite negb_false_iff. apply eqb_eq.
Qed.

Lemma truthy_false (s : option string) :
  Py.truthy s = false <-> s = None \/ s = Some "".
Proof.
  destruct s as [x|]; simpl.
  - rewrite negb_false_iff, String.eqb_eq. split.
    + intros ->. now right.
    + intros [H|H]; congruence.
  - split; auto.
Qed.

(** A guard [flt and flt != attr] lets the function go on exactly when
    the filter passes. *)
Lemma guard_false (flt attr : option string) :
  Py.truthy flt && Py.neqb flt attr = false <-> Utils.filter_passes flt attr.
Proof.
  unfold Utils.filter_passes.
  rewrite andb_false_iff, truthy_false, neqb_false. tauto.
Qed.

End PyFacts.

(* ===================================================================== *)
(** * The rule matcher *)
(* ===================================================================== *)

Module UtilsFacts.
Import Utils.

(** C9. [rule_matches_product] is a function of the two filters of the
    rule and the two attributes of the product and of nothing else (it
    has no state to read or write), and it returns [True] exactly when
    both filters pass: an unset or empty filter passes, a set filter
    passes when it is equal, as a string, to the attribute. *)
Theorem rule_matches_product_conjunction :
  (forall rule product,
      rule_matches_product rule product = true <->
      filter_passes (product_type_filter rule) (product_type product) /\
      filter_passes (vendor_filter rule) (vendor product))
  /\
  (forall rule rule' product product',
      product_type_filter rule = product_type_filter rule' ->
      vendor_filter rule = vendor_filter rule' ->
      product_type product = product_type product' ->
      vendor product = vendor product' ->
      rule_matches_product rule product
      = rule_matches_product rule' product').
Proof.
  split.
  - intros rule product. unfold rule_matches_product.
    rewrite <- !PyFacts.guard_false.
    destruct (truthy (product_type_filter rule)
              && neqb (product_type_filter rule) (product_type product));
      destruct (truthy (vendor_filter rule)
                && neqb (vendor_filter rule) (vendor product));
      intuition congruence.
  - intros rule rule' product product' H1 H2 H3 H4.
    unfold rule_matches_product. now rewrite H1, H2, H3, H4.
Qed.

Lemma rule_matches_product_conjunction_witness :
  filter_passes (product_type_filter Samples.rule_acme)
                (product_type Samples.product0)
  /\ filter_passes (vendor_filter Samples.rule_acme)
                   (vendor Samples.product0)
  /\ rule_matches_product Samples.rule_acme Samples.product0 = true.
Proof.
  assert (H1 : filter_passes (product_type_filter Samples.rule_acme)
                             (product_type Samples.product0))
    by (right; left; reflexivity).
  assert (H2 : filter_passes (vendor_filter Samples.rule_acme)
                             (vendor Samples.product0))
    by (right; right; reflexivity).
  split; [exact H1 |]. split; [exact H2 |].
  exact (proj2 (proj1 rule_matches_product_conjunction
                      Samples.rule_acme Samples.product0)
               (conj H1 H2)).
Defined.

(** A set filter is compared by code point: a difference of case is a
    difference. *)
Lemma set_filter_is_case_sensitive :
  Py.neqb (Some "Shoes") (Some "shoes") = true
  /\ ~ filter_passes (Some "Shoes") (Some "shoes").
Proof.
  split; [reflexivity |].
  unfold filter_passes. intros [H|[H|H]]; discriminate.
Qed.

(** The legacy module carries the same function. *)
Lemma legacy_rule_matches_product_same rule product :
  LegacyTasks.rule_matches_product rule product
  = rule_matches_product rule product.
Proof. reflexivity. Qed.

End UtilsFacts.

(* ===================================================================== *)
(** * The REST client *)
(* ===================================================================== *)

Module ClientFacts.
Import Client.

Lemma supported_methods method :
  supported_method method = true <->
  method = "GET" \/ method = "POST" \/ method = "PUT" \/ method = "DELETE".
Proof.
  unfold supported_method.
  rewrite !orb_true_iff, !String.eqb_eq. tauto.
Qed.

Lemma request_on_remote_failure depth net sent method :
  supported_method method = true ->
  remote_failure (net sent) ->
  _request (S depth) net sent method = (Ok None, S sent).
Proof.
  intros Hm Hf. simpl. rewrite Hm. simpl.
  destruct (net sent) as [w | status_code ra json]; [reflexivity |].
  destruct Hf as [[Hlo Hhi] Hne].
  destruct (Z.eqb_spec status_code 429) as [->|_]; [congruence |].
  unfold raise_for_status.
  destruct (Z.leb_spec 400 status_code); [| lia].
  destruct (Z.ltb_spec status_code 600); [| lia].
  reflexivity.
Qed.

(** C10, as amended.  When the HTTP exchange raises a [requests]
    exception, or the response has a 4xx or 5xx status other than 429,
    [_request] (called with one of its four methods) returns [None] and
    raises nothing; so does every REST wrapper. *)
Theorem request_failure_returns_none depth net sent :
  remote_failure (net sent) ->
  (forall method, supported_method method = true ->
                  _request (S depth) net sent method = (Ok None, S sent))
  /\ Forall (fun wrapper => wrapper (S depth) net sent = (Ok None, S sent))
            rest_wrappers.
Proof.
  intros Hf. split.
  - intros method Hm. now apply request_on_remote_failure.
  - unfold rest_wrappers.
    repeat (apply Forall_cons;
            [ apply request_on_remote_failure; [reflexivity | exact Hf] |]).
    apply Forall_nil.
Qed.

Lemma request_failure_returns_none_witness :
  let net : Network := fun _ => Response 503 None None in
  remote_failure (net O)
  /\ update_product 1000 net 0 7 JNull = (Ok None, 1%nat).
Proof.
  intros net.
  assert (Hf : remote_failure (net O)) by (simpl; lia).
  split; [exact Hf |].
  exact (proj1 (request_failure_returns_none 999 net 0 Hf) "PUT" eq_refl).
Defined.

(** C10, as the claim words it, fails: a 3xx response that is not
    followed (no [Location], or 304) passes [raise_for_status], and its
    decoded body is returned. *)
Lemma request_3xx_returns_body :
  ~ (forall depth net sent method,
        supported_method method = true ->
        not_2xx_failure (net sent) ->
        fst (_request (S depth) net sent method) = Ok None).
Proof.
  intros claim.
  specialize (claim 0%nat
                    (fun _ => Response 300 None (Some (JObj [("id", JInt 1)])))
                    0%nat "GET" eq_refl).
  simpl in claim.
  assert (H : ~ 200 <= 300 < 300 /\ 300 <> 429) by lia.
  specialize (claim H). discriminate claim.
Qed.

(** The 429 branch, which the statement above leaves out, is not inside
    the reach of the [except] clause either: a [Retry-After] header that
    [int] rejects makes [_request] raise [ValueError]. *)
Lemma request_429_bad_retry_after_raises depth net sent method json :
  supported_method method = true ->
  net sent = Response 429 (Some None) json ->
  exists what,
    _request (S depth) net sent method = (Raise (ValueError what), S sent).
Proof.
  intros Hm Hnet. simpl. rewrite Hm, Hnet. simpl. eauto.
Qed.

(** A remote side that answers 429 for ever exhausts the frames. *)
Lemma request_429_forever depth sent method :
  supported_method method = true ->
  fst (_request depth (fun _ => Response 429 None None) sent method)
  = Raise RecursionError.
Proof.
  intros Hm. revert sent.
  induction depth as [| depth IH]; intros sent; [reflexivity |].
  simpl. rewrite Hm. simpl. apply IH.
Qed.

End ClientFacts.

(* ===================================================================== *)
(** * The rule scheduler *)
(* ===================================================================== *)

Module SchedulerFacts.
Import RuleTasks.

Lemma pending_for_app rule product az a :
  filter (is_pending_for rule product) (az ++ [a])
  = filter (is_pending_for rule product) az
    ++ (if is_pending_for rule product a then [a] else []).
Proof. rewrite filter_app. reflexivity. Qed.

Lemma new_application_is_pending id rule product now apply_at :
  is_pending_for rule product
                 (new_application id rule product now apply_at) = true.
Proof.
  unfold is_pending_for, new_application. simpl.
  now rewrite !Z.eqb_refl.
Qed.

(** With a pending application for the pair in the table, the call
    returns at once: nothing is written, nothing is queued, whatever
    the faults of the run. *)
Lemma schedule_existing faults now rule product w :
  pending_for rule product (db w) <> [] ->
  schedule_rule_application faults now rule product w = (Ok tt, w).
Proof.
  intros Hne. unfold schedule_rule_application, bind, get_db.
  destruct (pending_for rule product (db w)); [congruence | reflexivity].
Qed.

(** The [create] call of [schedule_rule_application] in
    tasks/rule_tasks.py hands [scheduled_at=apply_at] to
    [RuleApplication.objects.create], a keyword the class of
    apps/rules/models.py does not have (its column is [scheduled_for]):
    the statement raises [TypeError].  For a pair without a pending
    application the first call therefore raises and writes nothing, and
    the second call, which finds the table as it was, raises again.  In
    a run in which the statement went through, the first call would
    insert one pending application and the second return at once; in
    every run the second call leaves the world as the first left it. *)
Lemma schedule_twice_as_declared :
  (exists what,
      Samples.models_as_declared OpCreateApplication
      = Some (TypeError what))
  /\ (forall faults now1 now2 rule product w0,
         pending_for rule product (db w0) = [] ->
         exists r1 w1 r2,
           schedule_rule_application faults now1 rule product w0 = (r1, w1)
           /\ schedule_rule_application faults now2 rule product w1
              = (r2, w1)
           /\ match faults OpCreateApplication with
              | Some e =>
                  r1 = Raise e /\ r2 = Raise e /\ w1 = w0
                  /\ pending_for rule product (db w1) = []
              | None =>
                  r2 = Ok tt
                  /\ List.length (pending_for rule product (db w1)) = 1%nat
              end)
  /\ (forall faults now rule product w,
         pending_for rule product (db w) <> [] ->
         schedule_rule_application faults now rule product w = (Ok tt, w)).
Proof.
  split; [eexists; reflexivity |].
  split; [| intros; now apply schedule_existing].
  intros faults now1 now2 rule product w0 Hnone.
  destruct (faults OpCreateApplication) as [e|] eqn:Hcreate.
  - assert (Hrun : forall now,
               schedule_rule_application faults now rule product w0
               = (Raise e, w0)).
    { intros now. unfold schedule_rule_application. run_task.
      rewrite Hnone, Hcreate. reflexivity. }
    exists (Raise e), w0, (Raise e). rewrite !Hrun. repeat split; auto.
  - assert (Hrun : exists r1 w1,
               schedule_rule_application faults now1 rule product w0
               = (r1, w1)
               /\ exists a, applications (db w1) = applications (db w0) ++ [a]
                            /\ is_pending_for rule product a = true).
    { unfold schedule_rule_application. run_task.
      rewrite Hnone, Hcreate. cbn [db].
      destruct (delay_minutes rule <=? 0).
      - destruct (faults OpEnqueueApply); cbn [db];
          (do 2 eexists; split; [reflexivity |]);
          cbn [db applications set_applications];
          (eexists; split; [reflexivity | apply new_application_is_pending]).
      - (do 2 eexists; split; [reflexivity |]);
          cbn [db applications set_applications];
          (eexists; split; [reflexivity | apply new_application_is_pending]). }
    destruct Hrun as (r1 & w1 & Hrun & a & Happs & Hpend).
    assert (Hp1 : pending_for rule product (db w1) = [a]).
    { unfold pending_for in *. rewrite Happs, pending_for_app, Hnone, Hpend.
      reflexivity. }
    exists r1, w1, (Ok tt). split; [exact Hrun |].
    split; [| split; [reflexivity | now rewrite Hp1]].
    apply schedule_existing. rewrite Hp1. discriminate.
Qed.

End SchedulerFacts.

Module LegacySchedulerFacts.
Import RuleTasks.

Lemma next_id_above ids x : In x ids -> x < next_id ids.
Proof.
  unfold next_id. induction ids as [|y ids IH]; cbn [fold_right In];
    [tauto |].
  intros [->|Hin]; [lia |]. specialize (IH Hin). lia.
Qed.

Lemma write_fresh_id (a : RuleApplication) az :
  (forall b, In b az -> app_id b <> app_id a) ->
  map (fun b => if app_id b =? app_id a then a else b) az = az.
Proof.
  intros Hfresh. induction az as [|b az IH]; simpl; [reflexivity |].
  destruct (Z.eqb_spec (app_id b) (app_id a)) as [Heq|_].
  - exfalso. apply (Hfresh b); simpl; auto.
  - rewrite IH; [reflexivity |]. intros c Hc. apply Hfresh. simpl; auto.
Qed.

Lemma legacy_schedule_fresh now rule product w :
  pending_for rule product (db w) = [] ->
  let a := LegacyTasks.new_application
             (next_id (map app_id (applications (db w)))) rule product now
             (Some (LegacyTasks.scheduled_time now rule))
             (LegacyTasks.restore_time now rule) in
  LegacyTasks.schedule_rule_application no_faults now rule product w
  = (Ok tt,
     {| db := set_applications (applications (db w) ++ [a]) (db w);
        queue := queue w ++ (if delay_minutes rule =? 0
                             then [ApplyRule (app_id a)] else []);
        sent := sent w |}).
Proof.
  intros Hnone a.
  unfold LegacyTasks.schedule_rule_application. run_task.
  rewrite Hnone. run_task.
  destruct (delay_minutes rule =? 0); run_task.
  + reflexivity.
  + rewrite app_nil_r. reflexivity.
Qed.

Lemma legacy_schedule_existing now rule product w a0 :
  pending_for rule product (db w) = [a0] ->
  let a := LegacyTasks.reschedule (Some now)
             (Some (LegacyTasks.scheduled_time now rule))
             (LegacyTasks.restore_time now rule) a0 in
  LegacyTasks.schedule_rule_application no_faults now rule product w
  = (Ok tt,
     {| db := write_application a (db w);
        queue := queue w ++ (if delay_minutes rule =? 0
                             then [ApplyRule (app_id a)] else []);
        sent := sent w |}).
Proof.
  intros Hone a.
  unfold LegacyTasks.schedule_rule_application. run_task.
  rewrite Hone. run_task.
  destruct (delay_minutes rule =? 0); run_task.
  + reflexivity.
  + rewrite app_nil_r. reflexivity.
Qed.

(** The legacy scheduler on the same scenario: the second call finds
    the pending row through [update_or_create] and creates none, so the
    pair still has exactly one pending application; it does rewrite the
    schedule of that row (and queues [apply_rule] again when the rule
    has no delay). *)
Lemma legacy_schedule_twice now1 now2 rule product w0 :
  pending_for rule product (db w0) = [] ->
  exists w1 w2,
    LegacyTasks.schedule_rule_application no_faults now1 rule product w0
    = (Ok tt, w1)
    /\ LegacyTasks.schedule_rule_application no_faults now2 rule product w1
       = (Ok tt, w2)
    /\ List.length (applications (db w2))
       = List.length (applications (db w1))
    /\ List.length (pending_for rule product (db w2)) = 1%nat.
Proof.
  intros Hnone.
  pose proof (@legacy_schedule_fresh now1 rule product w0 Hnone) as H1.
  cbv zeta in H1.
  set (a := LegacyTasks.new_application _ _ _ _ _ _) in H1.
  assert (Hpa : is_pending_for rule product a = true).
  { unfold is_pending_for, a. simpl. now rewrite !Z.eqb_refl. }
  eexists. eexists. split; [exact H1 |].
  match type of H1 with _ = (_, ?w) => set (w1 := w) end.
  assert (Hp1 : pending_for rule product (db w1) = [a]).
  { unfold pending_for in *. simpl.
    now rewrite SchedulerFacts.pending_for_app, Hnone, Hpa. }
  pose proof (@legacy_schedule_existing now2 rule product w1 a Hp1) as H2.
  cbv zeta in H2.
  set (a' := LegacyTasks.reschedule _ _ _ a) in H2.
  split; [exact H2 |].
  assert (Hfresh : forall b, In b (applications (db w0)) ->
                             app_id b <> app_id a').
  { intros b Hb. unfold a', a. simpl.
    assert (app_id b < next_id (map app_id (applications (db w0)))).
    { apply next_id_above. now apply in_map. }
    lia. }
  assert (Hw : applications (write_application a' (db w1))
               = applications (db w0) ++ [a']).
  { unfold write_application, w1, set_applications.
    cbn [applications db].
    rewrite map_app, write_fresh_id by exact Hfresh.
    cbn [map]. now rewrite Z.eqb_refl. }
  assert (Hpa' : is_pending_for rule product a' = true) by exact Hpa.
  split.
  - change (List.length (applications (write_application a' (db w1)))
            = List.length (applications (db w0) ++ [a])).
    rewrite Hw. now rewrite !length_app.
  - change (List.length
              (filter (is_pending_for rule product)
                      (applications (write_application a' (db w1))))
            = 1%nat).
    unfold pending_for in Hnone.
    now rewrite Hw, SchedulerFacts.pending_for_app, Hnone, Hpa'.
Qed.

(** The rewrite made by the second legacy call, on the sample world:
    the trigger time of the pending row moves and [apply_rule] is
    queued a second time. *)
Lemma legacy_second_call_rewrites :
  exists w1 w2,
    LegacyTasks.schedule_rule_application no_faults 10
      Samples.rule0 Samples.product0 Samples.world0
    = (Ok tt, w1)
    /\ LegacyTasks.schedule_rule_application no_faults 20
         Samples.rule0 Samples.product0 w1
       = (Ok tt, w2)
    /\ map triggered_at (applications (db w1)) = [10]
    /\ map triggered_at (applications (db w2)) = [20]
    /\ queue w2 = [ApplyRule 1; ApplyRule 1].
Proof. do 2 eexists. repeat split. Qed.

(** The two branches of [update_or_create] in a run whose statements
    go through. *)
Lemma legacy_schedule_fresh_run faults now rule product w :
  ScheduleSpec.goes_through faults ->
  pending_for rule product (db w) = [] ->
  let a := LegacyTasks.new_application
             (next_id (map app_id (applications (db w)))) rule product now
             (Some (LegacyTasks.scheduled_time now rule))
             (LegacyTasks.restore_time now rule) in
  LegacyTasks.schedule_rule_application faults now rule product w
  = (Ok tt,
     {| db := set_applications (applications (db w) ++ [a]) (db w);
        queue := queue w ++ (if delay_minutes rule =? 0
                             then [ApplyRule (app_id a)] else []);
        sent := sent w |}).
Proof.
  intros (Hcreate & _ & Hdelay) Hnone a.
  unfold LegacyTasks.schedule_rule_application. run_task.
  rewrite Hnone. run_task. rewrite Hcreate. run_task.
  destruct (delay_minutes rule =? 0); run_task.
  + rewrite Hdelay. reflexivity.
  + rewrite app_nil_r. reflexivity.
Qed.

Lemma legacy_schedule_existing_run faults now rule product w a0 :
  ScheduleSpec.goes_through faults ->
  pending_for rule product (db w) = [a0] ->
  let a := LegacyTasks.reschedule (Some now)
             (Some (LegacyTasks.scheduled_time now rule))
             (LegacyTasks.restore_time now rule) a0 in
  LegacyTasks.schedule_rule_application faults now rule product w
  = (Ok tt,
     {| db := write_application a (db w);
        queue := queue w ++ (if delay_minutes rule =? 0
                             then [ApplyRule (app_id a)] else []);
        sent := sent w |}).
Proof.
  intros (_ & Hsave & Hdelay) Hone a.
  unfold LegacyTasks.schedule_rule_application. run_task.
  rewrite Hone. run_task. rewrite Hsave. run_task.
  destruct (delay_minutes rule =? 0); run_task.
  + rewrite Hdelay. reflexivity.
  + rewrite app_nil_r. reflexivity.
Qed.

(** C1, as amended.  In tasks/rule_tasks.py a call of
    [schedule_rule_application] made while the pair has a pending
    application returns with the world exactly as it found it, whatever
    the run: no row is added or changed and no task is queued.  In
    tasks.py, two calls for a pair that had no pending application, in
    runs whose statements go through, leave exactly one pending
    application for the pair: the first call inserts it, the second
    adds no row to the table.  (The second call of tasks.py is not a
    no-op: [update_or_create] writes the schedule of the row again.) *)
Theorem schedule_again_one_pending :
  (forall faults now rule product w,
      pending_for rule product (db w) <> [] ->
      RuleTasks.schedule_rule_application faults now rule product w
      = (Ok tt, w))
  /\ (forall faults1 faults2 now1 now2 rule product w0,
         ScheduleSpec.goes_through faults1 ->
         ScheduleSpec.goes_through faults2 ->
         pending_for rule product (db w0) = [] ->
         exists w1 w2,
           LegacyTasks.schedule_rule_application faults1 now1 rule product
                                                 w0 = (Ok tt, w1)
           /\ List.length (applications (db w1))
              = S (List.length (applications (db w0)))
           /\ List.length (pending_for rule product (db w1)) = 1%nat
           /\ LegacyTasks.schedule_rule_application faults2 now2 rule
                                                    product w1 = (Ok tt, w2)
           /\ List.length (applications (db w2))
              = List.length (applications (db w1))
           /\ List.length (pending_for rule product (db w2)) = 1%nat).
Proof.
  split; [intros; now apply SchedulerFacts.schedule_existing |].
  intros faults1 faults2 now1 now2 rule product w0 Hf1 Hf2 Hnone.
  pose proof (@legacy_schedule_fresh_run faults1 now1 rule product w0
                Hf1 Hnone) as H1.
  cbv zeta in H1.
  set (a := LegacyTasks.new_application _ _ _ _ _ _) in H1.
  assert (Hpa : is_pending_for rule product a = true).
  { unfold is_pending_for, a. simpl. now rewrite !Z.eqb_refl. }
  eexists. eexists. split; [exact H1 |].
  match type of H1 with _ = (_, ?w) => set (w1 := w) end.
  assert (Hp1 : pending_for rule product (db w1) = [a]).
  { unfold pending_for in *. simpl.
    now rewrite SchedulerFacts.pending_for_app, Hnone, Hpa. }
  split.
  { unfold w1. cbn [db applications set_applications].
    rewrite length_app. cbn [List.length]. lia. }
  split; [now rewrite Hp1 |].
  pose proof (@legacy_schedule_existing_run faults2 now2 rule product w1 a
                Hf2 Hp1) as H2.
  cbv zeta in H2.
  set (a' := LegacyTasks.reschedule _ _ _ a) in H2.
  split; [exact H2 |].
  assert (Hfresh : forall b, In b (applications (db w0)) ->
                             app_id b <> app_id a').
  { intros b Hb. unfold a', a. simpl.
    assert (app_id b < next_id (map app_id (applications (db w0)))).
    { apply next_id_above. now apply in_map. }
    lia. }
  assert (Hw : applications (write_application a' (db w1))
               = applications (db w0) ++ [a']).
  { unfold write_application, w1, set_applications.
    cbn [applications db].
    rewrite map_app, write_fresh_id by exact Hfresh.
    cbn [map]. now rewrite Z.eqb_refl. }
  assert (Hpa' : is_pending_for rule product a' = true) by exact Hpa.
  split.
  - change (List.length (applications (write_application a' (db w1)))
            = List.length (applications (db w0) ++ [a])).
    rewrite Hw. now rewrite !length_app.
  - change (List.length
              (filter (is_pending_for rule product)
                      (applications (write_application a' (db w1))))
            = 1%nat).
    unfold pending_for in Hnone.
    now rewrite Hw, SchedulerFacts.pending_for_app, Hnone, Hpa'.
Qed.

Lemma schedule_again_one_pending_witness :
  RuleTasks.schedule_rule_application Samples.models_as_declared 20
    Samples.rule0 Samples.product0 Samples.world_pending
  = (Ok tt, Samples.world_pending)
  /\ exists w1 w2,
       LegacyTasks.schedule_rule_application no_faults 10
         Samples.rule0 Samples.product0 Samples.world0 = (Ok tt, w1)
       /\ List.length (applications (db w1)) = 1%nat
       /\ List.length (pending_for Samples.rule0 Samples.product0 (db w1))
          = 1%nat
       /\ LegacyTasks.schedule_rule_application no_faults 20
            Samples.rule0 Samples.product0 w1 = (Ok tt, w2)
       /\ List.length (applications (db w2))
          = List.length (applications (db w1))
       /\ List.length (pending_for Samples.rule0 Samples.product0 (db w2))
          = 1%nat.
Proof.
  split.
  - apply (proj1 schedule_again_one_pending
                 Samples.models_as_declared 20 Samples.rule0
                 Samples.product0 Samples.world_pending).
    discriminate.
  - apply (proj2 schedule_again_one_pending
                 no_faults no_faults 10 20 Samples.rule0 Samples.product0
                 Samples.world0);
      repeat split.
Defined.

(** C1, as the claim words it, fails on tasks.py: on the sample store
    the second call moves [triggered_at] of the pending application
    from 10 to 20 and queues [apply_rule] a second time. *)
Lemma legacy_second_call_is_no_noop :
  ~ ScheduleSpec.second_call_is_noop LegacyTasks.schedule_rule_application.
Proof.
  intros claim.
  pose proof (claim 10 20 Samples.rule0 Samples.product0 Samples.world0
                    _ eq_refl eq_refl) as H.
  apply (f_equal (fun r => List.length (queue (snd r)))) in H.
  vm_compute in H. discriminate H.
Qed.

End LegacySchedulerFacts.

(* ===================================================================== *)
(** * The apply and restore transitions *)
(* ===================================================================== *)

Module ApplyFacts.
Import ApplySpec.


Lemma get_application_found id w a r p :
  find_application id (db w) = Some a ->
  find_rule (app_rule a) (db w) = Some r ->
  find_product (app_product a) (db w) = Some p ->
  RuleTasks.get_application id w = (Ok (a, r, p), w).
Proof.
  intros Ha Hr Hp. unfold RuleTasks.get_application. run_task.
  now rewrite Ha, Hr, Hp.
Qed.

Lemma status_neq (s t : string) : s <> t -> negb (s =? t)%string = true.
Proof. intros H. apply negb_true_iff. now apply String.eqb_neq. Qed.

(** C2. On an application whose status is not [pending] (one already
    [applied], for instance) [apply_rule] returns a result of status
    [skipped] and the world after the call is the world before it: no
    audit log row, no message queued, no request sent, no field of the
    application or of its product changed.  This holds for the task of
    tasks/rule_tasks.py and for the one of tasks.py, whatever the
    faults of the run. *)
Theorem apply_rule_skips_non_pending faults depth net now id w a r p :
  find_application id (db w) = Some a ->
  find_rule (app_rule a) (db w) = Some r ->
  find_product (app_product a) (db w) = Some p ->
  app_status a <> "pending" ->
  (exists res, RuleTasks.apply_rule faults now id w = (Ok res, w)
               /\ result_status res = "skipped")
  /\ (exists res,
         LegacyTasks.apply_rule faults depth net now id w = (Ok res, w)
         /\ result_status res = "skipped").
Proof.
  intros Ha Hr Hp Hs.
  pose proof (@get_application_found id w a r p Ha Hr Hp) as Hget.
  pose proof (@status_neq _ _ Hs) as Hneq.
  split.
  - unfold RuleTasks.apply_rule, RuleTasks.apply_rule_body. run_task.
    rewrite Hget. run_task. rewrite Hneq. run_task.
    eexists. split; reflexivity.
  - unfold LegacyTasks.apply_rule, LegacyTasks.apply_rule_body,
      LegacyTasks.get_application. run_task.
    rewrite Hget. run_task. rewrite Hneq. run_task.
    eexists. split; reflexivity.
Qed.


Ltac break_match :=
  match goal with
  | H : context [match ?x with _ => _ end] |- _ => destruct x eqn:?
  end.

Lemma apply_rule_body_result faults now id w res w' :
  RuleTasks.apply_rule_body faults now id w = (Ok res, w') ->
  result_status res <> "error".
Proof.
  unfold RuleTasks.apply_rule_body, RuleTasks.get_application,
    RuleTasks.save_product, RuleTasks.save_application,
    RuleTasks.create_log.
  run_task. intros H.
  repeat (break_match; run_task; try discriminate);
    inversion H; subst; simpl; discriminate.
Qed.

Lemma atomic_rollback A (m : M A) w e w' :
  atomic m w = (Raise e, w') -> db w' = db w.
Proof.
  unfold atomic. destruct (m w) as [[x|e0] w1]; intros H; inversion H.
  reflexivity.
Qed.

Lemma atomic_ok A (m : M A) w x w' :
  atomic m w = (Ok x, w') -> m w = (Ok x, w').
Proof.
  unfold atomic. destruct (m w) as [[y|e0] w1]; intros H; inversion H.
  reflexivity.
Qed.

(** The handler turns every exception into an error result and leaves
    the world alone. *)
Lemma error_handler_returns not_found e w :
  exists message,
    RuleTasks.error_handler not_found e w = (Ok (Error message), w).
Proof.
  unfold RuleTasks.error_handler, ret.
  destruct e; try destruct (_ =? _)%string; eauto.
Qed.

Ltac handled :=
  match goal with
  | |- context [RuleTasks.error_handler ?nf ?e ?w] =>
      let m := fresh "message" in
      let H := fresh "H" in
      destruct (error_handler_returns nf e w) as [m H];
      rewrite H; clear H
  end.

(** One case per statement that the run can make raise. *)
Ltac fault_cases faults :=
  repeat match goal with
         | |- context [faults ?op] =>
             let e := fresh "e" in
             destruct (faults op) as [e|];
             cbn -[RuleTasks.error_handler];
             [handled; eauto 10 |]
         end;
  eauto 10.

Lemma apply_rule_returns faults now id w :
  exists res w', RuleTasks.apply_rule faults now id w = (Ok res, w').
Proof.
  unfold RuleTasks.apply_rule, try_except.
  destruct (atomic _ w) as [[res|e] w1]; eauto.
  destruct (error_handler_returns (RuleTasks.not_found id) e w1) as [m Hm].
  eauto.
Qed.

Lemma apply_rule_error_rolls_back faults now id w res w' :
  RuleTasks.apply_rule faults now id w = (Ok res, w') ->
  result_status res = "error" ->
  db w' = db w.
Proof.
  unfold RuleTasks.apply_rule, try_except.
  destruct (atomic _ w) as [[res1|e] w1] eqn:Hat; intros H Herr.
  - inversion H; subst. apply atomic_ok in Hat.
    now apply apply_rule_body_result in Hat.
  - destruct (error_handler_returns (RuleTasks.not_found id) e w1)
      as [m Hm].
    rewrite Hm in H. inversion H; subst.
    now apply atomic_rollback in Hat.
Qed.


Lemma find_application_write id d a a' :
  find_application id d = Some a ->
  app_id a' = id ->
  find_application id (write_application a' d) = Some a'.
Proof.
  unfold find_application, write_application. cbn [applications set_applications].
  intros Hfind Hid. subst id.
  induction (applications d) as [|b az IH];
    cbn [find map] in *; [discriminate |].
  destruct (Z.eqb_spec (app_id b) (app_id a')) as [Hb|Hb].
  - cbn [find]. now rewrite Z.eqb_refl.
  - cbn [find]. destruct (Z.eqb_spec (app_id b) (app_id a'));
      [contradiction |].
    apply IH. exact Hfind.
Qed.

Lemma find_application_id id d a :
  find_application id d = Some a -> app_id a = id.
Proof.
  unfold find_application. intros H. apply find_some in H.
  now apply Z.eqb_eq.
Qed.

(** One case per statement that the run can make raise, each kept as
    an equation. *)
Ltac fault_steps faults :=
  repeat match goal with
         | |- context [faults ?op] =>
             let e := fresh "e" in
             let H := fresh "Hop" in
             destruct (faults op) as [e|] eqn:H;
             cbn -[RuleTasks.error_handler];
             [handled; eauto 10 |]
         end.

(** A pending application, and a statement of its transition that
    raises: the task returns an error and the transaction is rolled
    back. *)
Lemma apply_rule_raising_step faults now id w a r p :
  find_application id (db w) = Some a ->
  find_rule (app_rule a) (db w) = Some r ->
  find_product (app_product a) (db w) = Some p ->
  app_status a = "pending" ->
  (exists op, In op (apply_steps r) /\ faults op <> None) ->
  exists message w',
    RuleTasks.apply_rule faults now id w = (Ok (Error message), w')
    /\ db w' = db w.
Proof.
  intros Ha Hr Hp Hs (op & Hin & Hop).
  pose proof (@get_application_found id w a r p Ha Hr Hp) as Hget.
  unfold RuleTasks.apply_rule, RuleTasks.apply_rule_body,
    RuleTasks.save_product, RuleTasks.save_application,
    RuleTasks.create_log, try_except, atomic, bind at 1.
  rewrite Hget.
  unfold bind, fallible, ret, raise, get_db, put_db, enqueue.
  cbn -[RuleTasks.error_handler String.eqb].
  rewrite Hs. cbn -[RuleTasks.error_handler String.eqb action_type].
  unfold apply_steps in Hin.
  destruct (action_type r =? "hide_product")%string;
    [| destruct (action_type r =? "schedule_return")%string];
    destruct (send_notification r);
    cbn -[RuleTasks.error_handler];
    fault_steps faults;
    exfalso; cbn [app In] in Hin;
    repeat (destruct Hin as [Hin|Hin]; [subst op; contradiction |]);
    exact Hin.
Qed.






(** The same failure in tasks.py, which has no transaction: the
    product is already hidden when the log fails, and the application
    stays [pending]. *)
Lemma legacy_apply_rule_not_atomic :
  let net : Client.Network :=
    fun _ => Client.Response 200 None
               (Some (Client.JObj [("product", Client.JObj [])])) in
  exists w',
    LegacyTasks.apply_rule Samples.log_fails 1000 net 100 1
                           Samples.world_pending
    = (Ok (Error "InventoryLog.create"), w')
    /\ map is_visible (products (db w')) = [false]
    /\ map app_status (applications (db w')) = ["pending"].
Proof. eexists. repeat split. Qed.

Lemma apply_rule_skips_non_pending_witness :
  (exists res,
      RuleTasks.apply_rule no_faults 300 1 Samples.world_applied
      = (Ok res, Samples.world_applied)
      /\ result_status res = "skipped")
  /\ (exists res,
         LegacyTasks.apply_rule no_faults 1000 Samples.unavailable 300 1
                                Samples.world_applied
         = (Ok res, Samples.world_applied)
         /\ result_status res = "skipped").
Proof.
  apply (@apply_rule_skips_non_pending
           no_faults 1000%nat Samples.unavailable 300 1
           Samples.world_applied
           (RuleTasks.mark_applied 5 (Samples.application0 "pending"))
           Samples.rule0 (RuleTasks.hide 5 Samples.product0));
    try reflexivity.
  simpl. discriminate.
Defined.

(** ** The restore transition *)

Lemma restore_product_skips faults now id w a r p :
  find_application id (db w) = Some a ->
  find_rule (app_rule a) (db w) = Some r ->
  find_product (app_product a) (db w) = Some p ->
  app_status a <> "applied" ->
  exists res, RuleTasks.restore_product faults now id w = (Ok res, w)
              /\ result_status res = "skipped".
Proof.
  intros Ha Hr Hp Hs.
  pose proof (@get_application_found id w a r p Ha Hr Hp) as Hget.
  pose proof (@status_neq _ _ Hs) as Hneq.
  unfold RuleTasks.restore_product, RuleTasks.restore_product_body.
  run_task. rewrite Hget. run_task. rewrite Hneq. run_task.
  eexists. split; reflexivity.
Qed.

Lemma restore_product_applied now id w a r p :
  find_application id (db w) = Some a ->
  find_rule (app_rule a) (db w) = Some r ->
  find_product (app_product a) (db w) = Some p ->
  app_status a = "applied" ->
  RuleTasks.restore_product no_faults now id w
  = (Ok (Success None),
     {| db := write_application (RuleTasks.mark_restored now a)
                (insert_log
                   (RuleTasks.status_log now (RuleTasks.show p) "schedule"
                      "hidden" "visible"
                      ("Product restored after rule '" ++ rule_name r ++ "'"))
                   (write_product (RuleTasks.show p) (db w)));
        queue := queue w; sent := sent w |}).
Proof.
  intros Ha Hr Hp Hs.
  pose proof (@get_application_found id w a r p Ha Hr Hp) as Hget.
  unfold RuleTasks.restore_product, RuleTasks.restore_product_body,
    RuleTasks.save_product, RuleTasks.save_application,
    RuleTasks.create_log.
  run_task. rewrite Hget. run_task. rewrite Hs.
  cbn [String.eqb Ascii.eqb Bool.eqb negb]. reflexivity.
Qed.

(** C4, the code at the failing input.  On an applied application the
    restore task of tasks/rule_tasks.py, when every statement goes
    through, makes the product visible, clears [hidden_at] and
    [scheduled_return] and writes one audit log row, as the claim says,
    but the status it stores is ['restored'], a value that is not in
    [STATUS_CHOICES].  When a statement raises, the transaction is
    rolled back and the application stays [applied].  In no run is the
    stored status ['reversed']. *)
Theorem restore_product_never_reversed :
  (exists w',
      RuleTasks.restore_product no_faults 200 1 Samples.world_applied
      = (Ok (Success None), w')
      /\ map ApplySpec.visibility (products (db w')) = [(true, None, None)]
      /\ List.length (logs (db w')) = 1%nat
      /\ map app_status (applications (db w')) = ["restored"])
  /\ ~ In "restored" STATUS_CHOICES
  /\ (forall faults now,
         exists res w',
           RuleTasks.restore_product faults now 1 Samples.world_applied
           = (Ok res, w')
           /\ (result_status res = "success"
               /\ map app_status (applications (db w')) = ["restored"]
               \/ result_status res = "error"
                  /\ db w' = db Samples.world_applied)).
Proof.
  split; [| split].
  - eexists. repeat split.
  - unfold STATUS_CHOICES. simpl. intuition discriminate.
  - intros faults now.
    unfold RuleTasks.restore_product, RuleTasks.restore_product_body,
      RuleTasks.save_product, RuleTasks.save_restored, RuleTasks.create_log,
      try_except, atomic, bind, fallible.
    cbn -[RuleTasks.error_handler].
    fault_cases faults.
Qed.

(** With the [RuleApplication] class as apps/rules/models.py declares
    it, the last [save] of the restore task names a field that does not
    exist: the task returns an error and the database is as before. *)
Lemma restore_product_models_as_declared :
  exists message,
    RuleTasks.restore_product Samples.models_as_declared 200 1
                              Samples.world_applied
    = (Ok (Error message), Samples.world_applied).
Proof. eexists. reflexivity. Qed.

(** The restore task of tasks.py on the same application, the remote
    update going through: the stored status is ['reversed'] and the
    product is visible again, but [hidden_at] keeps its value. *)
Lemma legacy_restore_product_reverses :
  let net : Client.Network :=
    fun _ => Client.Response 200 None
               (Some (Client.JObj [("product", Client.JObj [])])) in
  exists w',
    LegacyTasks.restore_product no_faults 1000 net 200 1
                                Samples.world_applied
    = (Ok (Success (Some "show_product")), w')
    /\ map app_status (applications (db w')) = ["reversed"]
    /\ map ApplySpec.visibility (products (db w'))
       = [(true, Some 5, None)]
    /\ List.length (logs (db w')) = 1%nat.
Proof. eexists. repeat split. Qed.

(** ** Rules whose action no task implements *)

(** C5, the code at the failing input.  For a pending application of a
    rule whose action is ['tag_product'], [apply_rule] of
    tasks/rule_tasks.py takes neither branch of its dispatch and goes
    on: when every statement goes through, the application is stored as
    [applied], an audit row with new status ['hidden'] is written
    although the product is untouched, and the result is a success.
    When a statement raises, the result is an error and the
    transaction is rolled back, so the application stays [pending].  In
    no run is it marked [failed]. *)
Theorem apply_rule_unsupported_action_not_failed :
  In "tag_product" ACTION_CHOICES
  /\ (exists w',
         RuleTasks.apply_rule no_faults 100 1 Samples.world_tag
         = (Ok (Success (Some "tag_product")), w')
         /\ map app_status (applications (db w')) = ["applied"]
         /\ products (db w') = products (db Samples.world_tag)
         /\ map new_status (logs (db w')) = [Some "hidden"])
  /\ (forall faults now,
         exists res w',
           RuleTasks.apply_rule faults now 1 Samples.world_tag = (Ok res, w')
           /\ (result_status res = "success"
               /\ map app_status (applications (db w')) = ["applied"]
               \/ result_status res = "error"
                  /\ db w' = db Samples.world_tag)).
Proof.
  split; [| split].
  - unfold ACTION_CHOICES. simpl. tauto.
  - eexists. repeat split.
  - intros faults now.
    unfold RuleTasks.apply_rule, RuleTasks.apply_rule_body,
      RuleTasks.save_application, RuleTasks.create_log,
      try_except, atomic, bind, fallible.
    cbn -[RuleTasks.error_handler].
    fault_cases faults.
Qed.

(** With the [Rule] class as apps/rules/models.py declares it, reading
    [rule.send_notification] raises at the end of every apply
    transition: the task returns an error and the transaction is rolled
    back, for the unimplemented action as for ['hide_product']. *)
Lemma apply_rule_models_as_declared :
  (exists message,
      RuleTasks.apply_rule Samples.models_as_declared 100 1
                           Samples.world_tag
      = (Ok (Error message), Samples.world_tag))
  /\ (exists message,
         RuleTasks.apply_rule Samples.models_as_declared 100 1
                              Samples.world_pending
         = (Ok (Error message), Samples.world_pending)).
Proof. split; eexists; reflexivity. Qed.

(** The sibling in tasks.py has the missing branch: any action other
    than ['hide_product'] on a due pending application ends in
    [failed] with a note and an error result, and nothing else is
    written. *)
Lemma legacy_apply_unsupported_action faults depth net now id w a r p s :
  find_application id (db w) = Some a ->
  find_rule (app_rule a) (db w) = Some r ->
  find_product (app_product a) (db w) = Some p ->
  find_store (rule_store r) (db w) = Some s ->
  app_status a = "pending" ->
  LegacyTasks.not_yet_due now a = false ->
  action_type r <> "hide_product" ->
  faults OpSaveApplication = None ->
  LegacyTasks.apply_rule faults depth net now id w
  = (Ok (Error ("Unsupported action type: " ++ action_type r)),
     {| db := write_application
                (LegacyTasks.mark "failed" (applied_at a)
                   (Some ("Unsupported action type: " ++ action_type r)%string)
                   a) (db w);
        queue := queue w; sent := sent w |}).
Proof.
  intros Ha Hr Hp Hst Hs Hdue Hact Hf.
  pose proof (@get_application_found id w a r p Ha Hr Hp) as Hget.
  apply String.eqb_neq in Hact.
  unfold LegacyTasks.apply_rule, LegacyTasks.apply_rule_body,
    LegacyTasks.get_application, LegacyTasks.get_store,
    LegacyTasks.save_application, RuleTasks.save_application.
  run_task. rewrite Hget. run_task.
  rewrite Hs. cbn [String.eqb Ascii.eqb Bool.eqb negb]. rewrite Hdue.
  rewrite Hst. run_task. rewrite Hact.
  rewrite Hf. run_task. reflexivity.
Qed.

End ApplyFacts.

(* ===================================================================== *)
(** * The credential guard of the synchronisation *)
(* ===================================================================== *)

Module SyncGuardFacts.
Import SyncTasks.

Lemma find_store_update id f ss :
  (forall s, store_id (f s) = store_id s) ->
  find (fun s => store_id s =? id)
       (Orm.update_where (fun s => store_id s =? id) f ss)
  = option_map f (find (fun s => store_id s =? id) ss).
Proof.
  intros Hid. unfold Orm.update_where.
  induction ss as [|s ss IH]; cbn [map find option_map]; [reflexivity |].
  destruct (store_id s =? id) eqn:Hs.
  - cbn [find]. now rewrite Hid, Hs.
  - cbn [find]. now rewrite Hs.
Qed.

(** C7. When the store's access token is empty ([None] or the empty
    string), [sync_store_data] returns an error result at once: the
    store row has [sync_status = 'failed'] and is otherwise as it was,
    no remote call is made, and the product, variant, location and
    level tables are exactly as before, so no [last_synced] stamp of a
    product changes. *)
Theorem sync_without_token columns remote now id w store :
  find_store id (db w) = Some store ->
  access_token store = None \/ access_token store = Some "" ->
  exists w' store',
    sync_store_data columns remote now id w
    = (Ok (Error ("Store " ++ shop_url store ++ " has no access token")),
       w')
    /\ sent w' = sent w
    /\ products (db w') = products (db w)
    /\ variants (db w') = variants (db w)
    /\ locations (db w') = locations (db w)
    /\ levels (db w') = levels (db w)
    /\ find_store id (db w') = Some store'
    /\ sync_status store' = "failed"
    /\ store_id store' = store_id store
    /\ shop_url store' = shop_url store
    /\ access_token store' = access_token store
    /\ store_is_active store' = store_is_active store
    /\ last_sync_at store' = last_sync_at store
    /\ queue w' = queue w.
Proof.
  intros Hfind Htoken. apply PyFacts.truthy_false in Htoken.
  unfold sync_store_data, sync_store_data_body, update_store.
  run_task. rewrite Hfind, Htoken. run_task.
  eexists. exists (with_sync_status "failed" store).
  split; [reflexivity |].
  cbn [db queue sent set_stores products variants locations levels].
  repeat split.
  unfold find_store, set_stores in *. cbn [stores].
  rewrite find_store_update by reflexivity.
  now rewrite Hfind.
Qed.

Lemma sync_without_token_witness :
  exists w' store',
    sync_store_data Samples.columns0 Samples.remote0 100 1
                    Samples.world_no_token
    = (Ok (Error "Store acme.myshopify.com has no access token"), w')
    /\ sent w' = sent Samples.world_no_token
    /\ products (db w') = products (db Samples.world_no_token)
    /\ variants (db w') = variants (db Samples.world_no_token)
    /\ locations (db w') = locations (db Samples.world_no_token)
    /\ levels (db w') = levels (db Samples.world_no_token)
    /\ find_store 1 (db w') = Some store'
    /\ sync_status store' = "failed"
    /\ store_id store' = 1
    /\ shop_url store' = "acme.myshopify.com"
    /\ access_token store' = Some ""
    /\ store_is_active store' = false
    /\ last_sync_at store' = Some 50
    /\ queue w' = queue Samples.world_no_token.
Proof.
  apply (@sync_without_token Samples.columns0 Samples.remote0 100 1
                             Samples.world_no_token
                             Samples.store_no_token).
  - reflexivity.
  - right. reflexivity.
Defined.

End SyncGuardFacts.

(* ===================================================================== *)
(** * Primary keys under the ORM calls *)
(* ===================================================================== *)

Module OrmFacts.
Import Orm.

Section Table.
Variable Row : Type.
Variable pk : Row -> Id.
Variables (matches : Row -> bool) (upd : Row -> Row) (mk : Id -> Row).
Hypothesis upd_pk : forall r, pk (upd r) = pk r.
Hypothesis mk_pk : forall id, pk (mk id) = id.

Lemma update_first_pks rows x rows' :
  update_first matches upd rows = Some (x, rows') ->
  map pk rows' = map pk rows.
Proof.
  revert x rows'. induction rows as [|r rows IH]; intros x rows';
    cbn [update_first]; [discriminate |].
  destruct (matches r).
  - intros H. inversion H; subst. cbn [map]. now rewrite upd_pk.
  - destruct (update_first matches upd rows) as [yr|] eqn:Hrec;
      [| discriminate].
    destruct yr as [y rest].
    intros H. inversion H; subst. cbn [map]. f_equal.
    eapply IH. reflexivity.
Qed.

Lemma next_id_fresh ids : ~ In (next_id ids) ids.
Proof.
  intros Hin. apply LegacySchedulerFacts.next_id_above in Hin. lia.
Qed.

Lemma update_or_create_nodup rows :
  NoDup (map pk rows) ->
  NoDup (map pk (snd (update_or_create pk matches upd mk rows))).
Proof.
  intros Hnd. unfold update_or_create.
  destruct (update_first matches upd rows) as [[x rows']|] eqn:Hu.
  - cbn [snd]. now rewrite (update_first_pks _ Hu).
  - cbn [snd]. rewrite map_app. cbn [map]. rewrite mk_pk.
    apply NoDup_app; [exact Hnd | repeat constructor; tauto |].
    intros y Hy [<-|[]]. now apply next_id_fresh in Hy.
Qed.

End Table.
End OrmFacts.

(* ===================================================================== *)
(** * The out-of-stock test *)
(* ===================================================================== *)

Module StockFacts.
Import LegacySync.

Local Abbreviation sumZ zs := (fold_right Z.add 0 zs).

Lemma sumZ_map_add A (f g : A -> Z) xs :
  sumZ (map (fun x => f x + g x) xs) = sumZ (map f xs) + sumZ (map g xs).
Proof.
  induction xs as [|x xs IH]; cbn [map fold_right] in *; lia.
Qed.

Lemma sumZ_map_ext A (f g : A -> Z) xs :
  (forall x, In x xs -> f x = g x) -> sumZ (map f xs) = sumZ (map g xs).
Proof.
  intros H. induction xs as [|x xs IH]; cbn [map fold_right] in *;
    [reflexivity |].
  rewrite (H x) by (left; reflexivity).
  f_equal. apply IH. intros y Hy. apply H. now right.
Qed.

(** Among variant rows with distinct keys, at most one carries a given
    key: summing [a] over the rows of the product that carry [k] gives
    [a] when the row found under [k] belongs to the product, else 0. *)
Lemma sum_at_key (product k a : Z) (vs : list ProductVariant) :
  NoDup (map variant_id vs) ->
  sumZ (map (fun v => if k =? variant_id v then a else 0)
            (filter (fun v => variant_product v =? product) vs))
  = if match find (fun v => variant_id v =? k) vs with
       | Some v => variant_product v =? product
       | None => false
       end
    then a else 0.
Proof.
  induction vs as [|v vs IH]; intros Hnd; [reflexivity |].
  inversion Hnd as [|? ? Hnotin Hnd']; subst.
  specialize (IH Hnd').
  cbn [filter find].
  destruct (Z.eqb_spec (variant_id v) k) as [Heq|Hne].
  - subst k.
    assert (Hnone : find (fun u => variant_id u =? variant_id v) vs = None).
    { destruct (find _ vs) as [u|] eqn:Hf; [| reflexivity].
      apply find_some in Hf. destruct Hf as [Hin Hid].
      apply Z.eqb_eq in Hid. exfalso. apply Hnotin.
      rewrite <- Hid. now apply in_map. }
    rewrite Hnone in IH.
    destruct (variant_product v =? product); [| exact IH].
    cbn [map fold_right]. rewrite Z.eqb_refl, IH. lia.
  - destruct (variant_product v =? product); [| exact IH].
    cbn [map fold_right]. rewrite IH.
    destruct (Z.eqb_spec k (variant_id v)); [congruence | lia].
Qed.

(** The query of the code and the double sum of the specification agree
    on a database whose variant keys are distinct. *)
Lemma total_inventory_is_sum_over_pairs product d :
  NoDup (map variant_id (variants d)) ->
  total_inventory product d = sum_over_pairs product d.
Proof.
  intros Hnd. unfold total_inventory, sum_over_pairs, available_of_variant.
  induction (levels d) as [|l ls IH].
  - cbn [filter map].
    induction (filter (fun v => variant_product v =? product) (variants d))
      as [|v vs IHv]; [reflexivity |].
    cbn [map fold_right] in *. lia.
  - cbn [filter].
    transitivity
      (sumZ (map (fun v => (if level_variant l =? variant_id v
                            then available l else 0)
                           + sumZ (map available
                                       (filter (fun l0 => level_variant l0
                                                          =? variant_id v) ls)))
                 (filter (fun v => variant_product v =? product) (variants d)))).
    + rewrite sumZ_map_add.
      rewrite (@sum_at_key product (level_variant l) (available l) _ Hnd).
      rewrite <- IH.
      unfold level_of_product at 1.
      destruct (match find _ (variants d) with
                | Some v => variant_product v =? product
                | None => false
                end); cbn [map fold_right]; lia.
    + apply sumZ_map_ext. intros v _.
      destruct (level_variant l =? variant_id v);
        cbn [map fold_right]; lia.
Qed.

Lemma sync_variant_nodup now product vp acc :
  NoDup (map variant_id (variants (snd acc))) ->
  NoDup (map variant_id (variants (snd (sync_variant now product vp acc)))).
Proof.
  intros Hnd. unfold sync_variant. destruct acc as [ids d].
  destruct (vp_id vp) as [vid|]; [| exact Hnd].
  destruct (vp_inventory_item_id vp) as [item|]; [| exact Hnd].
  destruct (negb (vid =? 0) && negb (item =? 0)); [| exact Hnd].
  pose proof (@OrmFacts.update_or_create_nodup _ variant_id
                (SyncTasks.variant_matches product vid)
                (variant_defaults now vp item)
                (new_variant now product vid vp item)
                (fun _ => eq_refl) (fun _ => eq_refl) (variants d) Hnd) as H.
  destruct (Orm.update_or_create _ _ _ _ _) as [v vs]. exact H.
Qed.

Lemma sync_variants_nodup now product vps acc :
  NoDup (map variant_id (variants (snd acc))) ->
  NoDup (map variant_id
             (variants (snd (fold_left
                               (fun acc vp => sync_variant now product vp acc)
                               vps acc)))).
Proof.
  revert acc. induction vps as [|vp vps IH]; intros acc Hnd; [exact Hnd |].
  cbn [fold_left]. apply IH. now apply sync_variant_nodup.
Qed.

Lemma sync_level_variants now store product lp d :
  variants (sync_level now store product lp d) = variants d.
Proof.
  unfold sync_level.
  destruct (lp_inventory_item_id lp) as [item|]; [| reflexivity].
  destruct (lp_location_id lp) as [loc|]; [| reflexivity].
  destruct (negb (item =? 0)); [| reflexivity].
  destruct (Orm.get_or_create _ _ _ _) as [location locs].
  cbn [variants set_locations].
  destruct (find _ (variants d)) as [variant|]; [| reflexivity].
  destruct (Orm.update_or_create _ _ _ _ _) as [inv_level lvls].
  destruct (_ && _); reflexivity.
Qed.

Lemma sync_levels_variants now store product lps d :
  variants (fold_left (fun d lp => sync_level now store product lp d) lps d)
  = variants d.
Proof.
  revert d. induction lps as [|lp lps IH]; intros d; [reflexivity |].
  cbn [fold_left]. rewrite IH. apply sync_level_variants.
Qed.

Lemma store_product_nodup now store shopify_id pp inventory_response d :
  NoDup (map variant_id (variants d)) ->
  NoDup (map variant_id
             (variants (snd (store_product now store shopify_id pp
                                           inventory_response d)))).
Proof.
  intros Hnd. unfold store_product.
  destruct (Orm.update_or_create _ _ _ _ (products d)) as [product ps].
  pose proof (@sync_variants_nodup now (product_id product) (pp_variants pp)
                ([], set_products ps d) Hnd) as H.
  destruct (fold_left _ (pp_variants pp) _) as [ids d1]. cbn [snd] in *.
  destruct ids as [|i ids]; [exact H |].
  destruct inventory_response as [lps|]; try exact H.
  now rewrite sync_levels_variants.
Qed.

Lemma one_unit_in_stock product d :
  (forall l, In l (levels d) -> level_of_product product d l = true ->
             0 <= available l) ->
  (exists l, In l (levels d) /\ level_of_product product d l = true
             /\ available l = 1) ->
  0 < total_inventory product d.
Proof.
  unfold total_inventory. intros Hnonneg (l1 & Hin & Hof & Hone).
  induction (levels d) as [|l ls IH]; [contradiction |].
  assert (Hge : 0 <= sumZ (map available
                                (filter (level_of_product product d) ls))).
  { clear IH Hin. induction ls as [|x xs IHx]; cbn [filter map fold_right];
      [lia |].
    assert (Hxs : forall l0, In l0 (l :: xs) ->
                             level_of_product product d l0 = true ->
                             0 <= available l0).
    { intros l0 [<-|Hl0]; apply Hnonneg; simpl; auto. }
    specialize (IHx Hxs).
    destruct (level_of_product product d x) eqn:Hx; [| exact IHx].
    cbn [map fold_right].
    assert (0 <= available x) by (apply Hnonneg; simpl; auto). lia. }
  cbn [filter]. destruct Hin as [->|Hin].
  - rewrite Hof. cbn [map fold_right]. lia.
  - assert (Hrest : 0 < sumZ (map available
                                  (filter (level_of_product product d) ls))).
    { apply IH; [| exact Hin]. intros l0 Hl0. apply Hnonneg. now right. }
    destruct (level_of_product product d l) eqn:Hl; [| exact Hrest].
    cbn [map fold_right].
    assert (0 <= available l) by (apply Hnonneg; simpl; auto). lia.
Qed.

(** C8. [sync_product] classifies the product it has just stored as out
    of stock exactly when the sum of [available] over the inventory
    levels of all its variants (every variant and location pair) is not
    positive.  With a positive sum the task returns
    [is_out_of_stock = False] and the world is the stored one: no rule is
    processed, no application is scheduled.  With a sum that is zero or
    negative the task goes through [process_out_of_stock_rules] for the
    product and the flag is [True].  In particular a product none of
    whose levels is negative and one of whose levels is 1 is not out of
    stock. *)
Theorem out_of_stock_iff_sum_not_positive
          faults now store shopify_id pp inventory_response w :
  NoDup (map variant_id (variants (db w))) ->
  let stored := store_product now store shopify_id pp inventory_response (db w) in
  let product := fst stored in
  let w1 := {| db := snd stored; queue := queue w; sent := sent w |} in
  let total := sum_over_pairs (product_id product) (db w1) in
  (0 < total ->
   sync_product faults now store shopify_id (Some pp) inventory_response w
   = (Ok (Synced shopify_id total false), w1))
  /\ (total <= 0 ->
      sync_product_block faults now store shopify_id pp inventory_response w
      = bind (process_out_of_stock_rules faults now store product)
             (fun _ => ret (Synced shopify_id total true)) w1)
  /\ ((forall l, In l (levels (db w1)) ->
                 level_of_product (product_id product) (db w1) l = true ->
                 0 <= available l) ->
      (exists l, In l (levels (db w1))
                 /\ level_of_product (product_id product) (db w1) l = true
                 /\ available l = 1) ->
      sync_product faults now store shopify_id (Some pp) inventory_response w
      = (Ok (Synced shopify_id total false), w1)).
Proof.
  intros Hnd. cbv zeta.
  pose proof (@store_product_nodup now store shopify_id pp inventory_response
                (db w) Hnd) as Hnd1.
  assert (Hblock :
    sync_product_block faults now store shopify_id pp inventory_response w
    = bind (if total_inventory
                 (product_id (fst (store_product now store shopify_id pp
                                                 inventory_response (db w))))
                 (snd (store_product now store shopify_id pp
                                     inventory_response (db w))) <=? 0
            then process_out_of_stock_rules faults now store
                   (fst (store_product now store shopify_id pp
                                       inventory_response (db w)))
            else ret tt)
           (fun _ =>
              ret (Synced shopify_id
                     (total_inventory
                        (product_id (fst (store_product now store shopify_id pp
                                            inventory_response (db w))))
                        (snd (store_product now store shopify_id pp
                                            inventory_response (db w))))
                     (total_inventory
                        (product_id (fst (store_product now store shopify_id pp
                                            inventory_response (db w))))
                        (snd (store_product now store shopify_id pp
                                            inventory_response (db w))) <=? 0)))
           {| db := snd (store_product now store shopify_id pp
                                       inventory_response (db w));
              queue := queue w; sent := sent w |}).
  { unfold sync_product_block. run_task.
    destruct (store_product now store shopify_id pp inventory_response (db w))
      as [product d1].
    cbn [fst snd]. run_task. reflexivity. }
  destruct (store_product now store shopify_id pp inventory_response (db w))
    as [product d1].
  cbn [fst snd db] in *.
  rewrite (@total_inventory_is_sum_over_pairs (product_id product) d1 Hnd1)
    in Hblock.
  set (total := sum_over_pairs (product_id product) d1) in *.
  assert (Hpos : 0 < total ->
                 sync_product faults now store shopify_id (Some pp)
                              inventory_response w
                 = (Ok (Synced shopify_id total false),
                    {| db := d1; queue := queue w; sent := sent w |})).
  { intros Hlt. unfold sync_product, try_except, atomic. rewrite Hblock.
    destruct (Z.leb_spec total 0); [lia |]. reflexivity. }
  split; [exact Hpos |]. split.
  - intros Hle. rewrite Hblock.
    destruct (Z.leb_spec total 0); [| lia]. reflexivity.
  - intros Hnonneg Hone. apply Hpos. unfold total.
    rewrite <- (@total_inventory_is_sum_over_pairs (product_id product) d1 Hnd1).
    now apply one_unit_in_stock.
Qed.

Lemma out_of_stock_iff_sum_not_positive_witness :
  NoDup (map variant_id (variants (db Samples.world0)))
  /\ exists w1,
       sync_product no_faults 100 Samples.store0 1001 (Some Samples.payload0)
                    (Samples.levels_at_two_locations 1 0) Samples.world0
       = (Ok (Synced 1001 1 false), w1)
       /\ applications (db w1) = [] /\ queue w1 = [].
Proof.
  assert (Hnd : NoDup (map variant_id (variants (db Samples.world0))))
    by constructor.
  split; [exact Hnd |].
  pose proof (@out_of_stock_iff_sum_not_positive
                no_faults 100 Samples.store0 1001 Samples.payload0
                (Samples.levels_at_two_locations 1 0) Samples.world0 Hnd)
    as H.
  cbv zeta in H. destruct H as [H _].
  exists {| db := snd (store_product 100 Samples.store0 1001 Samples.payload0
                                     (Samples.levels_at_two_locations 1 0)
                                     (db Samples.world0));
            queue := queue Samples.world0; sent := sent Samples.world0 |}.
  split; [apply H; reflexivity |]. split; reflexivity.
Defined.

(** The two sides of the threshold on the sample shop: with nothing
    available at either location the hide rule is scheduled for the
    product and [apply_rule] is queued; with one unit at one location
    nothing is scheduled. *)
Lemma sample_out_of_stock_schedules :
  exists w1,
    sync_product no_faults 100 Samples.store0 1001 (Some Samples.payload0)
                 (Samples.levels_at_two_locations 0 0) Samples.world0
    = (Ok (Synced 1001 0 true), w1)
    /\ map app_status (applications (db w1)) = ["pending"]
    /\ queue w1 = [ApplyRule 1].
Proof. eexists. repeat split. Qed.

Lemma sample_one_unit_schedules_nothing :
  exists w1,
    sync_product no_faults 100 Samples.store0 1001 (Some Samples.payload0)
                 (Samples.levels_at_two_locations 0 1) Samples.world0
    = (Ok (Synced 1001 1 false), w1)
    /\ applications (db w1) = [] /\ queue w1 = [].
Proof. eexists. repeat split. Qed.

End StockFacts.

(* ===================================================================== *)
(** * Idempotent reconciliation *)
(* ===================================================================== *)

Module Lockstep.
Import Orm.

Section Table.
Variable Row : Type.
Variable pk : Row -> Id.

(** [same y z]: equal up to timestamps.  [rel3 x y z]: [x] is a row of
    the first run at some point, [z] the same row when the first run is
    over, [y] the row during the second run. *)
Variable same : Row -> Row -> Prop.
Variable rel3 : Row -> Row -> Row -> Prop.
(** [key x z]: same primary key and same lookup columns. *)
Variable key : Row -> Row -> Prop.

Local Abbreviation R := (Mirror.R same rel3).
Local Abbreviation pre := (Mirror.pre key).

Hypothesis key_refl : forall x, key x x.
Hypothesis key_trans : forall x y z, key x y -> key y z -> key x z.
Hypothesis key_pk : forall x z, key x z -> pk x = pk z.
Hypothesis same_refl : forall z, same z z.
Hypothesis rel3_key : forall x y z, rel3 x y z -> key x z.
Hypothesis rel3_start : forall x z, key x z -> rel3 x z z.
Hypothesis rel3_end : forall y z, rel3 z y z -> same y z.

Lemma pre_refl a : pre a a.
Proof. induction a; constructor; auto. Qed.

Lemma pre_trans a b c : pre a b -> pre b c -> pre a c.
Proof.
  intros Hab. revert c. induction Hab as [|x a z fin Hk Hab IH]; intros c Hbc;
    [constructor |].
  inversion Hbc; subst.
  constructor; [eapply key_trans; eassumption | now apply IH].
Qed.

Lemma pre_app a rest : pre a (a ++ rest).
Proof. induction a; cbn [app]; constructor; auto. Qed.

Lemma Forall2_same_refl b : Forall2 same b b.
Proof. induction b; constructor; auto. Qed.

Lemma R_start a fin : pre a fin -> R a fin fin.
Proof.
  induction 1 as [fin|x a z fin Hk Hpre IH].
  - constructor. apply Forall2_same_refl.
  - constructor; auto.
Qed.

Lemma R_end b fin : R fin b fin -> Forall2 same b fin.
Proof.
  remember fin as a eqn:Ha. rewrite Ha at 1. intros H. revert Ha.
  induction H as [b fin H|x a y b z fin Hr HR IH]; intros Ha.
  - exact H.
  - inversion Ha; subst. constructor; auto.
Qed.

Lemma R_pre a b fin : R a b fin -> pre a fin.
Proof. induction 1; constructor; eauto. Qed.

(** ** One [update_or_create] in both runs *)

Variable matches : Row -> bool.
Variables upd1 upd2 : Row -> Row.
Variables mk1 mk2 : Id -> Row.

Hypothesis matches_key : forall x z, key x z -> matches x = matches z.
Hypothesis same_key : forall y z, same y z -> key y z.
Hypothesis rel3_key2 : forall x y z, rel3 x y z -> key y z.
Hypothesis upd1_key : forall x, key x (upd1 x).
Hypothesis upd2_key : forall y, key (upd2 y) y.
Hypothesis upd_rel3 : forall x y z, rel3 x y z -> rel3 (upd1 x) (upd2 y) z.
Hypothesis new_rel3 :
  forall id y z, same y z -> key (mk1 id) z -> rel3 (mk1 id) (upd2 y) z.
Hypothesis mk_matches : forall id, matches (mk1 id) = true.

Lemma update_first_pre a r a1 :
  update_first matches upd1 a = Some (r, a1) -> pre a a1.
Proof.
  revert r a1. induction a as [|x a IH]; intros r a1; cbn [update_first];
    [discriminate |].
  destruct (matches x).
  - intros H. inversion H; subst. constructor; [apply upd1_key | apply pre_refl].
  - destruct (update_first matches upd1 a) as [[r0 a0]|]; [| discriminate].
    intros H. inversion H; subst. constructor; [apply key_refl |].
    eapply IH. reflexivity.
Qed.

Lemma update_or_create_pre a :
  pre a (snd (update_or_create pk matches upd1 mk1 a)).
Proof.
  unfold update_or_create.
  destruct (update_first matches upd1 a) as [[r a1]|] eqn:Hu; cbn [snd].
  - eapply update_first_pre. exact Hu.
  - apply pre_app.
Qed.

Lemma update_first_found a b fin r a1 :
  update_first matches upd1 a = Some (r, a1) ->
  R a b fin ->
  exists r' b1,
    update_first matches upd2 b = Some (r', b1)
    /\ R a1 b1 fin /\ pk r = pk r'.
Proof.
  intros Hu HR. revert r a1 Hu.
  induction HR as [b fin H|x a y b z fin Hr HR IH]; intros r a1 Hu;
    cbn [update_first] in Hu; [discriminate |].
  cbn [update_first].
  rewrite (matches_key (rel3_key2 Hr)).
  rewrite (matches_key (rel3_key Hr)) in Hu.
  destruct (matches z).
  - inversion Hu; subst. do 2 eexists. split; [reflexivity |].
    split; [constructor; auto |].
    rewrite <- (key_pk (upd1_key x)), (key_pk (upd2_key y)).
    rewrite (key_pk (rel3_key Hr)), (key_pk (rel3_key2 Hr)). reflexivity.
  - destruct (update_first matches upd1 a) as [[r0 a0]|]; [| discriminate].
    inversion Hu; subst.
    destruct (IH r a0 eq_refl) as (r' & b1 & Hb & HR1 & Hpk).
    rewrite Hb. do 2 eexists. split; [reflexivity |].
    split; [constructor; auto | exact Hpk].
Qed.

Lemma update_first_missing id a b fin :
  update_first matches upd1 a = None ->
  R a b fin ->
  pre (a ++ [mk1 id]) fin ->
  exists r' b1,
    update_first matches upd2 b = Some (r', b1)
    /\ R (a ++ [mk1 id]) b1 fin /\ pk (mk1 id) = pk r'.
Proof.
  intros Hu HR. revert Hu.
  induction HR as [b fin H|x a y b z fin Hr HR IH]; intros Hu Hpre.
  - cbn [app] in *. inversion Hpre as [|? ? z fin' Hk Hrest]; subst.
    inversion H as [|y ? b' ? Hyz Hrest']; subst.
    cbn [update_first].
    rewrite (matches_key (same_key Hyz)), <- (matches_key Hk), mk_matches.
    do 2 eexists. split; [reflexivity |].
    split.
    + constructor; [now apply new_rel3 | constructor; exact Hrest'].
    + rewrite (key_pk (upd2_key y)), (key_pk (same_key Hyz)).
      now apply key_pk.
  - cbn [update_first app] in *.
    inversion Hpre as [|? ? ? ? Hk Hrest]; subst.
    rewrite (matches_key (rel3_key2 Hr)).
    rewrite (matches_key (rel3_key Hr)) in Hu.
    destruct (matches z); [discriminate |].
    destruct (update_first matches upd1 a) as [[r0 a0]|]; [discriminate |].
    destruct (IH eq_refl Hrest) as (r' & b1 & Hb & HR1 & Hpk).
    rewrite Hb. do 2 eexists. split; [reflexivity |].
    split; [constructor; auto | exact Hpk].
Qed.

Lemma update_or_create_step a b fin :
  R a b fin ->
  pre (snd (update_or_create pk matches upd1 mk1 a)) fin ->
  R (snd (update_or_create pk matches upd1 mk1 a))
    (snd (update_or_create pk matches upd2 mk2 b)) fin
  /\ pk (fst (update_or_create pk matches upd1 mk1 a))
     = pk (fst (update_or_create pk matches upd2 mk2 b)).
Proof.
  intros HR Hpre. unfold update_or_create in *.
  destruct (update_first matches upd1 a) as [[r a1]|] eqn:Hu; cbn [fst snd] in *.
  - destruct (@update_first_found a b fin r a1 Hu HR) as (r' & b1 & Hb & HR1 & Hpk).
    rewrite Hb. cbn [fst snd]. auto.
  - destruct (@update_first_missing _ a b fin Hu HR Hpre) as (r' & b1 & Hb & HR1 & Hpk).
    rewrite Hb. cbn [fst snd]. auto.
Qed.

End Table.

(** ** One [update(...)] of timestamps in both runs *)

Section Touch.
Variable Row : Type.
Variable same : Row -> Row -> Prop.
Variable rel3 : Row -> Row -> Row -> Prop.
Variable key : Row -> Row -> Prop.
Variables sel1 sel2 : Row -> bool.
Variables t1 t2 : Row -> Row.

Hypothesis key_refl : forall x, key x x.
Hypothesis t1_key : forall x, key x (t1 x).
Hypothesis t1_rel3 : forall x y z, rel3 x y z -> rel3 (t1 x) y z.
Hypothesis t2_rel3 : forall x y z, rel3 x y z -> rel3 x (t2 y) z.
Hypothesis t2_same : forall y z, same y z -> same (t2 y) z.

Lemma update_where_pre a : Mirror.pre key a (update_where sel1 t1 a).
Proof.
  unfold update_where. induction a as [|x a IH]; cbn [map]; constructor; auto.
  destruct (sel1 x); auto.
Qed.

Lemma update_where_same b fin :
  Forall2 same b fin -> Forall2 same (update_where sel2 t2 b) fin.
Proof.
  unfold update_where. induction 1 as [|y z b fin Hyz H IH]; cbn [map];
    constructor; auto.
  destruct (sel2 y); auto.
Qed.

Lemma update_where_step a b fin :
  Mirror.R same rel3 a b fin ->
  Mirror.R same rel3 (update_where sel1 t1 a) (update_where sel2 t2 b) fin.
Proof.
  induction 1 as [b fin H|x a y b z fin Hr HR IH].
  - constructor. now apply update_where_same.
  - unfold update_where in *. cbn [map]. constructor; [| exact IH].
    destruct (sel1 x), (sel2 y); auto.
Qed.

End Touch.
End Lockstep.

Module MirrorFacts.
Import Mirror SyncTasks.

Ltac rows :=
  unfold rel3_p, same_p, key_p, data_p, keep_p,
         rel3_v, same_v, key_v, base_v,
         rel3_l, same_l, key_l, rel3_i, same_i, key_i,
         product_matches, variant_matches, location_matches, level_matches,
         product_defaults, new_product, variant_defaults, new_variant,
         new_location, level_defaults, new_level,
         touch_product, touch_variant in *;
  cbn -[Z.eqb] in *.

Lemma same_p_erase y z : same_p y z -> erase_p y = erase_p z.
Proof.
  destruct y, z. rows. unfold erase_p. cbn.
  intros ((-> & -> & ->) & Hk & Hd). inversion Hk. inversion Hd. subst.
  reflexivity.
Qed.

Lemma same_v_erase y z : same_v y z -> erase_v y = erase_v z.
Proof.
  destruct y, z. rows. unfold erase_v. cbn.
  intros ((-> & -> & ->) & -> & Hb & -> & -> & -> & ->). inversion Hb. subst.
  reflexivity.
Qed.

Lemma same_i_erase y z : same_i y z -> erase_i y = erase_i z.
Proof.
  destruct y, z. rows. unfold erase_i. cbn.
  intros ((-> & -> & ->) & ->). reflexivity.
Qed.

Lemma Forall2_map_eq A B (f : A -> B) (same : A -> A -> Prop) b fin :
  (forall y z, same y z -> f y = f z) ->
  Forall2 same b fin -> map f b = map f fin.
Proof.
  intros Hf. induction 1; cbn [map]; [reflexivity |].
  f_equal; auto.
Qed.

Lemma key_p_refl x : key_p x x. Proof. rows. auto. Qed.
Lemma key_v_refl x : key_v x x. Proof. rows. auto. Qed.
Lemma key_l_refl x : key_l x x. Proof. rows. auto. Qed.
Lemma key_i_refl x : key_i x x. Proof. rows. auto. Qed.

Lemma key_p_trans x y z : key_p x y -> key_p y z -> key_p x z.
Proof. rows. intuition congruence. Qed.
Lemma key_v_trans x y z : key_v x y -> key_v y z -> key_v x z.
Proof. rows. intuition congruence. Qed.
Lemma key_l_trans x y z : key_l x y -> key_l y z -> key_l x z.
Proof. rows. intuition congruence. Qed.
Lemma key_i_trans x y z : key_i x y -> key_i y z -> key_i x z.
Proof. rows. intuition congruence. Qed.

Lemma db_pre_refl d : db_pre d d.
Proof.
  repeat split; apply Lockstep.pre_refl;
    auto using key_p_refl, key_v_refl, key_l_refl, key_i_refl.
Qed.

Lemma db_pre_trans a b c : db_pre a b -> db_pre b c -> db_pre a c.
Proof.
  intros (Hp & Hv & Hl & Hi) (Hp' & Hv' & Hl' & Hi').
  repeat split.
  - eapply Lockstep.pre_trans; eauto using key_p_trans.
  - eapply Lockstep.pre_trans; eauto using key_v_trans.
  - eapply Lockstep.pre_trans; eauto using key_l_trans.
  - eapply Lockstep.pre_trans; eauto using key_i_trans.
Qed.

Lemma lockstep_id : lockstep (fun d => d) (fun d => d).
Proof.
  repeat split; auto using db_pre_refl; try apply db_pre_refl;
    destruct H as (? & ? & ? & ?); assumption.
Qed.

Lemma lockstep_bind K (k1 k2 : DB -> K) f1 f2 (g1 g2 : K -> DB -> DB) :
  lockstep f1 f2 ->
  (forall a b fin, DR a b fin -> db_pre (f1 a) fin -> k1 a = k2 b) ->
  (forall k, lockstep (g1 k) (g2 k)) ->
  lockstep (fun d => g1 (k1 d) (f1 d)) (fun d => g2 (k2 d) (f2 d)).
Proof.
  intros (Hmf & Hsf & Hf1 & Hf2) Hk Hg. split; [| split; [| split]].
  - intros d. eapply db_pre_trans; [apply Hmf |].
    apply (proj1 (Hg (k1 d))).
  - intros a b fin HR Hpre.
    assert (Hpre1 : db_pre (f1 a) fin).
    { eapply db_pre_trans; [| exact Hpre]. apply (proj1 (Hg (k1 a))). }
    rewrite <- (Hk a b fin HR Hpre1).
    apply (proj1 (proj2 (Hg (k1 a)))); auto.
  - intros d. destruct (proj1 (proj2 (proj2 (Hg (k1 d)))) (f1 d))
      as (-> & -> & -> & ->). apply Hf1.
  - intros d. destruct (proj2 (proj2 (proj2 (Hg (k2 d)))) (f2 d))
      as (-> & -> & -> & ->). apply Hf2.
Qed.

Lemma lockstep_comp f1 f2 g1 g2 :
  lockstep f1 f2 -> lockstep g1 g2 ->
  lockstep (fun d => g1 (f1 d)) (fun d => g2 (f2 d)).
Proof.
  intros Hf Hg.
  apply (@lockstep_bind unit (fun _ => tt) (fun _ => tt) f1 f2
                        (fun _ => g1) (fun _ => g2)); auto.
Qed.

Lemma lockstep_fold X (f1 f2 : DB -> X -> DB) xs :
  (forall x, lockstep (fun d => f1 d x) (fun d => f2 d x)) ->
  lockstep (fun d => fold_left f1 xs d) (fun d => fold_left f2 xs d).
Proof.
  intros Hstep. induction xs as [|x xs IH]; cbn [fold_left].
  - apply lockstep_id.
  - apply (@lockstep_comp (fun d => f1 d x) (fun d => f2 d x)
                          (fun d => fold_left f1 xs d)
                          (fun d => fold_left f2 xs d)); auto.
Qed.

(** ** The ORM calls of step 4, table by table *)

Ltac solve_rows :=
  rows; intros; rewrite ?Z.eqb_refl;
  repeat match goal with
         | |- context [if ?c then _ else _] => destruct c
         | |- context [match ?c with Some _ => _ | None => _ end] =>
             destruct c
         end;
  intuition (try congruence).

Lemma product_step now1 now2 store pd a b fin :
  R same_p rel3_p a b fin ->
  pre key_p
    (snd (Orm.update_or_create product_id (product_matches store (pd_id pd))
            (product_defaults now1 pd) (new_product now1 store pd) a)) fin ->
  R same_p rel3_p
    (snd (Orm.update_or_create product_id (product_matches store (pd_id pd))
            (product_defaults now1 pd) (new_product now1 store pd) a))
    (snd (Orm.update_or_create product_id (product_matches store (pd_id pd))
            (product_defaults now2 pd) (new_product now2 store pd) b)) fin
  /\ product_id
       (fst (Orm.update_or_create product_id (product_matches store (pd_id pd))
               (product_defaults now1 pd) (new_product now1 store pd) a))
     = product_id
         (fst (Orm.update_or_create product_id
                 (product_matches store (pd_id pd))
                 (product_defaults now2 pd) (new_product now2 store pd) b)).
Proof.
  apply Lockstep.update_or_create_step with (key := key_p); solve_rows.
Qed.

Lemma variant_step now1 now2 product vd a b fin :
  R same_v rel3_v a b fin ->
  pre key_v
    (snd (Orm.update_or_create variant_id (variant_matches product (vd_id vd))
            (variant_defaults now1 vd) (new_variant now1 product vd) a)) fin ->
  R same_v rel3_v
    (snd (Orm.update_or_create variant_id (variant_matches product (vd_id vd))
            (variant_defaults now1 vd) (new_variant now1 product vd) a))
    (snd (Orm.update_or_create variant_id (variant_matches product (vd_id vd))
            (variant_defaults now2 vd) (new_variant now2 product vd) b)) fin
  /\ variant_id
       (fst (Orm.update_or_create variant_id
               (variant_matches product (vd_id vd))
               (variant_defaults now1 vd) (new_variant now1 product vd) a))
     = variant_id
         (fst (Orm.update_or_create variant_id
                 (variant_matches product (vd_id vd))
                 (variant_defaults now2 vd) (new_variant now2 product vd) b)).
Proof.
  apply Lockstep.update_or_create_step with (key := key_v); solve_rows.
Qed.

Lemma location_step now1 now2 store shopify_id a b fin :
  R same_l rel3_l a b fin ->
  pre key_l
    (snd (Orm.get_or_create location_id (location_matches store shopify_id)
            (new_location now1 store shopify_id) a)) fin ->
  R same_l rel3_l
    (snd (Orm.get_or_create location_id (location_matches store shopify_id)
            (new_location now1 store shopify_id) a))
    (snd (Orm.get_or_create location_id (location_matches store shopify_id)
            (new_location now2 store shopify_id) b)) fin
  /\ location_id
       (fst (Orm.get_or_create location_id (location_matches store shopify_id)
               (new_location now1 store shopify_id) a))
     = location_id
         (fst (Orm.get_or_create location_id
                 (location_matches store shopify_id)
                 (new_location now2 store shopify_id) b)).
Proof.
  unfold Orm.get_or_create.
  apply Lockstep.update_or_create_step with (key := key_l); solve_rows.
Qed.

Lemma level_step now1 now2 variant location ld a b fin :
  R same_i rel3_i a b fin ->
  pre key_i
    (snd (Orm.update_or_create level_id (level_matches variant location)
            (level_defaults now1 ld) (new_level now1 variant location ld) a))
    fin ->
  R same_i rel3_i
    (snd (Orm.update_or_create level_id (level_matches variant location)
            (level_defaults now1 ld) (new_level now1 variant location ld) a))
    (snd (Orm.update_or_create level_id (level_matches variant location)
            (level_defaults now2 ld) (new_level now2 variant location ld) b))
    fin
  /\ level_id
       (fst (Orm.update_or_create level_id (level_matches variant location)
               (level_defaults now1 ld) (new_level now1 variant location ld) a))
     = level_id
         (fst (Orm.update_or_create level_id (level_matches variant location)
                 (level_defaults now2 ld)
                 (new_level now2 variant location ld) b)).
Proof.
  apply Lockstep.update_or_create_step with (key := key_i); solve_rows.
Qed.

Lemma lockstep_ext f1 f2 g1 g2 :
  (forall d, f1 d = g1 d) -> (forall d, f2 d = g2 d) ->
  lockstep g1 g2 -> lockstep f1 f2.
Proof.
  intros H1 H2 (Hm & Hs & Hf1 & Hf2). split; [| split; [| split]].
  - intros d. rewrite H1. apply Hm.
  - intros a b fin. rewrite H1, H2. apply Hs.
  - intros d. rewrite H1. apply Hf1.
  - intros d. rewrite H2. apply Hf2.
Qed.

Ltac untouched :=
  first [ apply Lockstep.pre_refl;
          auto using key_p_refl, key_v_refl, key_l_refl, key_i_refl
        | assumption ].

Lemma product_op_lockstep now1 now2 store pd :
  lockstep (product_op now1 store pd) (product_op now2 store pd)
  /\ (forall a b fin, DR a b fin -> db_pre (product_op now1 store pd a) fin ->
                      product_op_pk now1 store pd a
                      = product_op_pk now2 store pd b).
Proof.
  unfold lockstep, frame, DR, db_pre, product_op, product_op_pk.
  split; [split; [| split; [| split]] |];
    cbn [products variants locations levels stores logs rules applications
         set_products].
  - intros d. repeat split; try untouched.
    apply Lockstep.update_or_create_pre; solve_rows.
  - intros a b fin (Hp & Hv & Hl & Hi) (Hp' & _). repeat split; try untouched.
    exact (proj1 (@product_step now1 now2 store pd _ _ _ Hp Hp')).
  - auto.
  - auto.
  - intros a b fin (Hp & Hv & Hl & Hi) (Hp' & _).
    exact (proj2 (@product_step now1 now2 store pd _ _ _ Hp Hp')).
Qed.

Lemma variant_op_lockstep now1 now2 product vd :
  lockstep (variant_op now1 product vd) (variant_op now2 product vd)
  /\ (forall a b fin, DR a b fin -> db_pre (variant_op now1 product vd a) fin ->
                      variant_op_pk now1 product vd a
                      = variant_op_pk now2 product vd b).
Proof.
  unfold lockstep, frame, DR, db_pre, variant_op, variant_op_pk.
  split; [split; [| split; [| split]] |];
    cbn [products variants locations levels stores logs rules applications
         set_variants].
  - intros d. repeat split; try untouched.
    apply Lockstep.update_or_create_pre; solve_rows.
  - intros a b fin (Hp & Hv & Hl & Hi) (_ & Hv' & _). repeat split;
      try untouched.
    exact (proj1 (@variant_step now1 now2 product vd _ _ _ Hv Hv')).
  - auto.
  - auto.
  - intros a b fin (Hp & Hv & Hl & Hi) (_ & Hv' & _).
    exact (proj2 (@variant_step now1 now2 product vd _ _ _ Hv Hv')).
Qed.

Lemma location_op_lockstep now1 now2 store shopify_id :
  lockstep (location_op now1 store shopify_id)
           (location_op now2 store shopify_id)
  /\ (forall a b fin, DR a b fin ->
                      db_pre (location_op now1 store shopify_id a) fin ->
                      location_op_pk now1 store shopify_id a
                      = location_op_pk now2 store shopify_id b).
Proof.
  unfold lockstep, frame, DR, db_pre, location_op, location_op_pk.
  split; [split; [| split; [| split]] |];
    cbn [products variants locations levels stores logs rules applications
         set_locations].
  - intros d. repeat split; try untouched.
    unfold Orm.get_or_create.
    apply Lockstep.update_or_create_pre; solve_rows.
  - intros a b fin (Hp & Hv & Hl & Hi) (_ & _ & Hl' & _). repeat split;
      try untouched.
    exact (proj1 (@location_step now1 now2 store shopify_id _ _ _ Hl Hl')).
  - auto.
  - auto.
  - intros a b fin (Hp & Hv & Hl & Hi) (_ & _ & Hl' & _).
    exact (proj2 (@location_step now1 now2 store shopify_id _ _ _ Hl Hl')).
Qed.

Lemma level_op_lockstep now1 now2 variant ld location :
  lockstep (level_op now1 variant ld location)
           (level_op now2 variant ld location).
Proof.
  unfold lockstep, frame, DR, db_pre, level_op.
  split; [| split; [| split]];
    cbn [products variants locations levels stores logs rules applications
         set_levels].
  - intros d. repeat split; try untouched.
    apply Lockstep.update_or_create_pre; solve_rows.
  - intros a b fin (Hp & Hv & Hl & Hi) (_ & _ & _ & Hi'). repeat split;
      try untouched.
    exact (proj1 (@level_step now1 now2 variant location ld _ _ _ Hi Hi')).
  - auto.
  - auto.
Qed.

Lemma touch_variants_lockstep now1 now2 product synced :
  lockstep (touch_variants now1 product synced)
           (touch_variants now2 product synced).
Proof.
  unfold lockstep, frame, DR, db_pre, touch_variants.
  split; [| split; [| split]];
    cbn [products variants locations levels stores logs rules applications
         set_variants].
  - intros d. repeat split; try untouched.
    apply Lockstep.update_where_pre; solve_rows.
  - intros a b fin (Hp & Hv & Hl & Hi) _. repeat split; try untouched.
    apply Lockstep.update_where_step; [solve_rows .. | exact Hv].
  - auto.
  - auto.
Qed.

Lemma touch_products_lockstep now1 now2 store synced :
  lockstep (touch_products now1 store synced)
           (touch_products now2 store synced).
Proof.
  unfold lockstep, frame, DR, db_pre, touch_products.
  split; [| split; [| split]];
    cbn [products variants locations levels stores logs rules applications
         set_products].
  - intros d. repeat split; try untouched.
    apply Lockstep.update_where_pre; solve_rows.
  - intros a b fin (Hp & Hv & Hl & Hi) _. repeat split; try untouched.
    apply Lockstep.update_where_step; [solve_rows .. | exact Hp].
  - auto.
  - auto.
Qed.

(** ** The functions of sync_tasks.py as chains of those writes *)

(** ** The loops of step 4 *)

Lemma loop_lockstep X (fits : X -> bool) (part1 part2 : X -> DB -> DB) xs :
  (forall x, lockstep (part1 x) (part2 x)) ->
  lockstep (loop fits part1 xs) (loop fits part2 xs).
Proof.
  intros Hpart. induction xs as [|x xs IH].
  - apply lockstep_id.
  - eapply lockstep_ext with
      (g1 := fun d => (if fits x then loop fits part1 xs else fun d => d)
                        (part1 x d))
      (g2 := fun d => (if fits x then loop fits part2 xs else fun d => d)
                        (part2 x d)).
    + intros d. cbn [loop]. now destruct (fits x).
    + intros d. cbn [loop]. now destruct (fits x).
    + apply (@lockstep_comp (part1 x) (part2 x)); [apply Hpart |].
      destruct (fits x); [exact IH | apply lockstep_id].
Qed.

Lemma level_part_lockstep columns now1 now2 store variant ld :
  lockstep (level_part columns now1 store variant ld)
           (level_part columns now2 store variant ld).
Proof.
  unfold level_part.
  destruct (fits_location columns (ld_location_id ld));
    [| apply lockstep_id].
  destruct (fits_level columns ld); [| apply location_op_lockstep].
  apply (@lockstep_bind Id
           (location_op_pk now1 store (ld_location_id ld))
           (location_op_pk now2 store (ld_location_id ld))
           (location_op now1 store (ld_location_id ld))
           (location_op now2 store (ld_location_id ld))
           (level_op now1 variant ld) (level_op now2 variant ld)).
  - apply location_op_lockstep.
  - apply location_op_lockstep.
  - intros k. apply level_op_lockstep.
Qed.

Lemma variant_part_lockstep columns remote now1 now2 store product vd :
  lockstep (variant_part columns remote now1 store product vd)
           (variant_part columns remote now2 store product vd).
Proof.
  unfold variant_part.
  destruct (fits_variant columns vd); [| apply lockstep_id].
  apply (@lockstep_bind Id
           (variant_op_pk now1 product vd) (variant_op_pk now2 product vd)
           (variant_op now1 product vd) (variant_op now2 product vd)
           (levels_of columns remote now1 store vd)
           (levels_of columns remote now2 store vd)).
  - apply variant_op_lockstep.
  - apply variant_op_lockstep.
  - intros k. unfold levels_of.
    destruct (inventory_levels remote (vd_inventory_item_id vd)) as [lds|].
    + apply loop_lockstep. intros ld. apply level_part_lockstep.
    + apply lockstep_id.
Qed.

Lemma product_part_lockstep columns remote now1 now2 store pd :
  lockstep (product_part columns remote now1 store pd)
           (product_part columns remote now2 store pd).
Proof.
  unfold product_part.
  destruct (fits_product columns pd); [| apply lockstep_id].
  apply (@lockstep_bind Id
           (product_op_pk now1 store pd) (product_op_pk now2 store pd)
           (product_op now1 store pd) (product_op now2 store pd)
           (variants_of columns remote now1 store pd)
           (variants_of columns remote now2 store pd)).
  - apply product_op_lockstep.
  - apply product_op_lockstep.
  - intros k. unfold variants_of.
    assert (Hloop :
              lockstep
                (loop (fits_variant columns)
                      (variant_part columns remote now1 store k)
                      (pd_variants pd))
                (loop (fits_variant columns)
                      (variant_part columns remote now2 store k)
                      (pd_variants pd))).
    { apply loop_lockstep. intros vd. apply variant_part_lockstep. }
    destruct (forallb (fits_variant columns) (pd_variants pd));
      [| exact Hloop].
    apply (@lockstep_comp _ _
             (touch_variants now1 k (map vd_id (pd_variants pd)))
             (touch_variants now2 k (map vd_id (pd_variants pd))));
      [exact Hloop | apply touch_variants_lockstep].
Qed.

Lemma step4_lockstep columns remote now1 now2 store all_products :
  lockstep (step4 columns remote now1 store all_products)
           (step4 columns remote now2 store all_products).
Proof.
  unfold step4.
  assert (Hloop :
            lockstep
              (loop (product_fits columns)
                    (product_part columns remote now1 store) all_products)
              (loop (product_fits columns)
                    (product_part columns remote now2 store) all_products)).
  { apply loop_lockstep. intros pd. apply product_part_lockstep. }
  destruct (catalog_fits columns all_products); [| exact Hloop].
  apply (@lockstep_comp _ _
           (touch_products now1 store (map pd_id all_products))
           (touch_products now2 store (map pd_id all_products)));
    [exact Hloop | apply touch_products_lockstep].
Qed.

(** ** The task code against these functions *)

Lemma acts_ret : acts (ret tt) true (fun d => d) 0.
Proof. intros w. cbn. auto. Qed.

Lemma acts_checked fits model : acts (checked fits model) fits (fun d => d) 0.
Proof.
  intros w. unfold checked. destruct fits; cbn; eauto 6.
Qed.

Lemma acts_seq m k ok f g n p :
  acts m true f n -> acts k ok g p ->
  acts (bind m (fun _ => k)) ok (fun d => g (f d)) (n + p).
Proof.
  intros Hm Hk w. unfold bind.
  destruct (Hm w) as (Hr & Hd & Hq & Hs).
  destruct (m w) as [[u|e] w1]; cbn [fst snd] in *; [| discriminate].
  destruct (Hk w1) as (Hr1 & Hd1 & Hq1 & Hs1).
  rewrite Hd1, Hq1, Hs1, Hd, Hq, Hs. repeat split; auto. lia.
Qed.

Lemma acts_stop m k f n :
  acts m false f n -> acts (bind m (fun _ => k)) false f n.
Proof.
  intros Hm w. unfold bind.
  destruct (Hm w) as ((e & Hr) & Hd & Hq & Hs).
  destruct (m w) as [[u|e1] w1]; cbn [fst snd] in *; [discriminate |].
  eauto 6.
Qed.

Lemma acts_swallow m ok f n :
  acts m ok f n -> acts (try_except m (fun _ => ret tt)) true f n.
Proof.
  intros Hm w. unfold try_except, ret.
  destruct (Hm w) as (Hr & Hd & Hq & Hs).
  destruct (m w) as [[u|e1] w1]; cbn [fst snd] in *; auto.
  destruct u. auto.
Qed.

Lemma acts_ext m ok f g n p :
  acts m ok f n -> (forall d, f d = g d) -> n = p -> acts m ok g p.
Proof.
  intros Hm Hfg <- w. destruct (Hm w) as (Hr & Hd & Hq & Hs).
  rewrite <- Hfg. auto.
Qed.

Lemma for_each_acts X (body : X -> M unit) fits part n xs :
  (forall x, acts (body x) (fits x) (part x) (n x)) ->
  acts (for_each body xs) (forallb fits xs) (loop fits part xs)
       (calls fits n xs).
Proof.
  intros Hbody. induction xs as [|x xs IH];
    cbn [for_each forallb loop calls].
  - apply acts_ret.
  - specialize (Hbody x). destruct (fits x); cbn [andb].
    + apply (acts_seq Hbody IH).
    + eapply acts_ext; [apply (acts_stop _ Hbody) | reflexivity | lia].
Qed.

Lemma sync_level_acts columns now store variant ld :
  acts (sync_level columns now store variant ld) (level_fits columns ld)
       (level_part columns now store variant ld) 0.
Proof.
  intros w.
  unfold sync_level, checked, level_fits, level_part, level_op,
    location_op, location_op_pk.
  destruct (fits_location columns (ld_location_id ld)); run_task;
    cbn [andb]; [| rewrite Nat.add_0_r; eauto 6].
  destruct (Orm.get_or_create _ _ _ (locations (db w))) as [location locs].
  run_task.
  destruct (fits_level columns ld); run_task; cbn [fst snd levels
                                                   set_locations].
  - destruct (Orm.update_or_create _ _ _ _ (levels (db w))) as [lvl lvls].
    cbn [fst snd db queue sent]. rewrite Nat.add_0_r. auto.
  - rewrite Nat.add_0_r. eauto 6.
Qed.

Lemma sync_variant_acts columns remote now store product vd :
  acts (sync_variant columns remote now store product vd)
       (fits_variant columns vd)
       (variant_part columns remote now store product vd)
       (variant_calls columns vd).
Proof.
  intros w.
  unfold sync_variant, checked, variant_part, variant_calls, levels_of,
    variant_op, variant_op_pk.
  destruct (fits_variant columns vd);
    cbv beta iota delta [bind ret raise get_db put_db];
    cbn [db queue sent fst snd];
    [| rewrite Nat.add_0_r; eauto 6].
  destruct (Orm.update_or_create _ _ _ _ (variants (db w))) as [variant vs].
  cbn [fst snd].
  set (w1 := {| db := set_variants vs (db w); queue := queue w;
                sent := sent w |}).
  assert (Hlevels :
            acts (bind (tick 1)
                       (fun _ =>
                          match inventory_levels remote
                                  (vd_inventory_item_id vd) with
                          | None =>
                              raise (RequestException "InventoryLevel.find")
                          | Some lds =>
                              for_each (sync_level columns now store
                                                   (variant_id variant)) lds
                          end))
                 (match inventory_levels remote
                          (vd_inventory_item_id vd) with
                  | None => false
                  | Some lds => forallb (level_fits columns) lds
                  end)
                 (fun d =>
                    match inventory_levels remote
                            (vd_inventory_item_id vd) with
                    | None => d
                    | Some lds =>
                        loop (level_fits columns)
                             (level_part columns now store
                                         (variant_id variant)) lds d
                    end)
                 1).
  { assert (Htick : acts (tick 1) true (fun d => d) 1)
      by (intros w0; cbn; auto).
    destruct (inventory_levels remote (vd_inventory_item_id vd)) as [lds|].
    - eapply acts_ext;
        [ apply (acts_seq Htick
                   (@for_each_acts
                      _ (sync_level columns now store (variant_id variant))
                      (level_fits columns)
                      (level_part columns now store (variant_id variant))
                      (fun _ => O) lds
                      (sync_level_acts columns now store
                                       (variant_id variant))))
        | reflexivity | ].
      cbn [Nat.add]. f_equal.
      induction lds as [|ld lds IH]; cbn [calls]; [reflexivity |].
      destruct (level_fits columns ld); [exact IH | reflexivity].
    - intros w0. cbn. rewrite Nat.add_comm. eauto 6. }
  destruct (acts_swallow Hlevels w1) as (Hr & Hd & Hq & Hs).
  subst w1. cbn [db queue sent] in *. auto.
Qed.

Lemma calls_all X (fits : X -> bool) n xs :
  forallb fits xs = true ->
  calls fits n xs = fold_right (fun x k => (n x + k)%nat) O xs.
Proof.
  induction xs as [|x xs IH]; cbn [forallb calls fold_right];
    [reflexivity |].
  intros H. apply andb_true_iff in H. destruct H as [Hx Hxs].
  rewrite Hx. now rewrite IH.
Qed.

Lemma sync_product_data_acts columns remote now store pd :
  acts (sync_product_data columns remote now store pd)
       (product_fits columns pd)
       (product_part columns remote now store pd)
       (product_calls columns pd).
Proof.
  intros w.
  unfold sync_product_data, checked, product_fits, product_part,
    product_calls, variants_of, product_op, product_op_pk, touch_variants.
  destruct (fits_product columns pd);
    cbv beta iota delta [bind ret raise get_db put_db];
    cbn [db queue sent fst snd andb];
    [| rewrite Nat.add_0_r; eauto 6].
  destruct (Orm.update_or_create _ _ _ _ (products (db w))) as [product ps].
  cbn [fst snd].
  set (w1 := {| db := set_products ps (db w); queue := queue w;
                sent := sent w |}).
  destruct (@for_each_acts
              _ (sync_variant columns remote now store (product_id product))
              (fits_variant columns)
              (variant_part columns remote now store (product_id product))
              (variant_calls columns) (pd_variants pd)
              (sync_variant_acts columns remote now store
                                 (product_id product)) w1)
    as (Hr & Hd & Hq & Hs).
  destruct (for_each _ (pd_variants pd) w1) as [[u|e] w2];
    cbn [fst snd] in *;
    destruct (forallb (fits_variant columns) (pd_variants pd));
    try discriminate; try (destruct Hr; discriminate);
    subst w1; cbn [db queue sent] in *.
  - rewrite Hd. auto.
  - eauto 6.
Qed.

Lemma process_products_acts columns remote now store all_products :
  acts (process_products columns remote now store all_products)
       (catalog_fits columns all_products)
       (step4 columns remote now store all_products)
       (finds_made columns all_products).
Proof.
  intros w.
  unfold process_products, step4, catalog_fits, finds_made, touch_products.
  cbv beta iota delta [bind ret raise get_db put_db].
  destruct (@for_each_acts
              _ (sync_product_data columns remote now store)
              (product_fits columns)
              (product_part columns remote now store)
              (product_calls columns) all_products
              (sync_product_data_acts columns remote now store) w)
    as (Hr & Hd & Hq & Hs).
  destruct (for_each _ all_products w) as [[u|e] w2];
    cbn [fst snd] in *;
    destruct (forallb (product_fits columns) all_products);
    try discriminate; try (destruct Hr; discriminate);
    cbn [db queue sent] in *.
  - rewrite Hd. auto.
  - eauto 6.
Qed.

(** When everything fits, the remote is asked for the levels of each
    variant once. *)
Lemma finds_made_all columns all_products :
  catalog_fits columns all_products = true ->
  finds_made columns all_products = count_variants all_products.
Proof.
  unfold catalog_fits, finds_made, count_variants. intros Hfits.
  rewrite calls_all by exact Hfits.
  induction all_products as [|pd ps IH]; cbn [fold_right]; [reflexivity |].
  cbn [forallb] in Hfits. apply andb_true_iff in Hfits.
  destruct Hfits as [Hpd Hps]. rewrite (IH Hps). f_equal.
  unfold product_fits in Hpd. apply andb_true_iff in Hpd.
  destruct Hpd as [Hp Hv]. unfold product_calls. rewrite Hp.
  rewrite calls_all by exact Hv.
  clear - Hv. induction (pd_variants pd) as [|vd vds IH];
    cbn [fold_right List.length forallb] in *; [reflexivity |].
  apply andb_true_iff in Hv. destruct Hv as [Hvd Hvds].
  rewrite (IH Hvds). unfold variant_calls. now rewrite Hvd.
Qed.

(** ** Two runs of step 4 *)

Lemma DR_start d0 b fin :
  db_pre d0 fin ->
  products b = products fin -> variants b = variants fin ->
  locations b = locations fin -> levels b = levels fin ->
  DR d0 b fin.
Proof.
  unfold DR. intros (Hp & Hv & Hl & Hi) -> -> -> ->. repeat split.
  - apply Lockstep.R_start with (key := key_p); auto; solve_rows.
  - apply Lockstep.R_start with (key := key_v); auto; solve_rows.
  - apply Lockstep.R_start with (key := key_l); auto; solve_rows.
  - apply Lockstep.R_start with (key := key_i); auto; solve_rows.
Qed.

Lemma Forall2_eq A (b fin : list A) : Forall2 eq b fin -> b = fin.
Proof. induction 1; congruence. Qed.

Lemma DR_end b fin :
  DR fin b fin ->
  map erase_p (products b) = map erase_p (products fin)
  /\ map erase_v (variants b) = map erase_v (variants fin)
  /\ locations b = locations fin
  /\ map erase_i (levels b) = map erase_i (levels fin).
Proof.
  intros (Hp & Hv & Hl & Hi). repeat split.
  - apply Forall2_map_eq with (same := same_p); [apply same_p_erase |].
    apply Lockstep.R_end with (rel3 := rel3_p); [solve_rows | exact Hp].
  - apply Forall2_map_eq with (same := same_v); [apply same_v_erase |].
    apply Lockstep.R_end with (rel3 := rel3_v); [solve_rows | exact Hv].
  - apply Forall2_eq.
    apply Lockstep.R_end with (rel3 := rel3_l); [solve_rows | exact Hl].
  - apply Forall2_map_eq with (same := same_i); [apply same_i_erase |].
    apply Lockstep.R_end with (rel3 := rel3_i); [solve_rows | exact Hi].
Qed.

(** Step 4 run again, at another time, on a database whose mirror tables
    are those the first run left: the rows are the same up to the
    timestamps.  This holds as well when both runs are cut short by a
    value that does not fit: they are cut short at the same call. *)
Lemma step4_again columns remote now1 now2 store all_products d0 b :
  let d1 := step4 columns remote now1 store all_products d0 in
  products b = products d1 -> variants b = variants d1 ->
  locations b = locations d1 -> levels b = levels d1 ->
  let d2 := step4 columns remote now2 store all_products b in
  map erase_p (products d2) = map erase_p (products d1)
  /\ map erase_v (variants d2) = map erase_v (variants d1)
  /\ locations d2 = locations d1
  /\ map erase_i (levels d2) = map erase_i (levels d1).
Proof.
  intros d1 Hp Hv Hl Hi d2.
  destruct (step4_lockstep columns remote now1 now2 store all_products)
    as (Hmono & Hstep & _).
  apply DR_end. apply Hstep; [| apply db_pre_refl].
  apply DR_start; auto.
Qed.

(** ** The task, twice *)

Lemma fetch_pages_pure pages :
  exists r n, forall w,
    fetch_pages pages w
    = (r, {| db := db w; queue := queue w; sent := (sent w + n)%nat |}).
Proof.
  induction pages as [|[page|] pages (r & n & IH)].
  - exists (Ok []), O. intros w. cbn [fetch_pages]. unfold ret.
    rewrite Nat.add_0_r. destruct w; reflexivity.
  - destruct r as [more|e].
    + exists (Ok (page ++ more)), (S n). intros w.
      cbn [fetch_pages]. unfold tick. run_task. rewrite IH. run_task.
      do 2 f_equal. lia.
    + exists (Raise e), (S n). intros w.
      cbn [fetch_pages]. unfold tick. run_task. rewrite IH. run_task.
      do 2 f_equal. lia.
  - exists (Raise (RequestException "Product.find")), 1%nat. intros w.
    cbn [fetch_pages]. unfold tick. run_task. reflexivity.
Qed.

Lemma mark_failed_twice id d :
  mark (with_sync_status "failed") id (mark (with_sync_status "failed") id d)
  = mark (with_sync_status "failed") id d.
Proof.
  unfold mark, set_stores. cbn [stores products variants locations levels logs
                                rules applications].
  f_equal. unfold Orm.update_where. rewrite map_map. apply map_ext.
  intros s. destruct (store_id s =? id) eqn:Hs.
  - cbn [with_sync_status store_id]. now rewrite Hs.
  - now rewrite Hs.
Qed.

(** Step 4 inside its [try], followed by step 5. *)
Lemma step4_and_5 columns remote now id store all_products w :
  let run :=
    bind (try_except
            (process_products columns remote now store all_products)
            (fun e =>
               bind (update_store id (with_sync_status "failed"))
                    (fun _ => raise (Retry (str_exn e)))))
         (fun _ =>
            bind (update_store id (with_sync_success now))
                 (fun _ => ret (Success None))) in
  let d4 := step4 columns remote now store all_products (db w) in
  queue (snd (run w)) = queue w
  /\ sent (snd (run w)) = (sent w + finds_made columns all_products)%nat
  /\ if catalog_fits columns all_products
     then fst (run w) = Ok (Success None)
          /\ db (snd (run w)) = mark (with_sync_success now) id d4
     else (exists e, fst (run w) = Raise e)
          /\ db (snd (run w)) = mark (with_sync_status "failed") id d4.
Proof.
  cbv zeta.
  destruct (process_products_acts columns remote now store all_products w)
    as (Hr & Hd & Hq & Hs).
  unfold bind, try_except, update_store.
  destruct (process_products columns remote now store all_products w)
    as [[u|e] w4]; cbn [fst snd] in *;
    destruct (catalog_fits columns all_products);
    try discriminate; try (destruct Hr; discriminate);
    run_task; rewrite Hd, Hq, Hs; eauto 6.
Qed.

(** The database a run leaves, as a function of the database it found:
    the same for every clock reading but for the stamps. *)
Lemma sync_store_data_db columns remote :
  exists outcome : option (list ProductData),
  forall now id w,
    db (snd (sync_store_data columns remote now id w))
    = match find_store id (db w) with
      | None => db w
      | Some store =>
          if truthy (access_token store) then
            match outcome with
            | Some all_products =>
                mark (if catalog_fits columns all_products
                      then with_sync_success now
                      else with_sync_status "failed") id
                     (step4 columns remote now (store_id store)
                            all_products (db w))
            | None => mark (with_sync_status "failed") id (db w)
            end
          else mark (with_sync_status "failed") id (db w)
      end.
Proof.
  destruct (fetch_pages_pure (match catalog remote with
                              | [] => [Some []]
                              | pages => pages
                              end)) as (r & n & Hfetch).
  exists (if session_ok remote
          then match r with Ok ps => Some ps | Raise _ => None end
          else None).
  intros now id w.
  unfold sync_store_data, sync_store_data_body.
  unfold try_except at 1. unfold bind at 1. unfold get_db at 1.
  destruct (find_store id (db w)) as [store|]; [| reflexivity].
  destruct (truthy (access_token store)); cbn [negb];
    [| unfold update_store; run_task; reflexivity].
  destruct (session_ok remote);
    [| unfold update_store; run_task; apply mark_failed_twice].
  unfold bind at 1. unfold ret at 1.
  unfold bind at 1. unfold try_except at 1. rewrite Hfetch.
  destruct r as [ps|e];
    [| unfold update_store; run_task; apply mark_failed_twice].
  set (w3 := {| db := db w; queue := queue w; sent := (sent w + n)%nat |}).
  destruct (@step4_and_5 columns remote now id (store_id store) ps w3)
    as (_ & _ & Hrun).
  cbv zeta in Hrun.
  match goal with
  | |- context [match ?run w3 with _ => _ end] =>
      destruct (run w3) as [[res|e] w5] eqn:Hw5
  end;
    cbn [fst snd] in *; destruct (catalog_fits columns ps);
    destruct Hrun as [Hres Hdb]; try discriminate;
    try (destruct Hres; discriminate).
  - exact Hdb.
  - unfold update_store. run_task. rewrite Hdb. apply mark_failed_twice.
Qed.

Lemma find_store_mark f id d :
  (forall s, store_id (f s) = store_id s) ->
  find_store id (mark f id d) = option_map f (find_store id d).
Proof.
  intros Hf. unfold find_store, mark, set_stores. cbn [stores].
  now apply SyncGuardFacts.find_store_update.
Qed.

Lemma step4_frame columns remote now store all_products :
  frame (step4 columns remote now store all_products).
Proof.
  destruct (step4_lockstep columns remote now now store all_products)
    as (_ & _ & Hframe & _).
  exact Hframe.
Qed.

Lemma step4_stores columns remote now store all_products d :
  stores (step4 columns remote now store all_products d) = stores d.
Proof. apply step4_frame. Qed.

(** C6. Two runs of [sync_store_data] in a row against the same remote
    shop, whatever the clock readings, whatever the database the first
    run starts from and whatever values its columns take: the second
    run adds no row to the product, variant, location or level table,
    and every row of these tables is after the second run what it was
    after the first, the stamps [last_synced] and [updated_at] set aside
    (locations are not written at all).  This covers the runs that stop
    early (store missing, no token, no session, failed fetch), which
    leave the four tables alone, and the runs that step 4 ends with an
    exception, which the second run repeats call by call. *)
Theorem sync_store_data_twice columns remote now1 now2 id w0 :
  let w1 := snd (sync_store_data columns remote now1 id w0) in
  let w2 := snd (sync_store_data columns remote now2 id w1) in
  (List.length (products (db w2)) = List.length (products (db w1))
   /\ List.length (variants (db w2)) = List.length (variants (db w1))
   /\ List.length (locations (db w2)) = List.length (locations (db w1))
   /\ List.length (levels (db w2)) = List.length (levels (db w1)))
  /\ map erase_p (products (db w2)) = map erase_p (products (db w1))
  /\ map erase_v (variants (db w2)) = map erase_v (variants (db w1))
  /\ locations (db w2) = locations (db w1)
  /\ map erase_i (levels (db w2)) = map erase_i (levels (db w1)).
Proof.
  intros w1 w2.
  assert (H : map erase_p (products (db w2)) = map erase_p (products (db w1))
              /\ map erase_v (variants (db w2)) = map erase_v (variants (db w1))
              /\ locations (db w2) = locations (db w1)
              /\ map erase_i (levels (db w2)) = map erase_i (levels (db w1))).
  { destruct (sync_store_data_db columns remote) as (outcome & Hdb).
    pose proof (Hdb now1 id w0) as H1. fold w1 in H1.
    pose proof (Hdb now2 id w1) as H2. fold w2 in H2.
    destruct (find_store id (db w0)) as [store|] eqn:Hfind.
    - assert (Hfailed :
          truthy (access_token store) = false \/ outcome = None ->
          db w1 = mark (with_sync_status "failed") id (db w0) ->
          db w2 = mark (with_sync_status "failed") id (db w1)).
      { intros Hwhy Hw1. rewrite Hw1 in H2 |- *.
        rewrite find_store_mark, Hfind in H2 by reflexivity.
        cbn [option_map with_sync_status access_token] in H2.
        destruct Hwhy as [Hwhy|Hwhy]; rewrite Hwhy in H2.
        + exact H2.
        + destruct (truthy (access_token store)); exact H2. }
      destruct (truthy (access_token store)) eqn:Htoken.
      + destruct outcome as [all_products|].
        * rewrite H1 in H2.
          rewrite find_store_mark in H2
            by (intros s; destruct (catalog_fits columns all_products);
                reflexivity).
          unfold find_store in H2 at 1.
          rewrite step4_stores in H2.
          fold (find_store id (db w0)) in H2. rewrite Hfind in H2.
          assert (Hsame :
                    forall f : ShopifyStore -> ShopifyStore,
                      f = with_sync_success now1
                      \/ f = with_sync_status "failed" ->
                      truthy (access_token (f store)) = true
                      /\ store_id (f store) = store_id store).
          { intros f [->| ->]; cbn [with_sync_success with_sync_status
                                    access_token store_id]; auto. }
          cbn [option_map] in H2.
          destruct (Hsame (if catalog_fits columns all_products
                           then with_sync_success now1
                           else with_sync_status "failed"))
            as [Htoken1 Hid1].
          { destruct (catalog_fits columns all_products); auto. }
          rewrite Htoken1, Hid1 in H2.
          rewrite H2, H1.
          unfold mark. cbn [products variants locations levels set_stores].
          apply step4_again; reflexivity.
        * rewrite (Hfailed (or_intror eq_refl) H1), H1. repeat split.
      + rewrite (Hfailed (or_introl eq_refl) H1), H1. repeat split.
    - rewrite H1 in H2. rewrite Hfind in H2. rewrite H2, H1. repeat split. }
  split; [| exact H].
  destruct H as (Hp & Hv & Hl & Hi).
  repeat split.
  - apply (f_equal (@List.length _)) in Hp. now rewrite !length_map in Hp.
  - apply (f_equal (@List.length _)) in Hv. now rewrite !length_map in Hv.
  - now rewrite Hl.
  - apply (f_equal (@List.length _)) in Hi. now rewrite !length_map in Hi.
Qed.

End MirrorFacts.


(* ===================================================================== *)
(** * The REST client under rate limiting *)
(* ===================================================================== *)

Module RetryFacts.
Import Client ClientDefs.

Lemma request_step_429 depth net sent method :
  supported_method method = true ->
  rate_limited (net sent) ->
  _request (S depth) net sent method = _request depth net (S sent) method.
Proof.
  intros Hm (ra & json & Hnet & Hra). cbn [_request]. rewrite Hm, Hnet.
  cbn [negb]. rewrite Z.eqb_refl.
  destruct Hra as [->|(n & -> & Hn)]; [reflexivity |].
  destruct (Z.ltb_spec n 0); [lia | reflexivity].
Qed.

Lemma request_skips_rate_limits k : forall depth net sent method,
  supported_method method = true ->
  (forall i, (i < k)%nat -> rate_limited (net (sent + i)%nat)) ->
  _request (k + depth) net sent method
  = _request depth net (sent + k)%nat method.
Proof.
  induction k as [|k IH]; intros depth net sent method Hm Hk.
  - now rewrite Nat.add_0_r.
  - cbn [Nat.add]. rewrite request_step_429; [| exact Hm |].
    + rewrite IH; [f_equal; lia | exact Hm |].
      intros i Hi. replace (S sent + i)%nat with (sent + S i)%nat by lia.
      apply Hk. lia.
    + rewrite <- (Nat.add_0_r sent). apply Hk. lia.
Qed.

Lemma request_supported_never_complains depth :
  forall net sent method method',
    supported_method method = true ->
    fst (_request depth net sent method)
    <> Raise (ValueError ("Unsupported HTTP method: " ++ method')).
Proof.
  induction depth as [|depth IH]; intros net sent method method' Hm;
    cbn [_request]; [discriminate |].
  rewrite Hm. cbn [negb].
  destruct (net sent) as [what | status ra json]; [discriminate |].
  destruct (status =? 429).
  - destruct ra as [[n|]|]; try (now apply IH); try discriminate.
    destruct (n <? 0); [discriminate | now apply IH].
  - destruct (raise_for_status status); discriminate.
Qed.

(** X1. A method other than GET, POST, PUT and DELETE makes [_request]
    raise [ValueError("Unsupported HTTP method: <method>")] before
    anything is sent: the [except] clause, which is for
    [RequestException], does not turn it into [None].  No REST wrapper
    can run into it, whatever the remote answers: none of them raises
    that error, for any method in the message. *)
Theorem request_unsupported_method_raises depth net sent method :
  supported_method method = false ->
  _request (S depth) net sent method
  = (Raise (ValueError ("Unsupported HTTP method: " ++ method)), sent)
  /\ Forall (fun wrapper =>
               forall depth' net' sent' method',
                 fst (wrapper depth' net' sent')
                 <> Raise (ValueError
                             ("Unsupported HTTP method: " ++ method')))
            rest_wrappers.
Proof.
  intros Hm. split.
  - cbn [_request]. now rewrite Hm.
  - unfold rest_wrappers.
    repeat (apply Forall_cons;
            [ intros depth' net' sent' method';
              now apply request_supported_never_complains |]).
    apply Forall_nil.
Qed.

Lemma request_unsupported_method_raises_witness :
  _request 1000 busy_then_ok 0 "PATCH"
  = (Raise (ValueError "Unsupported HTTP method: PATCH"), 0%nat).
Proof.
  exact (proj1 (@request_unsupported_method_raises
                  999 busy_then_ok 0%nat "PATCH" eq_refl)).
Defined.

(** X2. When the remote answers 429 to the first [k] requests, each
    time with a [Retry-After] that is absent or a non-negative integer,
    and then gives a response whose status is neither 429 nor 4xx/5xx,
    [_request] returns the decoded body of that response, having sent
    [k + 1] requests. *)
Theorem request_retries_until_answer
        k depth net sent method status retry_after body :
  supported_method method = true ->
  (forall i, (i < k)%nat -> rate_limited (net (sent + i)%nat)) ->
  net (sent + k)%nat = Response status retry_after body ->
  status <> 429 ->
  raise_for_status status = false ->
  _request (k + S depth) net sent method = (Ok body, S (sent + k)).
Proof.
  intros Hm Hk Hnet Hs Hok.
  rewrite request_skips_rate_limits by assumption.
  cbn [_request]. rewrite Hm, Hnet. cbn [negb].
  destruct (Z.eqb_spec status 429); [contradiction |].
  now rewrite Hok.
Qed.

Lemma busy_twice i :
  (i < 2)%nat -> rate_limited (busy_then_ok (0 + i)%nat).
Proof.
  intros Hi. destruct i as [|[|i]]; [| | lia].
  - exists None, None. split; [reflexivity | now left].
  - exists (Some (Some 1)), None. split; [reflexivity |].
    right. exists 1. split; [reflexivity | lia].
Qed.

Lemma request_retries_until_answer_witness :
  get_product 10 busy_then_ok 0 1001
  = (Ok (Some (JObj [("product", JObj [])])), 3%nat).
Proof.
  apply (@request_retries_until_answer
           2 7 busy_then_ok 0%nat "GET" 200 None
           (Some (JObj [("product", JObj [])])) eq_refl busy_twice eq_refl).
  - discriminate.
  - reflexivity.
Defined.

(** X3. Against a remote that answers every request with a 429 it can
    wait on, [_request] never returns [None]: it calls itself until the
    interpreter allows no further nested call and raises
    [RecursionError], each call before that having sent one request. *)
Theorem request_rate_limited_for_ever depth net sent method :
  supported_method method = true ->
  (forall i, rate_limited (net i)) ->
  _request depth net sent method
  = (Raise RecursionError, (sent + depth)%nat).
Proof.
  intros Hm Hall.
  rewrite <- (Nat.add_0_r depth) at 1.
  rewrite request_skips_rate_limits; [reflexivity | exact Hm |].
  intros i _. apply Hall.
Qed.

Lemma request_rate_limited_for_ever_witness :
  delete_webhook 1000 (fun _ => Response 429 (Some (Some 2)) None) 0 5
  = (Raise RecursionError, 1000%nat).
Proof.
  apply (@request_rate_limited_for_ever
           1000 (fun _ => Response 429 (Some (Some 2)) None) 0%nat "DELETE"
           eq_refl).
  intros i. exists (Some (Some 2)), None. split; [reflexivity |].
  right. exists 2. split; [reflexivity | lia].
Defined.

(** X4. Whenever [_request] returns (rather than raises), the method
    was one of the four, every request but the last was answered 429,
    and the value returned is [None] if the last request raised in
    [requests] or came back 4xx/5xx, the decoded body of the last
    response otherwise: data never comes from an error response. *)
Theorem request_answer_sound depth : forall net sent method r n,
  _request depth net sent method = (Ok r, n) ->
  supported_method method = true /\ answered net sent r n.
Proof.
  induction depth as [|depth IH]; intros net sent method r n H;
    cbn [_request] in H; [discriminate |].
  destruct (supported_method method) eqn:Hm; cbn [negb] in H;
    [| discriminate].
  split; [reflexivity |].
  destruct (net sent) as [what | status ra json] eqn:Hnet.
  - inversion H; subst. exists 0%nat. rewrite Nat.add_0_r, Hnet.
    repeat split. intros i Hi. lia.
  - destruct (Z.eqb_spec status 429) as [->|Hne].
    + assert (Hrec : _request depth net (S sent) method = (Ok r, n)
                     /\ sleepable ra).
      { destruct ra as [[m|]|]; try discriminate.
        - destruct (Z.ltb_spec m 0); [discriminate |].
          split; [exact H | right; eauto].
        - split; [exact H | now left]. }
      destruct Hrec as [Hrec Hra].
      apply IH in Hrec. destruct Hrec as [_ (k & Hn & Hk & Hlast)].
      exists (S k). split; [lia |]. split.
      * intros i Hi. destruct i as [|i].
        -- rewrite Nat.add_0_r, Hnet. exists ra, json. auto.
        -- replace (sent + S i)%nat with (S sent + i)%nat by lia.
           apply Hk. lia.
      * replace (sent + S k)%nat with (S sent + k)%nat by lia. exact Hlast.
    + exists 0%nat. rewrite Nat.add_0_r, Hnet.
      split; [| split; [intros i Hi; lia |]].
      * destruct (raise_for_status status); inversion H; lia.
      * split; [exact Hne |].
        destruct (raise_for_status status); inversion H; reflexivity.
Qed.

Lemma request_answer_sound_witness :
  supported_method "GET" = true
  /\ answered busy_then_ok 0 (Some (JObj [("product", JObj [])])) 3.
Proof.
  apply (@request_answer_sound 10 busy_then_ok 0%nat "GET").
  reflexivity.
Defined.

(** X5. [graphql] sends exactly one request and has no rate-limit
    branch: on a 429 it returns [None] at once, where [_request] would
    wait and retry; on every other outcome the two return the same
    value. *)
Theorem graphql_does_not_retry net sent :
  snd (graphql net sent) = S sent
  /\ (forall retry_after json,
         net sent = Response 429 retry_after json ->
         graphql net sent = (Ok None, S sent))
  /\ (forall depth method,
         supported_method method = true ->
         (forall retry_after json,
             net sent <> Response 429 retry_after json) ->
         graphql net sent = _request (S depth) net sent method).
Proof.
  unfold graphql. split; [| split].
  - destruct (net sent) as [what | status ra json]; [reflexivity |].
    now destruct (raise_for_status status).
  - intros ra json ->. reflexivity.
  - intros depth method Hm Hne. cbn [_request]. rewrite Hm. cbn [negb].
    destruct (net sent) as [what | status ra json]; [reflexivity |].
    destruct (Z.eqb_spec status 429) as [->|_]; [| reflexivity].
    now destruct (Hne ra json).
Qed.

Lemma graphql_does_not_retry_witness :
  graphql busy_then_ok 0 = (Ok None, 1%nat)
  /\ graphql busy_then_ok 2 = _request 5 busy_then_ok 2 "POST".
Proof.
  split.
  - exact (proj1 (proj2 (graphql_does_not_retry busy_then_ok 0%nat))
                 None None eq_refl).
  - apply (proj2 (proj2 (graphql_does_not_retry busy_then_ok 2%nat))
                 4%nat "POST" eq_refl).
    intros ra json. discriminate.
Defined.

End RetryFacts.


(* ===================================================================== *)
(** * The rule tasks of tasks.py *)
(* ===================================================================== *)

Module LegacyFacts.
Import LegacyTasks LegacySpec RuleModels.

Lemma find_product_write id d p p' :
  find_product id d = Some p ->
  product_id p' = id ->
  find_product id (write_product p' d) = Some p'.
Proof.
  unfold find_product, write_product. cbn [products set_products].
  intros Hfind Hid. subst id.
  induction (products d) as [|b ps IH];
    cbn [find map] in *; [discriminate |].
  destruct (Z.eqb_spec (product_id b) (product_id p')) as [Hb|Hb].
  - cbn [find]. now rewrite Z.eqb_refl.
  - cbn [find]. destruct (Z.eqb_spec (product_id b) (product_id p'));
      [contradiction |].
    apply IH. exact Hfind.
Qed.

Lemma find_product_id id d p :
  find_product id d = Some p -> product_id p = id.
Proof.
  unfold find_product. intros H. apply find_some in H.
  now apply Z.eqb_eq.
Qed.

Lemma update_product_ok depth net sent shopify_id data :
  updated (net sent) ->
  exists j, Client.update_product (S depth) net sent shopify_id data
            = (Ok (Some j), S sent)
            /\ has_product (Some j) = Ok true.
Proof.
  intros (status & ra & j & Hnet & Hne & Hok & Hj).
  exists j. split; [| exact Hj].
  unfold Client.update_product. cbn [Client._request Client.supported_method].
  cbn [String.eqb Ascii.eqb Bool.eqb orb negb]. rewrite Hnet.
  destruct (Z.eqb_spec status 429); [contradiction |]. now rewrite Hok.
Qed.

Lemma legacy_apply_hide_ok faults depth net now id w a r p s :
  find_application id (db w) = Some a ->
  find_rule (app_rule a) (db w) = Some r ->
  find_product (app_product a) (db w) = Some p ->
  find_store (rule_store r) (db w) = Some s ->
  app_status a = "pending" ->
  not_yet_due now a = false ->
  action_type r = "hide_product" ->
  updated (net (sent w)) ->
  faults OpSaveProduct = None -> faults OpCreateLog = None ->
  faults OpSaveApplication = None -> faults OpEnqueueNotification = None ->
  apply_rule faults (S depth) net now id w
  = (Ok (Success (Some "hide_product")),
     {| db := write_application
                (mark "applied" (Some now) (app_notes a) a)
                (insert_log
                   (status_log now s (set_status "draft" false (Some now) now p)
                      "hide" (status p) "draft"
                      ("Hidden by rule: " ++ rule_name r))
                   (write_product (set_status "draft" false (Some now) now p)
                                  (db w)));
        queue := queue w ++ [SendRuleAppliedNotification
                               [store_id s; rule_id r; product_id p]];
        sent := S (sent w) |}).
Proof.
  intros Ha Hr Hp Hst Hs Hdue Hact Hnet F1 F2 F3 F4.
  pose proof (@ApplyFacts.get_application_found id w a r p Ha Hr Hp) as Hget.
  destruct (@update_product_ok depth net (sent w) (product_shopify_id p)
              (status_patch (product_shopify_id p) "draft") Hnet)
    as (j & Hreq & Hj).
  unfold apply_rule, apply_rule_body, get_application, get_store,
    save_application, save_product, create_log,
    RuleTasks.save_application, RuleTasks.save_product, RuleTasks.create_log.
  run_task. rewrite Hget. run_task.
  rewrite Hs. cbn [String.eqb Ascii.eqb Bool.eqb negb]. rewrite Hdue.
  rewrite Hst. run_task. rewrite Hact.
  cbn [String.eqb Ascii.eqb Bool.eqb].
  rewrite Hreq. run_task. rewrite Hj. run_task.
  rewrite F1. run_task. rewrite F2. run_task. rewrite F3. run_task.
  rewrite F4. run_task. reflexivity.
Qed.


Lemma legacy_restore_ok faults depth net now id w a r p s :
  find_application id (db w) = Some a ->
  find_rule (app_rule a) (db w) = Some r ->
  find_product (app_product a) (db w) = Some p ->
  find_store (rule_store r) (db w) = Some s ->
  app_status a = "applied" ->
  action_type r = "hide_product" ->
  updated (net (sent w)) ->
  faults OpSaveProduct = None -> faults OpCreateLog = None ->
  faults OpSaveApplication = None ->
  restore_product faults (S depth) net now id w
  = (Ok (Success (Some "show_product")),
     {| db := write_application
                (mark "reversed" (applied_at a) (app_notes a) a)
                (insert_log
                   (status_log now s
                      (set_status "active" true (hidden_at p) now p)
                      "show" (status p) "active"
                      ("Restored by rule: " ++ rule_name r))
                   (write_product
                      (set_status "active" true (hidden_at p) now p)
                      (db w)));
        queue := queue w; sent := S (sent w) |}).
Proof.
  intros Ha Hr Hp Hst Hs Hact Hnet F1 F2 F3.
  pose proof (@ApplyFacts.get_application_found id w a r p Ha Hr Hp) as Hget.
  destruct (@update_product_ok depth net (sent w) (product_shopify_id p)
              (status_patch (product_shopify_id p) "active") Hnet)
    as (j & Hreq & Hj).
  unfold restore_product, restore_product_body, get_application, get_store,
    save_application, save_product, create_log,
    RuleTasks.save_application, RuleTasks.save_product, RuleTasks.create_log.
  run_task. rewrite Hget. run_task.
  rewrite Hs. cbn [String.eqb Ascii.eqb Bool.eqb negb].
  rewrite Hst. run_task. rewrite Hact.
  cbn [String.eqb Ascii.eqb Bool.eqb].
  rewrite Hreq. run_task. rewrite Hj. run_task.
  rewrite F1. run_task. rewrite F2. run_task. rewrite F3. run_task.
  reflexivity.
Qed.

Lemma legacy_restore_remote_failure faults depth net now id w a r p s :
  find_application id (db w) = Some a ->
  find_rule (app_rule a) (db w) = Some r ->
  find_product (app_product a) (db w) = Some p ->
  find_store (rule_store r) (db w) = Some s ->
  app_status a = "applied" ->
  action_type r = "hide_product" ->
  Client.remote_failure (net (sent w)) ->
  restore_product faults (S depth) net now id w
  = (Ok (Error "Failed to update product in Shopify"),
     {| db := db w; queue := queue w; sent := S (sent w) |}).
Proof.
  intros Ha Hr Hp Hst Hs Hact Hfail.
  pose proof (@ApplyFacts.get_application_found id w a r p Ha Hr Hp) as Hget.
  unfold restore_product, restore_product_body, get_application, get_store,
    Client.update_product.
  run_task. rewrite Hget. run_task.
  rewrite Hs. cbn [String.eqb Ascii.eqb Bool.eqb negb].
  rewrite Hst. run_task. rewrite Hact.
  cbn [String.eqb Ascii.eqb Bool.eqb].
  rewrite (ClientFacts.request_on_remote_failure depth net (sent w) "PUT"
             eq_refl Hfail).
  run_task. cbn [has_product]. run_task. reflexivity.
Qed.

Lemma legacy_apply_due_result faults depth net now id w a r p res w' :
  find_application id (db w) = Some a ->
  find_rule (app_rule a) (db w) = Some r ->
  find_product (app_product a) (db w) = Some p ->
  app_status a = "pending" ->
  not_yet_due now a = false ->
  apply_rule faults depth net now id w = (Ok res, w') ->
  result_status res = "success" \/ result_status res = "error".
Proof.
  intros Ha Hr Hp Hs Hdue.
  pose proof (@ApplyFacts.get_application_found id w a r p Ha Hr Hp) as Hget.
  unfold apply_rule, try_except.
  destruct (apply_rule_body faults depth net now id w) as [[res1|e] w1] eqn:Hb.
  - intros H. inversion H; subst. clear H. revert Hb.
    unfold apply_rule_body, get_application, get_store,
      save_application, save_product, create_log,
      RuleTasks.save_application, RuleTasks.save_product,
      RuleTasks.create_log.
    run_task. rewrite Hget. run_task.
    rewrite Hs. cbn [String.eqb Ascii.eqb Bool.eqb negb]. rewrite Hdue.
    intros H.
    repeat (ApplyFacts.break_match; run_task; try discriminate);
      inversion H; subst; simpl; auto.
  - destruct (ApplyFacts.error_handler_returns (not_found id) e w1)
      as [m Hm].
    rewrite Hm. intros H. inversion H; subst. now right.
Qed.


(** X7. [apply_rule] of tasks.py defers exactly the applications that
    the model class calls scheduled: when [is_scheduled] holds the task
    returns [deferred] with the planned time and changes nothing; when
    it does not hold, no run of the task ends in [deferred]. *)
Theorem apply_rule_defers_iff_scheduled faults depth net now id w a r p :
  find_application id (db w) = Some a ->
  find_rule (app_rule a) (db w) = Some r ->
  find_product (app_product a) (db w) = Some p ->
  (is_scheduled now a = true ->
   exists t, scheduled_for a = Some t /\ now < t
             /\ apply_rule faults depth net now id w = (Ok (Deferred t), w))
  /\ (is_scheduled now a = false ->
      forall res w',
        apply_rule faults depth net now id w = (Ok res, w') ->
        result_status res <> "deferred").
Proof.
  intros Ha Hr Hp.
  pose proof (@ApplyFacts.get_application_found id w a r p Ha Hr Hp) as Hget.
  unfold is_scheduled. split.
  - intros H. apply andb_true_iff in H. destruct H as [Hs Hlt].
    destruct (scheduled_for a) as [t|] eqn:Ht; [| discriminate].
    exists t. split; [reflexivity |]. split; [now apply Z.ltb_lt |].
    unfold apply_rule, apply_rule_body, get_application.
    run_task. rewrite Hget. run_task. rewrite Hs. cbn [negb].
    unfold not_yet_due. rewrite Ht, Hlt. reflexivity.
  - intros H res w' Hrun.
    destruct (app_status a =? "pending")%string eqn:Hs.
    + cbn [andb] in H. apply String.eqb_eq in Hs.
      destruct (@legacy_apply_due_result faults depth net now id w a r p
                  res w' Ha Hr Hp Hs H Hrun) as [-> | ->]; discriminate.
    + revert Hrun. unfold apply_rule, apply_rule_body, get_application.
      run_task. rewrite Hget. run_task. rewrite Hs. cbn [negb].
      intros Hrun. inversion Hrun; subst. discriminate.
Qed.


Lemma apply_rule_defers_iff_scheduled_witness :
  (exists t, scheduled_for Fixtures.application_at_500 = Some t /\ 400 < t
             /\ apply_rule no_faults 1000 Samples.unavailable 400 1
                           Fixtures.world_scheduled
                = (Ok (Deferred t), Fixtures.world_scheduled))
  /\ (forall res w',
         apply_rule no_faults 1000 Samples.unavailable 500 1
                    Fixtures.world_scheduled = (Ok res, w') ->
         result_status res <> "deferred").
Proof.
  split.
  - apply (proj1 (@apply_rule_defers_iff_scheduled
                    no_faults 1000%nat Samples.unavailable 400 1
                    Fixtures.world_scheduled Fixtures.application_at_500
                    Samples.rule0 Samples.product0
                    eq_refl eq_refl eq_refl)).
    reflexivity.
  - apply (proj2 (@apply_rule_defers_iff_scheduled
                    no_faults 1000%nat Samples.unavailable 500 1
                    Fixtures.world_scheduled Fixtures.application_at_500
                    Samples.rule0 Samples.product0
                    eq_refl eq_refl eq_refl)).
    reflexivity.
Defined.

(** X8. [apply_rule] of tasks.py on a due pending application of a
    hide rule, the remote update accepted: one request is sent, the
    product row becomes a hidden draft stamped [hidden_at = now], the
    audit log gains one [hide] row that keeps the status the product
    had, the application is [applied] with [applied_at = now], and one
    notification is queued with the ids of store, rule and product. *)
Theorem legacy_apply_rule_hides faults depth net now id w a r p s :
  find_application id (db w) = Some a ->
  find_rule (app_rule a) (db w) = Some r ->
  find_product (app_product a) (db w) = Some p ->
  find_store (rule_store r) (db w) = Some s ->
  app_status a = "pending" ->
  not_yet_due now a = false ->
  action_type r = "hide_product" ->
  updated (net (sent w)) ->
  faults OpSaveProduct = None -> faults OpCreateLog = None ->
  faults OpSaveApplication = None -> faults OpEnqueueNotification = None ->
  exists w' p' a' l,
    apply_rule faults (S depth) net now id w
    = (Ok (Success (Some "hide_product")), w')
    /\ find_product (app_product a) (db w') = Some p'
    /\ status p' = "draft"
    /\ ApplySpec.visibility p' = (false, Some now, scheduled_return p)
    /\ find_application id (db w') = Some a'
    /\ app_status a' = "applied" /\ applied_at a' = Some now
    /\ logs (db w') = logs (db w) ++ [l]
    /\ log_action l = "hide"
    /\ previous_status l = Some (status p) /\ new_status l = Some "draft"
    /\ queue w' = queue w ++ [SendRuleAppliedNotification
                                [store_id s; rule_id r; product_id p]]
    /\ sent w' = S (sent w).
Proof.
  intros Ha Hr Hp Hst Hs Hdue Hact Hnet F1 F2 F3 F4.
  pose (p' := set_status "draft" false (Some now) now p).
  pose (a' := mark "applied" (Some now) (app_notes a) a).
  pose (l := status_log now s p' "hide" (status p) "draft"
                        ("Hidden by rule: " ++ rule_name r)).
  exists {| db := write_application a' (insert_log l (write_product p' (db w)));
            queue := queue w ++ [SendRuleAppliedNotification
                                   [store_id s; rule_id r; product_id p]];
            sent := S (sent w) |}, p', a', l.
  split; [now apply legacy_apply_hide_ok |].
  cbn [db queue sent]. split.
  { change (find_product (app_product a) (write_product p' (db w)) = Some p').
    apply find_product_write with (p := p); [exact Hp |].
    exact (@find_product_id _ _ _ Hp). }
  split; [reflexivity |]. split; [reflexivity |]. split.
  { apply ApplyFacts.find_application_write with (a := a); [exact Ha |].
    exact (@ApplyFacts.find_application_id _ _ _ Ha). }
  repeat split.
Qed.


Lemma legacy_apply_rule_hides_witness :
  exists w' p' a' l,
    apply_rule no_faults 1000 Fixtures.accepting 100 1 Samples.world_pending
    = (Ok (Success (Some "hide_product")), w')
    /\ find_product 1 (db w') = Some p'
    /\ status p' = "draft"
    /\ ApplySpec.visibility p' = (false, Some 100, None)
    /\ find_application 1 (db w') = Some a'
    /\ app_status a' = "applied" /\ applied_at a' = Some 100
    /\ logs (db w') = logs (db Samples.world_pending) ++ [l]
    /\ log_action l = "hide"
    /\ previous_status l = Some "active" /\ new_status l = Some "draft"
    /\ queue w' = [SendRuleAppliedNotification [1; 1; 1]]
    /\ sent w' = 1%nat.
Proof.
  apply (@legacy_apply_rule_hides
           no_faults 999%nat Fixtures.accepting 100 1 Samples.world_pending
           (Samples.application0 "pending") Samples.rule0 Samples.product0
           Samples.store0); try reflexivity.
  exists 200, None, (Client.JObj [("product", Client.JObj [])]).
  repeat split. discriminate.
Defined.

Lemma after_apply_frame a' l p' d :
  (forall i, find_rule i (write_application a' (insert_log l
                                                  (write_product p' d)))
             = find_rule i d)
  /\ (forall i, find_store i (write_application a' (insert_log l
                                                      (write_product p' d)))
                = find_store i d)
  /\ (forall i, find_product i (write_application a' (insert_log l
                                                        (write_product p' d)))
                = find_product i (write_product p' d)).
Proof. repeat split. Qed.

(** X9. Hiding and then restoring through tasks.py, both remote
    updates accepted: the application ends [reversed], keeping the
    [applied_at] of the apply run; the product is visible again with
    status [active], whatever its status was before it was hidden, and
    [hidden_at] still holds the time of the apply run (the restore task
    does not clear it); two audit rows and two requests were made. *)
Theorem legacy_hide_then_restore
        depth1 depth2 net now1 now2 id w a r p s :
  find_application id (db w) = Some a ->
  find_rule (app_rule a) (db w) = Some r ->
  find_product (app_product a) (db w) = Some p ->
  find_store (rule_store r) (db w) = Some s ->
  app_status a = "pending" ->
  not_yet_due now1 a = false ->
  action_type r = "hide_product" ->
  updated (net (sent w)) ->
  updated (net (S (sent w))) ->
  exists w1 w2 p2 a2,
    apply_rule no_faults (S depth1) net now1 id w
    = (Ok (Success (Some "hide_product")), w1)
    /\ restore_product no_faults (S depth2) net now2 id w1
       = (Ok (Success (Some "show_product")), w2)
    /\ find_product (app_product a) (db w2) = Some p2
    /\ status p2 = "active"
    /\ ApplySpec.visibility p2 = (true, Some now1, scheduled_return p)
    /\ find_application id (db w2) = Some a2
    /\ app_status a2 = "reversed" /\ applied_at a2 = Some now1
    /\ List.length (logs (db w2)) = (2 + List.length (logs (db w)))%nat
    /\ sent w2 = S (S (sent w)).
Proof.
  intros Ha Hr Hp Hst Hs Hdue Hact Hnet1 Hnet2.
  pose (p1 := set_status "draft" false (Some now1) now1 p).
  pose (a1 := mark "applied" (Some now1) (app_notes a) a).
  pose (l1 := status_log now1 s p1 "hide" (status p) "draft"
                         ("Hidden by rule: " ++ rule_name r)).
  pose (w1 := {| db := write_application a1
                         (insert_log l1 (write_product p1 (db w)));
                 queue := queue w ++ [SendRuleAppliedNotification
                                        [store_id s; rule_id r; product_id p]];
                 sent := S (sent w) |}).
  assert (Hrun1 : apply_rule no_faults (S depth1) net now1 id w
                  = (Ok (Success (Some "hide_product")), w1))
    by (now apply legacy_apply_hide_ok).
  pose proof (@find_product_id _ _ _ Hp) as Hpid.
  pose proof (@ApplyFacts.find_application_id _ _ _ Ha) as Haid.
  destruct (after_apply_frame a1 l1 p1 (db w)) as (Fr & Fs & Fp).
  assert (Ha1 : find_application id (db w1) = Some a1)
    by (apply ApplyFacts.find_application_write with (a := a); assumption).
  assert (Hr1 : find_rule (app_rule a1) (db w1) = Some r)
    by (cbn [w1 db]; rewrite Fr; exact Hr).
  assert (Hp1 : find_product (app_product a1) (db w1) = Some p1).
  { cbn [w1 db]. rewrite Fp.
    apply find_product_write with (p := p); assumption. }
  assert (Hst1 : find_store (rule_store r) (db w1) = Some s)
    by (cbn [w1 db]; rewrite Fs; exact Hst).
  pose (p2 := set_status "active" true (hidden_at p1) now2 p1).
  pose (a2 := mark "reversed" (applied_at a1) (app_notes a1) a1).
  pose (l2 := status_log now2 s p2 "show" (status p1) "active"
                         ("Restored by rule: " ++ rule_name r)).
  pose (w2 := {| db := write_application a2
                         (insert_log l2 (write_product p2 (db w1)));
                 queue := queue w1; sent := S (sent w1) |}).
  assert (Hrun2 : restore_product no_faults (S depth2) net now2 id w1
                  = (Ok (Success (Some "show_product")), w2))
    by (now apply legacy_restore_ok).
  exists w1, w2, p2, a2.
  split; [exact Hrun1 |]. split; [exact Hrun2 |].
  destruct (after_apply_frame a2 l2 p2 (db w1)) as (_ & _ & Fp2).
  split.
  { cbn [w2 db]. rewrite Fp2.
    apply find_product_write with (p := p1); assumption. }
  split; [reflexivity |]. split; [reflexivity |]. split.
  { apply ApplyFacts.find_application_write with (a := a1); assumption. }
  split; [reflexivity |]. split; [reflexivity |]. split.
  - cbn. rewrite !length_app. cbn. lia.
  - reflexivity.
Qed.


Lemma accepting_updated n : updated (Fixtures.accepting n).
Proof.
  exists 200, None, (Client.JObj [("product", Client.JObj [])]).
  repeat split. discriminate.
Qed.

Lemma legacy_hide_then_restore_witness :
  exists w1 w2 p2 a2,
    apply_rule no_faults 1000 Fixtures.accepting 100 1 Samples.world_pending
    = (Ok (Success (Some "hide_product")), w1)
    /\ restore_product no_faults 1000 Fixtures.accepting 300 1 w1
       = (Ok (Success (Some "show_product")), w2)
    /\ find_product 1 (db w2) = Some p2
    /\ status p2 = "active"
    /\ ApplySpec.visibility p2 = (true, Some 100, None)
    /\ find_application 1 (db w2) = Some a2
    /\ app_status a2 = "reversed" /\ applied_at a2 = Some 100
    /\ List.length (logs (db w2)) = 2%nat
    /\ sent w2 = 2%nat.
Proof.
  apply (@legacy_hide_then_restore
           999 999 Fixtures.accepting 100 300 1 Samples.world_pending
           (Samples.application0 "pending") Samples.rule0 Samples.product0
           Samples.store0); try reflexivity; apply accepting_updated.
Defined.

(** X10. [restore_product] of tasks.py never marks an application
    failed: when the remote update fails, or the rule's action is not
    ['hide_product'], it returns an error and the database and the queue
    are as before, so the application is still [applied]. *)
Theorem legacy_restore_failure_changes_nothing
        faults depth net now id w a r p s :
  find_application id (db w) = Some a ->
  find_rule (app_rule a) (db w) = Some r ->
  find_product (app_product a) (db w) = Some p ->
  find_store (rule_store r) (db w) = Some s ->
  app_status a = "applied" ->
  (action_type r = "hide_product" -> Client.remote_failure (net (sent w))) ->
  exists message w',
    restore_product faults (S depth) net now id w = (Ok (Error message), w')
    /\ db w' = db w /\ queue w' = queue w.
Proof.
  intros Ha Hr Hp Hst Hs Hfail.
  destruct (String.eqb_spec (action_type r) "hide_product") as [Hact|Hact].
  - do 2 eexists. split.
    + apply legacy_restore_remote_failure with (a := a) (r := r) (p := p)
                                               (s := s); auto.
    + split; reflexivity.
  - pose proof (@ApplyFacts.get_application_found id w a r p Ha Hr Hp)
      as Hget.
    apply String.eqb_neq in Hact.
    exists ("Unsupported action type: " ++ action_type r)%string, w.
    split; [| split; reflexivity].
    unfold restore_product, restore_product_body, get_application, get_store.
    run_task. rewrite Hget. run_task.
    rewrite Hs. cbn [String.eqb Ascii.eqb Bool.eqb negb].
    rewrite Hst. run_task. rewrite Hact. destruct w; reflexivity.
Qed.

Lemma legacy_restore_failure_changes_nothing_witness :
  exists message w',
    restore_product no_faults 1000 Samples.unavailable 300 1
                    Samples.world_applied = (Ok (Error message), w')
    /\ db w' = db Samples.world_applied
    /\ queue w' = queue Samples.world_applied.
Proof.
  apply (@legacy_restore_failure_changes_nothing
           no_faults 999%nat Samples.unavailable 300 1 Samples.world_applied
           (RuleTasks.mark_applied 5 (Samples.application0 "pending"))
           Samples.rule0 (RuleTasks.hide 5 Samples.product0) Samples.store0);
    try reflexivity.
  intros _. simpl. lia.
Defined.


Lemma legacy_apply_skips faults depth net now id w a r p :
  find_application id (db w) = Some a ->
  find_rule (app_rule a) (db w) = Some r ->
  find_product (app_product a) (db w) = Some p ->
  app_status a <> "pending" ->
  apply_rule faults depth net now id w
  = (Ok (Skipped ("Rule already in status: " ++ app_status a)), w).
Proof.
  intros Ha Hr Hp Hs.
  pose proof (@ApplyFacts.get_application_found id w a r p Ha Hr Hp) as Hget.
  pose proof (@ApplyFacts.status_neq _ _ Hs) as Hneq.
  unfold apply_rule, apply_rule_body, get_application.
  run_task. rewrite Hget. run_task. rewrite Hneq. reflexivity.
Qed.

(** X11. In tasks.py an action other than ['hide_product'] ends the
    application for good: [apply_rule] stores [failed] with a note that
    names the action, sends nothing and touches neither product nor
    audit log; every later [apply_rule] on the same application is
    skipped and leaves the world as it is. *)
Theorem legacy_unsupported_action_is_terminal
        faults depth net now id w a r p s :
  find_application id (db w) = Some a ->
  find_rule (app_rule a) (db w) = Some r ->
  find_product (app_product a) (db w) = Some p ->
  find_store (rule_store r) (db w) = Some s ->
  app_status a = "pending" ->
  not_yet_due now a = false ->
  action_type r <> "hide_product" ->
  faults OpSaveApplication = None ->
  exists w1 a1,
    apply_rule faults depth net now id w
    = (Ok (Error ("Unsupported action type: " ++ action_type r)), w1)
    /\ find_application id (db w1) = Some a1
    /\ app_status a1 = "failed"
    /\ app_notes a1
       = Some ("Unsupported action type: " ++ action_type r)%string
    /\ products (db w1) = products (db w)
    /\ logs (db w1) = logs (db w)
    /\ queue w1 = queue w /\ sent w1 = sent w
    /\ forall faults' depth' net' now',
         apply_rule faults' depth' net' now' id w1
         = (Ok (Skipped "Rule already in status: failed"), w1).
Proof.
  intros Ha Hr Hp Hst Hs Hdue Hact Hf.
  pose (a1 := mark "failed" (applied_at a)
                   (Some ("Unsupported action type: " ++ action_type r)%string)
                   a).
  pose (w1 := {| db := write_application a1 (db w);
                 queue := queue w; sent := sent w |}).
  exists w1, a1.
  split.
  { apply ApplyFacts.legacy_apply_unsupported_action
      with (p := p) (s := s); assumption. }
  assert (Ha1 : find_application id (db w1) = Some a1).
  { apply ApplyFacts.find_application_write with (a := a); [exact Ha |].
    exact (@ApplyFacts.find_application_id _ _ _ Ha). }
  split; [exact Ha1 |].
  repeat (split; [reflexivity |]).
  intros faults' depth' net' now'.
  apply (@legacy_apply_skips faults' depth' net' now' id w1 a1 r p Ha1);
    [exact Hr | exact Hp | discriminate].
Qed.

Lemma legacy_unsupported_action_is_terminal_witness :
  exists w1 a1,
    apply_rule no_faults 1000 Fixtures.accepting 100 1 Samples.world_tag
    = (Ok (Error "Unsupported action type: tag_product"), w1)
    /\ find_application 1 (db w1) = Some a1
    /\ app_status a1 = "failed"
    /\ app_notes a1 = Some "Unsupported action type: tag_product"
    /\ products (db w1) = products (db Samples.world_tag)
    /\ logs (db w1) = logs (db Samples.world_tag)
    /\ queue w1 = queue Samples.world_tag
    /\ sent w1 = sent Samples.world_tag
    /\ forall faults' depth' net' now',
         apply_rule faults' depth' net' now' 1 w1
         = (Ok (Skipped "Rule already in status: failed"), w1).
Proof.
  apply (@legacy_unsupported_action_is_terminal
           no_faults 1000%nat Fixtures.accepting 100 1 Samples.world_tag
           (Samples.application0 "pending") Samples.rule_tag
           Samples.product0 Samples.store0); try reflexivity.
  discriminate.
Defined.

(** X12. An id that no application has: each of the four tasks
    ([apply_rule] and [restore_product], in tasks/rule_tasks.py and in
    tasks.py) returns an error that names the id and changes nothing;
    none lets [DoesNotExist] out. *)
Theorem missing_application_is_reported faults depth net now id w :
  find_application id (db w) = None ->
  RuleTasks.apply_rule faults now id w
  = (Ok (Error ("Rule application " ++ show_Z id ++ " not found")), w)
  /\ RuleTasks.restore_product faults now id w
     = (Ok (Error ("Rule application " ++ show_Z id ++ " not found")), w)
  /\ apply_rule faults depth net now id w
     = (Ok (Error ("Rule application with ID " ++ show_Z id ++ " not found")),
        w)
  /\ restore_product faults depth net now id w
     = (Ok (Error ("Rule application with ID " ++ show_Z id ++ " not found")),
        w).
Proof.
  intros Hnone.
  assert (Hget : RuleTasks.get_application id w
                 = (Raise (DoesNotExist "RuleApplication"), w)).
  { unfold RuleTasks.get_application. run_task. now rewrite Hnone. }
  unfold RuleTasks.apply_rule, RuleTasks.apply_rule_body,
    RuleTasks.restore_product, RuleTasks.restore_product_body,
    apply_rule, apply_rule_body, restore_product, restore_product_body,
    get_application.
  run_task. rewrite Hget. destruct w. repeat split.
Qed.

Lemma missing_application_is_reported_witness :
  RuleTasks.apply_rule no_faults 100 7 Samples.world_pending
  = (Ok (Error "Rule application 7 not found"), Samples.world_pending)
  /\ RuleTasks.restore_product no_faults 100 7 Samples.world_pending
     = (Ok (Error "Rule application 7 not found"), Samples.world_pending)
  /\ apply_rule no_faults 1000 Fixtures.accepting 100 7 Samples.world_pending
     = (Ok (Error "Rule application with ID 7 not found"),
        Samples.world_pending)
  /\ restore_product no_faults 1000 Fixtures.accepting 100 7
                     Samples.world_pending
     = (Ok (Error "Rule application with ID 7 not found"),
        Samples.world_pending).
Proof.
  exact (@missing_application_is_reported
           no_faults 1000%nat Fixtures.accepting 100 7 Samples.world_pending
           eq_refl).
Defined.


(** X6. In tasks.py a second [schedule_rule_application] for a pair
    that already has its pending application adds no row, but it is not
    a no-op: [update_or_create] rewrites [triggered_at], [scheduled_for]
    and [restore_scheduled_for] of that row from the clock of the second
    call, and a rule without delay has [apply_rule] queued a second
    time. *)
Theorem legacy_schedule_again_reschedules now1 now2 rule product w0 :
  RuleTasks.pending_for rule product (db w0) = [] ->
  exists w1 w2 a1 a2,
    schedule_rule_application no_faults now1 rule product w0 = (Ok tt, w1)
    /\ schedule_rule_application no_faults now2 rule product w1 = (Ok tt, w2)
    /\ applications (db w1) = applications (db w0) ++ [a1]
    /\ applications (db w2) = applications (db w0) ++ [a2]
    /\ app_id a2 = app_id a1 /\ app_status a2 = "pending"
    /\ triggered_at a2 = now2
    /\ scheduled_for a2 = Some (scheduled_time now2 rule)
    /\ restore_scheduled_for a2 = restore_time now2 rule
    /\ queue w2 = queue w0 ++ (if delay_minutes rule =? 0
                               then [ApplyRule (app_id a1);
                                     ApplyRule (app_id a1)]
                               else []).
Proof.
  intros Hnone.
  pose proof (@LegacySchedulerFacts.legacy_schedule_fresh
                now1 rule product w0 Hnone) as H1.
  cbv zeta in H1.
  set (a1 := new_application _ _ _ _ _ _) in H1.
  match type of H1 with _ = (_, ?w) => set (w1 := w) in * end.
  assert (Hpa : RuleTasks.is_pending_for rule product a1 = true).
  { unfold RuleTasks.is_pending_for, a1. simpl. now rewrite !Z.eqb_refl. }
  assert (Hp1 : RuleTasks.pending_for rule product (db w1) = [a1]).
  { unfold RuleTasks.pending_for in *. simpl.
    now rewrite SchedulerFacts.pending_for_app, Hnone, Hpa. }
  pose proof (@LegacySchedulerFacts.legacy_schedule_existing
                now2 rule product w1 a1 Hp1) as H2.
  cbv zeta in H2.
  set (a2 := reschedule _ _ _ a1) in H2.
  match type of H2 with _ = (_, ?w) => set (w2 := w) in * end.
  assert (Hfresh : forall b, In b (applications (db w0)) ->
                             app_id b <> app_id a2).
  { intros b Hb. unfold a2, a1. simpl.
    assert (app_id b < next_id (map app_id (applications (db w0)))).
    { apply LegacySchedulerFacts.next_id_above. now apply in_map. }
    lia. }
  assert (Hw : applications (db w2) = applications (db w0) ++ [a2]).
  { unfold w2, w1, write_application, set_applications.
    cbn [applications db].
    rewrite map_app, LegacySchedulerFacts.write_fresh_id by exact Hfresh.
    cbn [map]. now rewrite Z.eqb_refl. }
  exists w1, w2, a1, a2.
  split; [exact H1 |]. split; [exact H2 |]. split; [reflexivity |].
  split; [exact Hw |]. repeat (split; [reflexivity |]).
  unfold w2, w1. cbn [queue]. rewrite <- app_assoc.
  change (app_id a2) with (app_id a1).
  now destruct (delay_minutes rule =? 0).
Qed.

Lemma legacy_schedule_again_reschedules_witness :
  exists w1 w2 a1 a2,
    schedule_rule_application no_faults 10 Samples.rule0 Samples.product0
                              Samples.world0 = (Ok tt, w1)
    /\ schedule_rule_application no_faults 20 Samples.rule0 Samples.product0
                                 w1 = (Ok tt, w2)
    /\ applications (db w1) = [a1]
    /\ applications (db w2) = [a2]
    /\ app_id a2 = app_id a1 /\ app_status a2 = "pending"
    /\ triggered_at a2 = 20
    /\ scheduled_for a2 = Some 20
    /\ restore_scheduled_for a2 = None
    /\ queue w2 = [ApplyRule (app_id a1); ApplyRule (app_id a1)].
Proof.
  exact (@legacy_schedule_again_reschedules
           10 20 Samples.rule0 Samples.product0 Samples.world0 eq_refl).
Defined.

End LegacyFacts.

(* ===================================================================== *)
(** * The poller of tasks.py *)
(* ===================================================================== *)

Module PollerFacts.
Import LegacyPoller.

Lemma insert_by_trigger_in a x az :
  In a (insert_by_trigger x az) <-> a = x \/ In a az.
Proof.
  induction az as [|y az IH]; cbn [insert_by_trigger In].
  - intuition auto.
  - destruct (triggered_at y <? triggered_at x); cbn [In];
      rewrite ?IH; intuition auto.
Qed.

Lemma insert_by_trigger_length x az :
  List.length (insert_by_trigger x az) = S (List.length az).
Proof.
  induction az as [|y az IH]; cbn [insert_by_trigger List.length];
    [reflexivity |].
  destruct (triggered_at y <? triggered_at x); cbn [List.length];
    now rewrite ?IH.
Qed.

Lemma default_ordering_in a az : In a (default_ordering az) <-> In a az.
Proof.
  induction az as [|x az IH]; cbn [default_ordering fold_right In];
    [tauto |].
  fold (default_ordering az).
  rewrite insert_by_trigger_in, IH. intuition auto.
Qed.

Lemma default_ordering_length az :
  List.length (default_ordering az) = List.length az.
Proof.
  induction az as [|x az IH]; cbn [default_ordering fold_right List.length];
    [reflexivity |].
  fold (default_ordering az).
  now rewrite insert_by_trigger_length, IH.
Qed.

Lemma delay_each_no_faults op task az : forall count w,
  delay_each no_faults op task az count w
  = (Ok (count + List.length az)%nat,
     {| db := db w;
        queue := queue w ++ map (fun a => task (app_id a)) az;
        sent := sent w |}).
Proof.
  induction az as [|a az IH]; intros count w;
    cbn [delay_each List.length map].
  - unfold ret. rewrite Nat.add_0_r, app_nil_r. now destruct w.
  - run_task. rewrite IH. cbn [db queue sent].
    rewrite <- app_assoc. cbn [app]. f_equal. f_equal. lia.
Qed.

(** X13. [check_scheduled_rules] of tasks.py writes nothing and sends
    nothing.  It queues one [apply_rule] for each pending application
    whose [scheduled_for] is set and not later than [now], then one
    [restore_product] for each applied application whose
    [restore_scheduled_for] is set and not later than [now], and for no
    other; the two counts it returns are the numbers of such rows. *)
Theorem check_scheduled_rules_polls now w :
  exists applied restored,
    check_scheduled_rules no_faults now w
    = (Ok {| applied_count := List.length applied;
             restored_count := List.length restored;
             timestamp := now |},
       {| db := db w;
          queue := queue w
                   ++ map (fun a => ApplyRule (app_id a)) applied
                   ++ map (fun a => RestoreProduct (app_id a) None) restored;
          sent := sent w |})
    /\ (forall a, In a applied <->
                  In a (applications (db w)) /\ due_to_apply now a = true)
    /\ (forall a, In a restored <->
                  In a (applications (db w)) /\ due_to_restore now a = true)
    /\ List.length applied
       = List.length (filter (due_to_apply now) (applications (db w)))
    /\ List.length restored
       = List.length (filter (due_to_restore now) (applications (db w))).
Proof.
  exists (default_ordering (filter (due_to_apply now) (applications (db w)))),
         (default_ordering (filter (due_to_restore now)
                                   (applications (db w)))).
  split.
  - unfold check_scheduled_rules. run_task.
    rewrite delay_each_no_faults. cbn [db queue sent].
    rewrite delay_each_no_faults. cbn [db queue sent Nat.add].
    now rewrite <- app_assoc.
  - split; [| split; [| split]].
    + intros a. now rewrite default_ordering_in, filter_In.
    + intros a. now rewrite default_ordering_in, filter_In.
    + apply default_ordering_length.
    + apply default_ordering_length.
Qed.

(** X14. What the poller hands out is ready: an application that
    [check_scheduled_rules] selects at [now] is not [is_scheduled] at
    any later time, and [apply_rule] of tasks.py run on it then (the row
    unchanged) ends in success or error, never in [deferred] or
    [skipped]. *)
Theorem polled_application_is_applied
        faults depth net now now' w a r p res w' :
  due_to_apply now a = true ->
  now <= now' ->
  find_application (app_id a) (db w) = Some a ->
  find_rule (app_rule a) (db w) = Some r ->
  find_product (app_product a) (db w) = Some p ->
  LegacyTasks.apply_rule faults depth net now' (app_id a) w = (Ok res, w') ->
  RuleModels.is_scheduled now' a = false
  /\ (result_status res = "success" \/ result_status res = "error").
Proof.
  intros Hdue Hle Ha Hr Hp Hrun.
  unfold due_to_apply in Hdue. apply andb_true_iff in Hdue.
  destruct Hdue as [Hs Hlte]. apply String.eqb_eq in Hs.
  unfold lte in Hlte.
  destruct (scheduled_for a) as [t|] eqn:Ht; [| discriminate].
  apply Z.leb_le in Hlte.
  assert (Hnot : LegacyTasks.not_yet_due now' a = false).
  { unfold LegacyTasks.not_yet_due. rewrite Ht. apply Z.ltb_ge. lia. }
  split.
  - unfold RuleModels.is_scheduled. rewrite Ht.
    apply andb_false_iff. right. apply Z.ltb_ge. lia.
  - eapply LegacyFacts.legacy_apply_due_result; eauto.
Qed.

Lemma polled_application_is_applied_witness :
  RuleModels.is_scheduled 600 Fixtures.application_at_500 = false
  /\ (result_status (Error "Failed to update product in Shopify") = "success"
      \/ result_status (Error "Failed to update product in Shopify")
         = "error").
Proof.
  apply (@polled_application_is_applied
           no_faults 1000%nat Samples.unavailable 500 600
           Fixtures.world_scheduled Fixtures.application_at_500
           Samples.rule0 Samples.product0
           (Error "Failed to update product in Shopify")
           (snd (LegacyTasks.apply_rule no_faults 1000 Samples.unavailable
                                        600 1 Fixtures.world_scheduled)));
    try reflexivity.
  lia.
Defined.

End PollerFacts.


(* ===================================================================== *)
(** * The runs of the synchronisation *)
(* ===================================================================== *)

Module SyncRunFacts.
Import SyncTasks Mirror.

Lemma fetch_pages_all pages : forall w,
  fetch_pages (map Some pages) w
  = (Ok (List.concat pages),
     {| db := db w; queue := queue w;
        sent := (sent w + List.length pages)%nat |}).
Proof.
  induction pages as [|page pages IH]; intros w;
    cbn [map fetch_pages List.concat List.length].
  - unfold ret. rewrite Nat.add_0_r. now destruct w.
  - unfold tick. run_task. rewrite IH. run_task.
    replace (sent w + 1 + List.length pages)%nat
      with (sent w + S (List.length pages))%nat by lia.
    reflexivity.
Qed.

Lemma fetch_pages_stops pages rest : forall w,
  fetch_pages (map Some pages ++ None :: rest) w
  = (Raise (RequestException "Product.find"),
     {| db := db w; queue := queue w;
        sent := (sent w + S (List.length pages))%nat |}).
Proof.
  induction pages as [|page pages IH]; intros w;
    cbn [map app fetch_pages List.length].
  - unfold tick. run_task. reflexivity.
  - unfold tick. run_task. rewrite IH. run_task.
    replace (sent w + 1 + S (List.length pages))%nat
      with (sent w + S (S (List.length pages)))%nat by lia.
    reflexivity.
Qed.

Lemma first_failed_page (catalog : list (option (list ProductData))) :
  In None catalog ->
  exists pages rest, catalog = map Some pages ++ None :: rest.
Proof.
  induction catalog as [|[page|] catalog IH]; intros Hin.
  - contradiction.
  - destruct Hin as [Hin|Hin]; [discriminate |].
    destruct (IH Hin) as (pages & rest & ->).
    now exists (page :: pages), rest.
  - now exists [], catalog.
Qed.

Lemma find_store_id id d s : find_store id d = Some s -> store_id s = id.
Proof.
  unfold find_store. intros H. apply find_some in H. now apply Z.eqb_eq.
Qed.

(** A run that reaches step 4. *)
Lemma sync_store_data_step4_run columns remote now id w store pages :
  find_store id (db w) = Some store ->
  truthy (access_token store) = true ->
  session_ok remote = true ->
  catalog remote = map Some pages ->
  let run := sync_store_data columns remote now id w in
  let d4 := step4 columns remote now id (List.concat pages) (db w) in
  queue (snd run) = queue w
  /\ sent (snd run)
     = (sent w + Nat.max 1 (List.length pages)
        + finds_made columns (List.concat pages))%nat
  /\ if catalog_fits columns (List.concat pages)
     then fst run = Ok (Success None)
          /\ db (snd run) = mark (with_sync_success now) id d4
     else (exists e, fst run = Raise e)
          /\ db (snd run) = mark (with_sync_status "failed") id d4.
Proof.
  intros Hfind Htoken Hsession Hcat.
  pose proof (find_store_id _ _ Hfind) as Hid.
  assert (Hfetch : forall w0,
             fetch_pages (match catalog remote with
                          | [] => [Some []]
                          | pages => pages
                          end) w0
             = (Ok (List.concat pages),
                {| db := db w0; queue := queue w0;
                   sent := (sent w0 + Nat.max 1 (List.length pages))%nat |})).
  { intros w0. rewrite Hcat. destruct pages as [|page pages].
    - cbn [map]. apply (fetch_pages_all [[]]).
    - cbn [map]. apply (fetch_pages_all (page :: pages)). }
  cbv zeta.
  set (w3 := {| db := db w; queue := queue w;
                sent := (sent w + Nat.max 1 (List.length pages))%nat |}).
  destruct (@MirrorFacts.step4_and_5 columns remote now id id
              (List.concat pages) w3) as (Hq & Hs & Hrun).
  cbv zeta in Hq, Hs, Hrun.
  eassert (Heq : sync_store_data columns remote now id w = _).
  { unfold sync_store_data, sync_store_data_body.
    unfold try_except at 1. unfold bind at 1. unfold get_db at 1.
    rewrite Hfind, Htoken. cbn [negb]. rewrite Hsession.
    unfold bind at 1. unfold ret at 1.
    unfold bind at 1. unfold try_except at 1. rewrite Hfetch, Hid.
    fold w3. reflexivity. }
  rewrite Heq. clear Heq.
  match goal with
  | |- context [match ?run w3 with _ => _ end] =>
      destruct (run w3) as [[res|e] w5] eqn:Hw5
  end;
    cbn [fst snd] in *; destruct (catalog_fits columns (List.concat pages));
    destruct Hrun as [Hres Hdb]; try discriminate;
    try (destruct Hres; discriminate).
  - subst w3. cbn [db queue sent] in *. auto.
  - unfold update_store. run_task. subst w3. cbn [db queue sent] in *.
    fold (mark (with_sync_status "failed") id (db w5)).
    rewrite Hdb, MirrorFacts.mark_failed_twice. eauto 6.
Qed.

Lemma find_store_marked f id d d' store :
  (forall s, store_id (f s) = store_id s) ->
  find_store id d = Some store ->
  stores d' = stores d ->
  find_store id (mark f id d') = Some (f store).
Proof.
  intros Hf Hfind Hstores.
  rewrite MirrorFacts.find_store_mark by exact Hf.
  unfold find_store in *. now rewrite Hstores, Hfind.
Qed.

(** X15. A run of [sync_store_data] for a store with a token, the
    session opened, every page fetched and every product and variant
    of the catalog fitting its columns, returns success and leaves the
    store row with [sync_status = 'success'] and [last_sync_at = now],
    its other columns as they were; it queues nothing and writes
    neither audit log, rules nor rule applications; the remote was
    called once per page (once when there is no page) and once per
    variant fetched. *)
Theorem sync_store_data_succeeds columns remote now id w store pages :
  find_store id (db w) = Some store ->
  truthy (access_token store) = true ->
  session_ok remote = true ->
  catalog remote = map Some pages ->
  catalog_fits columns (List.concat pages) = true ->
  exists w' store',
    sync_store_data columns remote now id w = (Ok (Success None), w')
    /\ find_store id (db w') = Some store'
    /\ sync_status store' = "success"
    /\ last_sync_at store' = Some now
    /\ store_id store' = store_id store
    /\ shop_url store' = shop_url store
    /\ access_token store' = access_token store
    /\ store_is_active store' = store_is_active store
    /\ queue w' = queue w
    /\ logs (db w') = logs (db w)
    /\ rules (db w') = rules (db w)
    /\ applications (db w') = applications (db w)
    /\ sent w' = (sent w + Nat.max 1 (List.length pages)
                  + count_variants (List.concat pages))%nat.
Proof.
  intros Hfind Htoken Hsession Hcat Hfits.
  destruct (@sync_store_data_step4_run columns remote now id w store pages
              Hfind Htoken Hsession Hcat) as (Hq & Hs & Hrun).
  cbv zeta in Hq, Hs, Hrun. rewrite Hfits in Hrun.
  destruct Hrun as [Hres Hdb].
  rewrite (MirrorFacts.finds_made_all _ _ Hfits) in Hs.
  destruct (sync_store_data columns remote now id w) as [res w'].
  cbn [fst snd] in *. subst res.
  destruct (MirrorFacts.step4_frame columns remote now id
                                    (List.concat pages) (db w))
    as (Hstores & Hlogs & Hrules & Happs).
  exists w', (with_sync_success now store).
  split; [reflexivity |]. rewrite Hdb.
  split.
  { apply find_store_marked with (d := db w); auto. }
  unfold mark.
  cbn [with_sync_success sync_status last_sync_at store_id shop_url
       access_token store_is_active logs rules applications set_stores].
  repeat split; assumption.
Qed.

Lemma sync_store_data_succeeds_witness :
  exists w' store',
    sync_store_data Samples.columns0 Samples.remote0 100 1 Samples.world0
    = (Ok (Success None), w')
    /\ find_store 1 (db w') = Some store'
    /\ sync_status store' = "success"
    /\ last_sync_at store' = Some 100
    /\ store_id store' = store_id Samples.store0
    /\ shop_url store' = shop_url Samples.store0
    /\ access_token store' = access_token Samples.store0
    /\ store_is_active store' = store_is_active Samples.store0
    /\ queue w' = queue Samples.world0
    /\ logs (db w') = logs (db Samples.world0)
    /\ rules (db w') = rules (db Samples.world0)
    /\ applications (db w') = applications (db Samples.world0)
    /\ sent w'
       = (sent Samples.world0
          + Nat.max 1 (List.length [SyncFixtures.page0])
          + count_variants (List.concat [SyncFixtures.page0]))%nat.
Proof.
  apply (@sync_store_data_succeeds Samples.columns0 Samples.remote0 100 1
                                   Samples.world0 Samples.store0
                                   [SyncFixtures.page0]);
    reflexivity.
Defined.

(** X16. When the session cannot be opened, or some page of the
    catalog cannot be fetched, [sync_store_data] does not return: it
    raises out of [self.retry], and leaves the store row with
    [sync_status = 'failed'] and its other columns as they were;
    nothing of the pages fetched before the failure is written:
    products, variants, locations, levels, audit log, rules and
    applications are as before. *)
Theorem sync_store_data_fetch_failure columns remote now id w store :
  find_store id (db w) = Some store ->
  truthy (access_token store) = true ->
  session_ok remote = false \/ In None (catalog remote) ->
  exists e w' store',
    sync_store_data columns remote now id w = (Raise e, w')
    /\ find_store id (db w') = Some store'
    /\ sync_status store' = "failed"
    /\ store_id store' = store_id store
    /\ shop_url store' = shop_url store
    /\ access_token store' = access_token store
    /\ store_is_active store' = store_is_active store
    /\ last_sync_at store' = last_sync_at store
    /\ products (db w') = products (db w)
    /\ variants (db w') = variants (db w)
    /\ locations (db w') = locations (db w)
    /\ levels (db w') = levels (db w)
    /\ logs (db w') = logs (db w)
    /\ rules (db w') = rules (db w)
    /\ applications (db w') = applications (db w).
Proof.
  intros Hfind Htoken Hwhy.
  assert (Hmark : find_store id (mark (with_sync_status "failed") id
                                      (mark (with_sync_status "failed") id
                                            (db w)))
                  = Some (with_sync_status "failed" store)).
  { rewrite MirrorFacts.mark_failed_twice.
    rewrite MirrorFacts.find_store_mark by reflexivity.
    now rewrite Hfind. }
  destruct (session_ok remote) eqn:Hsession.
  - destruct Hwhy as [Hwhy|Hin]; [discriminate |].
    destruct (first_failed_page _ Hin) as (pages & rest & Hcat).
    assert (Hfetch : forall w0,
               fetch_pages (match catalog remote with
                            | [] => [Some []]
                            | pages => pages
                            end) w0
               = (Raise (RequestException "Product.find"),
                  {| db := db w0; queue := queue w0;
                     sent := (sent w0 + S (List.length pages))%nat |})).
    { intros w0. rewrite Hcat.
      destruct (map Some pages ++ None :: rest) eqn:Heq.
      - destruct pages; discriminate.
      - rewrite <- Heq. apply fetch_pages_stops. }
    do 2 eexists. exists (with_sync_status "failed" store). split.
    + unfold sync_store_data, sync_store_data_body.
      unfold try_except at 1. unfold bind at 1. unfold get_db at 1.
      rewrite Hfind, Htoken. cbn [negb]. rewrite Hsession.
      unfold bind at 1. unfold ret at 1.
      unfold bind at 1. unfold try_except at 1. rewrite Hfetch.
      unfold update_store. run_task. reflexivity.
    + cbn [db queue sent]. split; [exact Hmark |]. repeat split.
  - do 2 eexists. exists (with_sync_status "failed" store). split.
    + unfold sync_store_data, sync_store_data_body.
      unfold try_except at 1. unfold bind at 1. unfold get_db at 1.
      rewrite Hfind, Htoken. cbn [negb]. rewrite Hsession.
      unfold update_store. run_task. reflexivity.
    + cbn [db queue sent]. split; [exact Hmark |]. repeat split.
Qed.

Lemma sync_store_data_fetch_failure_witness :
  exists e w' store',
    sync_store_data Samples.columns0 SyncFixtures.remote_broken 100 1
                    Samples.world0
    = (Raise e, w')
    /\ find_store 1 (db w') = Some store'
    /\ sync_status store' = "failed"
    /\ store_id store' = store_id Samples.store0
    /\ shop_url store' = shop_url Samples.store0
    /\ access_token store' = access_token Samples.store0
    /\ store_is_active store' = store_is_active Samples.store0
    /\ last_sync_at store' = last_sync_at Samples.store0
    /\ products (db w') = products (db Samples.world0)
    /\ variants (db w') = variants (db Samples.world0)
    /\ locations (db w') = locations (db Samples.world0)
    /\ levels (db w') = levels (db Samples.world0)
    /\ logs (db w') = logs (db Samples.world0)
    /\ rules (db w') = rules (db Samples.world0)
    /\ applications (db w') = applications (db Samples.world0).
Proof.
  apply (@sync_store_data_fetch_failure
           Samples.columns0 SyncFixtures.remote_broken 100 1
           Samples.world0 Samples.store0);
    try reflexivity.
  right. cbn. auto.
Defined.

End SyncRunFacts.

(* ===================================================================== *)
(** * Rows that an upsert leaves alone *)
(* ===================================================================== *)

Module OrmRowFacts.
Import Orm.

Section Table.
Variable Row : Type.
Variable pk : Row -> Id.
Variable matches : Row -> bool.
Variable upd : Row -> Row.
Variable mk : Id -> Row.

Lemma update_first_other rows : forall r rows' i x,
  update_first matches upd rows = Some (r, rows') ->
  nth_error rows i = Some x -> matches x = false ->
  nth_error rows' i = Some x.
Proof.
  induction rows as [|y rows IH]; intros r rows' i x H Hi Hx;
    cbn [update_first] in H; [discriminate |].
  destruct (matches y) eqn:Hy.
  - inversion H; subst. destruct i as [|i]; cbn [nth_error] in *.
    + inversion Hi; subst. congruence.
    + exact Hi.
  - destruct (update_first matches upd rows) as [[r1 rows1]|] eqn:Hu;
      [| discriminate].
    inversion H; subst. destruct i as [|i]; cbn [nth_error] in *.
    + exact Hi.
    + eapply IH; eauto.
Qed.

Lemma update_or_create_other rows i x :
  nth_error rows i = Some x -> matches x = false ->
  nth_error (snd (update_or_create pk matches upd mk rows)) i = Some x.
Proof.
  intros Hi Hx. unfold update_or_create.
  destruct (update_first matches upd rows) as [[r rows']|] eqn:Hu;
    cbn [snd].
  - eapply update_first_other; eauto.
  - rewrite nth_error_app1; [exact Hi |].
    apply nth_error_Some. congruence.
Qed.

Lemma update_first_returned rows : forall r rows',
  update_first matches upd rows = Some (r, rows') ->
  In r rows' /\ exists x, In x rows /\ matches x = true /\ r = upd x.
Proof.
  induction rows as [|y rows IH]; intros r rows' H;
    cbn [update_first] in H; [discriminate |].
  destruct (matches y) eqn:Hy.
  - inversion H; subst. split; [now left |].
    exists y. repeat split; auto. now left.
  - destruct (update_first matches upd rows) as [[r1 rows1]|] eqn:Hu;
      [| discriminate].
    inversion H; subst. destruct (IH _ _ eq_refl) as (Hin & x & Hx & Hm & ->).
    split; [now right |]. exists x. repeat split; auto. now right.
Qed.

Lemma update_or_create_returned rows :
  let res := update_or_create pk matches upd mk rows in
  In (fst res) (snd res)
  /\ ((exists x, In x rows /\ matches x = true /\ fst res = upd x)
      \/ exists id, fst res = mk id).
Proof.
  unfold update_or_create.
  destruct (update_first matches upd rows) as [[r rows']|] eqn:Hu;
    cbn [fst snd].
  - destruct (update_first_returned _ Hu) as (Hin & Hx). split; [exact Hin |].
    now left.
  - split; [apply in_or_app; right; now left |]. right. eauto.
Qed.

End Table.

Lemma pre_nth Row (key : Row -> Row -> Prop) a fin :
  Mirror.pre key a fin ->
  forall i x, nth_error a i = Some x ->
              exists z, nth_error fin i = Some z /\ key x z.
Proof.
  induction 1 as [fin | x a z fin Hk Hpre IH]; intros i y Hi.
  - destruct i; discriminate.
  - destruct i as [|i]; cbn [nth_error] in *.
    + inversion Hi; subst. eauto.
    + now apply IH.
Qed.

End OrmRowFacts.

(* ===================================================================== *)
(** * The product table after a synchronisation *)
(* ===================================================================== *)

Module SyncTableFacts.
Import SyncTasks SyncSpec Mirror.

Lemma fold_left_keeps X (P : DB -> Prop) (f : DB -> X -> DB) xs :
  (forall d x, P d -> P (f d x)) ->
  forall d, P d -> P (fold_left f xs d).
Proof.
  intros Hf. induction xs as [|x xs IH]; intros d Hd; cbn [fold_left];
    auto.
Qed.

Lemma loop_rel X (fits : X -> bool) (part : X -> DB -> DB)
      (Q : DB -> DB -> Prop) xs :
  (forall d, Q d d) ->
  (forall a b c, Q a b -> Q b c -> Q a c) ->
  (forall x d, Q d (part x d)) ->
  forall d, Q d (loop fits part xs d).
Proof.
  intros Hrefl Htrans Hpart.
  induction xs as [|x xs IH]; intros d; cbn [loop]; [apply Hrefl |].
  destruct (fits x); [| apply Hpart].
  eapply Htrans; [apply Hpart | apply IH].
Qed.

Lemma products_level_part columns now store variant ld d :
  products (level_part columns now store variant ld d) = products d.
Proof.
  unfold level_part, level_op, location_op.
  destruct (fits_location columns (ld_location_id ld)); [| reflexivity].
  destruct (fits_level columns ld); reflexivity.
Qed.

Lemma products_variant_part columns remote now store product vd d :
  products (variant_part columns remote now store product vd d)
  = products d.
Proof.
  unfold variant_part, levels_of.
  destruct (fits_variant columns vd); [| reflexivity].
  destruct (inventory_levels remote (vd_inventory_item_id vd)) as [lds|];
    [| reflexivity].
  transitivity (products (variant_op now product vd d)); [| reflexivity].
  apply (@loop_rel _ (level_fits columns)
           (level_part columns now store (variant_op_pk now product vd d))
           (fun a b => products b = products a) lds);
    [reflexivity | congruence |].
  intros ld d'. apply products_level_part.
Qed.

Lemma products_product_part columns remote now store pd d :
  products (product_part columns remote now store pd d)
  = if fits_product columns pd
    then upsert_products now store [pd] (products d)
    else products d.
Proof.
  unfold product_part, variants_of, upsert_products. cbn [fold_left].
  destruct (fits_product columns pd); [| reflexivity].
  assert (Hloop :
            products
              (loop (fits_variant columns)
                    (variant_part columns remote now store
                                  (product_op_pk now store pd d))
                    (pd_variants pd) (product_op now store pd d))
            = products (product_op now store pd d)).
  { apply (@loop_rel _ (fits_variant columns)
             (variant_part columns remote now store
                           (product_op_pk now store pd d))
             (fun a b => products b = products a) (pd_variants pd));
      [reflexivity | congruence |].
    intros vd d'. apply products_variant_part. }
  destruct (forallb (fits_variant columns) (pd_variants pd));
    unfold touch_variants; cbn [products set_variants]; rewrite Hloop;
    reflexivity.
Qed.

Lemma upsert_products_app now store ps qs rows :
  upsert_products now store (ps ++ qs) rows
  = upsert_products now store qs (upsert_products now store ps rows).
Proof. unfold upsert_products. now rewrite fold_left_app. Qed.

(** The product table after a step 4 in which everything fits. *)
Lemma products_step4 columns remote now store ps :
  catalog_fits columns ps = true ->
  forall d,
    products (step4 columns remote now store ps d)
    = Orm.update_where
        (fun p => (product_store p =? store)
                  && negb (mem (product_shopify_id p) (map pd_id ps)))
        (touch_product now) (upsert_products now store ps (products d)).
Proof.
  intros Hfits d. unfold step4. rewrite Hfits.
  unfold touch_products. cbn [products set_products].
  f_equal. unfold catalog_fits in Hfits. generalize d. clear d.
  induction ps as [|pd ps IH]; intros d; [reflexivity |].
  cbn [forallb] in Hfits. apply andb_true_iff in Hfits.
  destruct Hfits as [Hpd Hps].
  cbn [loop]. rewrite Hpd, (IH Hps), products_product_part.
  unfold product_fits in Hpd. apply andb_true_iff in Hpd.
  destruct Hpd as [Hp _]. rewrite Hp.
  change (pd :: ps) with ([pd] ++ ps).
  now rewrite upsert_products_app.
Qed.

Lemma kept_refl x : kept x x.
Proof. unfold kept. tauto. Qed.

Lemma kept_trans x y z : kept x y -> kept y z -> kept x z.
Proof. unfold kept. intuition congruence. Qed.

Lemma upsert_products_kept now store ps : forall rows,
  pre kept rows (upsert_products now store ps rows).
Proof.
  induction ps as [|pd ps IH]; intros rows.
  - apply Lockstep.pre_refl, kept_refl.
  - unfold upsert_products. cbn [fold_left].
    eapply Lockstep.pre_trans; [exact kept_trans | | apply IH].
    apply Lockstep.update_or_create_pre; [exact kept_refl |].
    intros x. unfold kept, product_defaults, ApplySpec.visibility.
    cbn. tauto.
Qed.

(** Step 4, complete or cut short, keeps the product rows in place. *)
Lemma step4_kept columns remote now store ps d :
  pre kept (products d) (products (step4 columns remote now store ps d)).
Proof.
  assert (Hrefl : forall d0 : DB, pre kept (products d0) (products d0))
    by (intros d0; apply Lockstep.pre_refl, kept_refl).
  assert (Htrans : forall a b c : DB,
             pre kept (products a) (products b) ->
             pre kept (products b) (products c) ->
             pre kept (products a) (products c))
    by (intros a b c; apply Lockstep.pre_trans; exact kept_trans).
  assert (Hloop :
            pre kept (products d)
                (products (loop (product_fits columns)
                                (product_part columns remote now store)
                                ps d))).
  { apply (@loop_rel _ (product_fits columns)
             (product_part columns remote now store)
             (fun a b => pre kept (products a) (products b)) ps);
      [exact Hrefl | exact Htrans |].
    intros pd d'. rewrite products_product_part.
    destruct (fits_product columns pd); [| apply Hrefl].
    apply upsert_products_kept. }
  unfold step4. destruct (catalog_fits columns ps); [| exact Hloop].
  unfold touch_products. cbn [products set_products].
  eapply Lockstep.pre_trans; [exact kept_trans | exact Hloop |].
  apply Lockstep.update_where_pre; [exact kept_refl |].
  intros x. unfold kept, touch_product, ApplySpec.visibility. cbn. tauto.
Qed.

(** X17. No run of [sync_store_data] removes or moves a product row,
    and none changes what the application itself keeps in it: the row
    is afterwards at the same place with the same primary key, store,
    [shopify_id], [created_at], [is_visible], [hidden_at] and
    [scheduled_return].  A product the rules have hidden stays
    hidden. *)
Theorem sync_keeps_product_rows columns remote now id w i p :
  nth_error (products (db w)) i = Some p ->
  exists p',
    nth_error (products (db (snd (sync_store_data columns remote now id
                                                  w)))) i
    = Some p'
    /\ kept p p'.
Proof.
  intros Hi.
  destruct (MirrorFacts.sync_store_data_db columns remote)
    as (outcome & Hdb).
  rewrite Hdb.
  assert (Hsame : exists p', nth_error (products (db w)) i = Some p'
                             /\ kept p p')
    by (exists p; split; [exact Hi | apply kept_refl]).
  destruct (find_store id (db w)) as [store|]; [| exact Hsame].
  destruct (truthy (access_token store)); [| exact Hsame].
  destruct outcome as [all_products|]; [| exact Hsame].
  unfold mark. cbn [products set_stores].
  exact (OrmRowFacts.pre_nth
           (step4_kept columns remote now (store_id store)
                       all_products (db w)) _ Hi).
Qed.

Lemma sync_keeps_product_rows_witness :
  exists p',
    nth_error (products (db (snd (sync_store_data
                                    Samples.columns0 Samples.remote0 100 1
                                    Samples.world0)))) 0
    = Some p'
    /\ kept Samples.product0 p'.
Proof.
  exact (@sync_keeps_product_rows Samples.columns0 Samples.remote0 100 1
                                  Samples.world0 0%nat Samples.product0
                                  eq_refl).
Defined.


Lemma mem_In z zs : mem z zs = true <-> In z zs.
Proof.
  unfold mem. rewrite existsb_exists. split.
  - intros (x & Hx & Heq). apply Z.eqb_eq in Heq. now subst.
  - intros H. exists z. split; [exact H | apply Z.eqb_refl].
Qed.

Lemma upsert_products_other now store ps : forall rows i x,
  nth_error rows i = Some x ->
  (forall pd, In pd ps -> product_matches store (pd_id pd) x = false) ->
  nth_error (upsert_products now store ps rows) i = Some x.
Proof.
  induction ps as [|pd ps IH]; intros rows i x Hi Hno; [exact Hi |].
  unfold upsert_products. cbn [fold_left]. apply IH.
  - apply OrmRowFacts.update_or_create_other; [exact Hi |].
    apply Hno. now left.
  - intros pd' Hin. apply Hno. now right.
Qed.

Lemma step4_row columns remote now store ps d i x :
  catalog_fits columns ps = true ->
  nth_error (upsert_products now store ps (products d)) i = Some x ->
  nth_error (products (step4 columns remote now store ps d)) i
  = Some (if (product_store x =? store)
             && negb (mem (product_shopify_id x) (map pd_id ps))
          then touch_product now x else x).
Proof.
  intros Hfits Hi. rewrite products_step4 by exact Hfits.
  unfold Orm.update_where.
  now rewrite nth_error_map, Hi.
Qed.

(** Rows of the store that the catalog does not list, and rows of
    other stores. *)
Lemma step4_unlisted columns remote now store ps d i x :
  catalog_fits columns ps = true ->
  nth_error (products d) i = Some x ->
  (product_store x <> store ->
   nth_error (products (step4 columns remote now store ps d)) i = Some x)
  /\ (product_store x = store ->
      ~ In (product_shopify_id x) (map pd_id ps) ->
      nth_error (products (step4 columns remote now store ps d)) i
      = Some (touch_product now x)).
Proof.
  intros Hfits Hi. split.
  - intros Hstore.
    assert (Hs : (product_store x =? store) = false)
      by now apply Z.eqb_neq.
    rewrite (@step4_row columns remote now store ps d i x Hfits).
    + now rewrite Hs.
    + apply upsert_products_other; [exact Hi |].
      intros pd _. unfold product_matches. now rewrite Hs.
  - intros Hstore Hnot.
    rewrite (@step4_row columns remote now store ps d i x Hfits).
    + rewrite Hstore, Z.eqb_refl. cbn [andb].
      destruct (mem (product_shopify_id x) (map pd_id ps)) eqn:Hm;
        [| reflexivity].
      apply mem_In in Hm. contradiction.
    + apply upsert_products_other; [exact Hi |].
      intros pd Hin. unfold product_matches.
      apply andb_false_iff. right. apply Z.eqb_neq.
      intros Heq. apply Hnot. rewrite Heq. now apply in_map.
Qed.

Lemma upsert_one_mirrors now store pd rows :
  exists i p,
    nth_error (upsert_products now store [pd] rows) i = Some p
    /\ mirrors now store pd p.
Proof.
  unfold upsert_products. cbn [fold_left].
  destruct (OrmRowFacts.update_or_create_returned product_id
              (product_matches store (pd_id pd)) (product_defaults now pd)
              (new_product now store pd) rows) as (Hin & Hwhat).
  apply In_nth_error in Hin. destruct Hin as [i Hi].
  exists i. eexists. split; [exact Hi |].
  destruct Hwhat as [(x & _ & Hm & ->) | (id & ->)].
  - unfold product_matches in Hm. apply andb_true_iff in Hm.
    destruct Hm as [H1 H2]. apply Z.eqb_eq in H1, H2.
    unfold mirrors, product_defaults. cbn. tauto.
  - unfold mirrors, new_product. cbn. tauto.
Qed.

Lemma step4_mirrors columns remote now store ps d pd :
  catalog_fits columns ps = true ->
  NoDup (map pd_id ps) ->
  In pd ps ->
  exists p, In p (products (step4 columns remote now store ps d))
            /\ mirrors now store pd p.
Proof.
  intros Hfits Hnd Hin.
  apply in_split in Hin. destruct Hin as (l1 & l2 & ->).
  rewrite map_app in Hnd. cbn [map] in Hnd.
  apply NoDup_remove_2 in Hnd.
  destruct (upsert_one_mirrors now store pd
              (upsert_products now store l1 (products d)))
    as (i & p & Hi & Hp).
  exists p. split; [| exact Hp].
  apply nth_error_In with (n := i).
  rewrite (@step4_row columns remote now store (l1 ++ pd :: l2) d i p
             Hfits).
  - destruct Hp as (Hs & Hid & _).
    replace (mem (product_shopify_id p) (map pd_id (l1 ++ pd :: l2)))
      with true; [now rewrite andb_false_r |].
    symmetry. apply mem_In. rewrite Hid. apply in_map.
    apply in_or_app. right. now left.
  - change (l1 ++ pd :: l2) with (l1 ++ [pd] ++ l2).
    rewrite !upsert_products_app.
    apply upsert_products_other; [exact Hi |].
    intros pd' Hin'. destruct Hp as (Hs & Hid & _).
    unfold product_matches. apply andb_false_iff. right.
    apply Z.eqb_neq. rewrite Hid. intros Heq. apply Hnd.
    rewrite Heq. apply in_or_app. right. now apply in_map.
Qed.

(** The product table after a run that reaches step 4 and gets through
    it. *)
Lemma products_after_success columns remote now id w store pages :
  find_store id (db w) = Some store ->
  truthy (access_token store) = true ->
  session_ok remote = true ->
  catalog remote = map Some pages ->
  catalog_fits columns (List.concat pages) = true ->
  products (db (snd (sync_store_data columns remote now id w)))
  = products (step4 columns remote now id (List.concat pages) (db w)).
Proof.
  intros Hfind Htoken Hsession Hcat Hfits.
  destruct (@SyncRunFacts.sync_store_data_step4_run
              columns remote now id w store pages
              Hfind Htoken Hsession Hcat) as (_ & _ & Hrun).
  cbv zeta in Hrun. rewrite Hfits in Hrun. destruct Hrun as [_ Hdb].
  rewrite Hdb. reflexivity.
Qed.

(** X18. After a run that gets through step 4 (token, session, every
    page fetched, every product and variant fitting its columns) over a
    catalog whose products have distinct ids, every fetched product has
    a row of the store under its [shopify_id] that carries the remote
    title, handle, status, type, vendor and publication date, stamped
    [last_synced = now]. *)
Theorem sync_mirrors_catalog columns remote now id w store pages pd :
  find_store id (db w) = Some store ->
  truthy (access_token store) = true ->
  session_ok remote = true ->
  catalog remote = map Some pages ->
  catalog_fits columns (List.concat pages) = true ->
  NoDup (map pd_id (List.concat pages)) ->
  In pd (List.concat pages) ->
  exists p,
    In p (products (db (snd (sync_store_data columns remote now id w))))
    /\ mirrors now id pd p.
Proof.
  intros Hfind Htoken Hsession Hcat Hfits Hnd Hin.
  rewrite (@products_after_success columns remote now id w store pages
             Hfind Htoken Hsession Hcat Hfits).
  now apply step4_mirrors.
Qed.

Lemma sync_mirrors_catalog_witness :
  exists pd p,
    In pd SyncFixtures.page0
    /\ In p (products (db (snd (sync_store_data
                                  Samples.columns0 Samples.remote0 100 1
                                  Samples.world0))))
    /\ mirrors 100 1 pd p.
Proof.
  destruct SyncFixtures.page0 as [|pd rest] eqn:Hpage; [discriminate |].
  exists pd.
  destruct (@sync_mirrors_catalog Samples.columns0 Samples.remote0 100 1
              Samples.world0 Samples.store0 [SyncFixtures.page0] pd
              eq_refl eq_refl eq_refl eq_refl eq_refl) as (p & Hp).
  - cbn [List.concat]. rewrite app_nil_r.
    repeat constructor; cbn; intuition discriminate.
  - cbn [List.concat]. rewrite app_nil_r, Hpage. now left.
  - exists p. split; [now left |]. exact Hp.
Defined.

(** X19. A run that gets through step 4 does not delete or deactivate
    what the remote shop no longer lists: a product row of the store
    whose [shopify_id] is not in the fetched catalog only gets
    [updated_at = now], and a row of another store is not written at
    all. *)
Theorem sync_touches_unlisted_rows columns remote now id w store pages i x :
  find_store id (db w) = Some store ->
  truthy (access_token store) = true ->
  session_ok remote = true ->
  catalog remote = map Some pages ->
  catalog_fits columns (List.concat pages) = true ->
  nth_error (products (db w)) i = Some x ->
  let after :=
    products (db (snd (sync_store_data columns remote now id w))) in
  (product_store x <> id -> nth_error after i = Some x)
  /\ (product_store x = id ->
      ~ In (product_shopify_id x) (map pd_id (List.concat pages)) ->
      exists x',
        nth_error after i = Some x'
        /\ product_updated_at x' = now
        /\ last_synced x' = last_synced x
        /\ data_p x' = data_p x
        /\ kept x x').
Proof.
  intros Hfind Htoken Hsession Hcat Hfits Hi. cbv zeta.
  rewrite (@products_after_success columns remote now id w store pages
             Hfind Htoken Hsession Hcat Hfits).
  destruct (@step4_unlisted columns remote now id (List.concat pages)
              (db w) i x Hfits Hi) as [Hother Hsame].
  split; [exact Hother |].
  intros Hstore Hnot. exists (touch_product now x).
  split; [now apply Hsame |].
  unfold kept, ApplySpec.visibility. cbn. tauto.
Qed.

Lemma sync_touches_unlisted_rows_witness :
  let after :=
    products (db (snd (sync_store_data
                         Samples.columns0 Samples.remote0 100 1
                         SyncFixtures.world_three_products))) in
  nth_error after 2 = Some SyncFixtures.product_elsewhere
  /\ exists x',
       nth_error after 1 = Some x'
       /\ product_updated_at x' = 100
       /\ last_synced x' = last_synced SyncFixtures.product_unlisted
       /\ data_p x' = data_p SyncFixtures.product_unlisted
       /\ kept SyncFixtures.product_unlisted x'.
Proof.
  split.
  - apply (@sync_touches_unlisted_rows
             Samples.columns0 Samples.remote0 100 1
             SyncFixtures.world_three_products
             Samples.store0 [SyncFixtures.page0] 2%nat
             SyncFixtures.product_elsewhere
             eq_refl eq_refl eq_refl eq_refl eq_refl eq_refl).
    discriminate.
  - apply (@sync_touches_unlisted_rows
             Samples.columns0 Samples.remote0 100 1
             SyncFixtures.world_three_products
             Samples.store0 [SyncFixtures.page0] 1%nat
             SyncFixtures.product_unlisted
             eq_refl eq_refl eq_refl eq_refl eq_refl eq_refl).
    + reflexivity.
    + cbn. intuition discriminate.
Defined.

End SyncTableFacts.


(* ===================================================================== *)
(** * [sync_product] and the out-of-stock rules of tasks.py *)
(* ===================================================================== *)

Module LegacySyncFacts.
Import LegacySync LegacySyncSpec.

Lemma sync_level_logs now store product lp d :
  logs (sync_level now store product lp d) = logs d.
Proof.
  unfold sync_level.
  destruct (lp_inventory_item_id lp) as [item|]; [| reflexivity].
  destruct (lp_location_id lp) as [loc|]; [| reflexivity].
  destruct (negb (item =? 0)); [| reflexivity].
  destruct (Orm.get_or_create _ _ _ _) as [location locs].
  cbn [variants set_locations].
  destruct (find _ (variants d)) as [variant|]; [| reflexivity].
  cbn [levels set_locations].
  destruct (OrmRowFacts.update_or_create_returned level_id
              (SyncTasks.level_matches (variant_id variant)
                                       (location_id location))
              (level_write now (get (lp_available lp) 0))
              (new_level now (variant_id variant) (location_id location)
                         (get (lp_available lp) 0))
              (levels d)) as (_ & Hwhat).
  destruct (Orm.update_or_create _ _ _ _ _) as [inv_level lvls].
  cbn [fst] in Hwhat.
  assert (Hav : available inv_level = get (lp_available lp) 0).
  { destruct Hwhat as [(x & _ & _ & ->) | (id & ->)]; reflexivity. }
  rewrite Hav, Z.eqb_refl, andb_false_r. reflexivity.
Qed.

Lemma sync_variant_logs now product vp acc :
  logs (snd (sync_variant now product vp acc)) = logs (snd acc).
Proof.
  unfold sync_variant. destruct acc as [ids d].
  destruct (vp_id vp) as [v|]; [| reflexivity].
  destruct (vp_inventory_item_id vp) as [item|]; [| reflexivity].
  destruct (negb (v =? 0) && negb (item =? 0)); [| reflexivity].
  destruct (Orm.update_or_create _ _ _ _ _) as [x vs]. reflexivity.
Qed.

Lemma store_product_logs now store shopify_id pp inventory_response d :
  logs (snd (store_product now store shopify_id pp inventory_response d))
  = logs d.
Proof.
  unfold store_product.
  destruct (Orm.update_or_create _ _ _ _ (products d)) as [product ps].
  assert (H : forall vps acc,
             logs (snd (fold_left
                          (fun acc vp => sync_variant now (product_id product)
                                                      vp acc) vps acc))
             = logs (snd acc)).
  { induction vps as [|vp vps IH]; intros acc; [reflexivity |].
    cbn [fold_left]. now rewrite IH, sync_variant_logs. }
  specialize (H (pp_variants pp) ([], set_products ps d)).
  destruct (fold_left _ (pp_variants pp) _) as [ids d1].
  cbn [snd logs set_products] in *.
  destruct ids as [|i ids]; [exact H |].
  destruct inventory_response as [lps|]; [| exact H].
  rewrite <- H.
  apply (@SyncTableFacts.fold_left_keeps
           _ (fun d' => logs d' = logs d1)); [| reflexivity].
  intros d' lp Hd'. now rewrite sync_level_logs.
Qed.


Lemma only_schedules_refl w : only_schedules w w.
Proof. unfold only_schedules. tauto. Qed.

Lemma only_schedules_trans w1 w2 w3 :
  only_schedules w1 w2 -> only_schedules w2 w3 -> only_schedules w1 w3.
Proof. unfold only_schedules. intuition congruence. Qed.

Lemma schedule_only_schedules faults now rule product w :
  only_schedules
    w (snd (LegacyTasks.schedule_rule_application faults now rule product w)).
Proof.
  unfold LegacyTasks.schedule_rule_application. run_task.
  destruct (RuleTasks.pending_for rule product (db w)) as [|a0 [|a1 rest]];
    run_task.
  - destruct (faults OpCreateApplication); run_task;
      [apply only_schedules_refl |].
    destruct (delay_minutes rule =? 0); run_task;
      [| unfold only_schedules; cbn; tauto].
    destruct (faults OpEnqueueApply); run_task;
      unfold only_schedules; cbn; tauto.
  - destruct (faults OpSaveApplication); run_task;
      [apply only_schedules_refl |].
    destruct (delay_minutes rule =? 0); run_task;
      [| unfold only_schedules; cbn; tauto].
    destruct (faults OpEnqueueApply); run_task;
      unfold only_schedules; cbn; tauto.
  - apply only_schedules_refl.
Qed.

Lemma schedule_matching_only_schedules faults now product rs : forall w,
  only_schedules w (snd (schedule_matching faults now rs product w)).
Proof.
  induction rs as [|rule rs IH]; intros w; cbn [schedule_matching].
  - apply only_schedules_refl.
  - unfold bind at 1.
    destruct (LegacyTasks.rule_matches_product rule product).
    + pose proof (schedule_only_schedules faults now rule product w) as H1.
      destruct (LegacyTasks.schedule_rule_application
                  faults now rule product w) as [[u|e] w1]; cbn [snd] in *.
      * eapply only_schedules_trans; [exact H1 | apply IH].
      * exact H1.
    + unfold ret. apply IH.
Qed.

Lemma schedule_matching_none faults now product rs : forall w,
  (forall r, In r rs -> LegacyTasks.rule_matches_product r product = false) ->
  schedule_matching faults now rs product w = (Ok tt, w).
Proof.
  induction rs as [|rule rs IH]; intros w Hno; cbn [schedule_matching];
    [reflexivity |].
  rewrite (Hno rule) by now left. unfold bind at 1. unfold ret at 1.
  apply IH. intros r Hr. apply Hno. now right.
Qed.

Lemma insert_by_priority_in r x rs :
  In r (insert_by_priority x rs) <-> r = x \/ In r rs.
Proof.
  induction rs as [|y rs IH]; cbn [insert_by_priority In].
  - intuition auto.
  - destruct (priority y <? priority x); cbn [In];
      rewrite ?IH; intuition auto.
Qed.

Lemma order_by_priority_desc_in r rs :
  In r (order_by_priority_desc rs) <-> In r rs.
Proof.
  induction rs as [|x rs IH]; cbn [order_by_priority_desc fold_right In];
    [tauto |].
  fold (order_by_priority_desc rs).
  rewrite insert_by_priority_in, IH. intuition auto.
Qed.

Lemma process_out_of_stock_rules_frame faults now store product w :
  only_schedules
    w (snd (process_out_of_stock_rules faults now store product w)).
Proof.
  unfold process_out_of_stock_rules. run_task.
  apply schedule_matching_only_schedules.
Qed.

Lemma store_product_frame now store shopify_id pp inventory_response d :
  let d1 := snd (store_product now store shopify_id pp
                               inventory_response d) in
  stores d1 = stores d /\ rules d1 = rules d.
Proof.
  cbv zeta. unfold store_product.
  destruct (Orm.update_or_create _ _ _ _ (products d)) as [product ps].
  assert (H : forall vps acc,
             let d' := snd (fold_left
                              (fun acc vp =>
                                 sync_variant now (product_id product) vp acc)
                              vps acc) in
             stores d' = stores (snd acc) /\ rules d' = rules (snd acc)).
  { induction vps as [|vp vps IH]; intros acc; cbv zeta;
      [split; reflexivity |].
    cbn [fold_left]. destruct (IH (sync_variant now (product_id product)
                                                vp acc)) as [H1 H2].
    rewrite H1, H2. unfold sync_variant. destruct acc as [ids d0].
    destruct (vp_id vp) as [v|]; [| split; reflexivity].
    destruct (vp_inventory_item_id vp) as [item|]; [| split; reflexivity].
    destruct (negb (v =? 0) && negb (item =? 0)); [| split; reflexivity].
    destruct (Orm.update_or_create _ _ _ _ _) as [x vs].
    split; reflexivity. }
  specialize (H (pp_variants pp) ([], set_products ps d)).
  destruct (fold_left _ (pp_variants pp) _) as [ids d1].
  cbn [snd stores rules set_products] in *.
  destruct ids as [|i ids]; [exact H |].
  destruct inventory_response as [lps|]; [| exact H].
  destruct H as [H1 H2]. rewrite <- H1, <- H2.
  apply (@SyncTableFacts.fold_left_keeps
           _ (fun d' => stores d' = stores d1 /\ rules d' = rules d1));
    [| split; reflexivity].
  intros d' lp [Hs Hr]. rewrite <- Hs, <- Hr.
  unfold sync_level.
  destruct (lp_inventory_item_id lp) as [item|]; [| split; reflexivity].
  destruct (lp_location_id lp) as [loc|]; [| split; reflexivity].
  destruct (negb (item =? 0)); [| split; reflexivity].
  destruct (Orm.get_or_create _ _ _ _) as [location locs].
  cbn [variants set_locations].
  destruct (find _ (variants d')) as [variant|]; [| split; reflexivity].
  destruct (Orm.update_or_create _ _ _ _ _) as [inv_level lvls].
  destruct (_ && _); split; reflexivity.
Qed.

(** X22. [process_out_of_stock_rules] of tasks.py can only add or
    rewrite rule applications and queue tasks: stores, products,
    variants, locations, levels, audit log and rules are as before and
    no request is sent, whatever fails.  When no active out-of-stock
    rule of the store matches the product, it changes nothing at
    all. *)
Theorem process_out_of_stock_rules_scope faults now store product w :
  only_schedules
    w (snd (process_out_of_stock_rules faults now store product w))
  /\ ((forall r, In r (rules (db w)) -> concerns store product r = false) ->
      process_out_of_stock_rules faults now store product w = (Ok tt, w)).
Proof.
  split; [apply process_out_of_stock_rules_frame |].
  unfold process_out_of_stock_rules. run_task.
  - intros Hno. apply schedule_matching_none.
    intros r Hr. apply (proj1 (order_by_priority_desc_in _ _)) in Hr.
    unfold RuleTasks.out_of_stock_rules in Hr. apply filter_In in Hr.
    destruct Hr as [Hin Hsel]. specialize (Hno r Hin).
    unfold concerns in Hno. rewrite Hsel in Hno. exact Hno.
Qed.

Lemma process_out_of_stock_rules_scope_witness :
  process_out_of_stock_rules no_faults 100 Samples.store0 Samples.product0
                             (Samples.with_rules [MoreFixtures.rule_elsewhere]
                                                 Samples.world0)
  = (Ok tt, Samples.with_rules [MoreFixtures.rule_elsewhere] Samples.world0).
Proof.
  apply (proj2 (process_out_of_stock_rules_scope
                  no_faults 100 Samples.store0 Samples.product0
                  (Samples.with_rules [MoreFixtures.rule_elsewhere]
                                      Samples.world0))).
  intros r [<-|[]]. reflexivity.
Defined.

(** X20. [sync_product] of tasks.py never raises, and it is all or
    nothing: when it returns an error (no product in the response, or
    an exception anywhere in the block, scheduling included) the
    database is exactly as before.  It never writes to the store or
    rule tables. *)
Theorem sync_product_all_or_nothing
        faults now store shopify_id product_response inventory_response w :
  exists res w',
    sync_product faults now store shopify_id product_response
                 inventory_response w = (Ok res, w')
    /\ (forall message, res = SyncError message -> db w' = db w)
    /\ stores (db w') = stores (db w) /\ rules (db w') = rules (db w).
Proof.
  unfold sync_product.
  destruct product_response as [pp|];
    [| exists (SyncError ("Could not fetch product " ++ show_Z shopify_id)), w;
       unfold ret; repeat split ].
  unfold try_except, atomic.
  pose proof (store_product_frame now store shopify_id pp
                                  inventory_response (db w)) as Hst.
  unfold sync_product_block. run_task.
  destruct (store_product now store shopify_id pp inventory_response (db w))
    as [product d1]. cbn [snd] in Hst. run_task.
  set (w1 := {| db := d1; queue := queue w; sent := sent w |}).
  destruct (total_inventory (product_id product) d1 <=? 0).
  - pose proof (process_out_of_stock_rules_frame
                  faults now store product w1) as Hfr.
    destruct (process_out_of_stock_rules faults now store product w1)
      as [[u|e] w2]; cbn [snd] in Hfr; run_task.
    + do 2 eexists. split; [reflexivity |].
      split; [discriminate |].
      destruct Hfr as (H1 & _ & _ & _ & _ & _ & H7 & _).
      destruct Hst as (S1 & S2).
      subst w1. cbn [db] in *. split; congruence.
    + do 2 eexists. split; [reflexivity |].
      cbn [db]. repeat split; auto.
  - run_task. do 2 eexists. split; [reflexivity |].
    split; [discriminate |]. destruct Hst as (S1 & S2).
    cbn [db]. split; auto.
Qed.


(** X21. [sync_product] of tasks.py never writes an audit log row.
    Its branch for a changed quantity compares the quantity of the
    object that [update_or_create] returns, which is already the new
    one, with the new quantity. *)
Theorem sync_product_writes_no_log
        faults now store shopify_id product_response inventory_response w :
  logs (db (snd (sync_product faults now store shopify_id product_response
                              inventory_response w)))
  = logs (db w).
Proof.
  unfold sync_product.
  destruct product_response as [pp|]; [| reflexivity].
  unfold try_except, atomic.
  pose proof (store_product_logs now store shopify_id pp
                                 inventory_response (db w)) as Hlogs.
  unfold sync_product_block. run_task.
  destruct (store_product now store shopify_id pp inventory_response (db w))
    as [product d1]. cbn [snd] in Hlogs. run_task.
  set (w1 := {| db := d1; queue := queue w; sent := sent w |}).
  destruct (total_inventory (product_id product) d1 <=? 0).
  - pose proof (process_out_of_stock_rules_frame
                  faults now store product w1) as Hfr.
    destruct (process_out_of_stock_rules faults now store product w1)
      as [[u|e] w2]; cbn [snd] in Hfr; run_task; [| reflexivity].
    destruct Hfr as (_ & _ & _ & _ & _ & H6 & _).
    subst w1. cbn [db] in *. congruence.
  - run_task. exact Hlogs.
Qed.

End LegacySyncFacts.

(* ===================================================================== *)
(** * The audit row of tasks/rule_tasks.py *)
(* ===================================================================== *)

Module RuleTaskFacts.
Import ApplySpec.

(** X23. [apply_rule] of tasks/rule_tasks.py never applies a rule.
    Every apply transition ends by reading [rule.send_notification], an
    attribute that [Rule] of apps/rules/models.py does not declare: the
    read raises, the transaction is rolled back and the task returns an
    error.  So whatever the application, the rule and the other
    statements do, the task returns with status [skipped] or [error]
    and the database is exactly as it was: a pending application stays
    pending and its product stays as visible as it was. *)
Theorem apply_rule_never_applies faults now id w :
  faults OpReadSendNotification <> None ->
  exists res w',
    RuleTasks.apply_rule faults now id w = (Ok res, w')
    /\ db w' = db w
    /\ (result_status res = "skipped" \/ result_status res = "error").
Proof.
  intros Hread.
  assert (Hmissing :
            RuleTasks.get_application id w
            = (Raise (DoesNotExist "RuleApplication"), w) ->
            exists res w',
              RuleTasks.apply_rule faults now id w = (Ok res, w')
              /\ db w' = db w
              /\ (result_status res = "skipped"
                  \/ result_status res = "error")).
  { intros Hget. unfold RuleTasks.apply_rule, RuleTasks.apply_rule_body.
    run_task. rewrite Hget. cbn. do 2 eexists. split; [reflexivity |].
    cbn. auto. }
  destruct (find_application id (db w)) as [a|] eqn:Ha;
    [| apply Hmissing; unfold RuleTasks.get_application; run_task;
       now rewrite Ha].
  destruct (find_rule (app_rule a) (db w)) as [r|] eqn:Hr;
    [| apply Hmissing; unfold RuleTasks.get_application; run_task;
       now rewrite Ha, Hr].
  destruct (find_product (app_product a) (db w)) as [p|] eqn:Hp;
    [| apply Hmissing; unfold RuleTasks.get_application; run_task;
       now rewrite Ha, Hr, Hp].
  destruct (String.eqb_spec (app_status a) "pending") as [Hs|Hs].
  - destruct (@ApplyFacts.apply_rule_raising_step
                faults now id w a r p Ha Hr Hp Hs)
      as (message & w' & Hrun & Hdb).
    { exists OpReadSendNotification. split; [| exact Hread].
      unfold apply_steps. apply in_or_app. right.
      cbn [app In]. tauto. }
    exists (Error message), w'. auto.
  - pose proof (@ApplyFacts.get_application_found id w a r p Ha Hr Hp)
      as Hget.
    pose proof (@ApplyFacts.status_neq _ _ Hs) as Hneq.
    unfold RuleTasks.apply_rule, RuleTasks.apply_rule_body. run_task.
    rewrite Hget. run_task. rewrite Hneq. run_task.
    do 2 eexists. split; [reflexivity |]. cbn. auto.
Qed.

Lemma apply_rule_never_applies_witness :
  exists res w',
    RuleTasks.apply_rule Samples.models_as_declared 100 1
                         Samples.world_pending = (Ok res, w')
    /\ db w' = db Samples.world_pending
    /\ (result_status res = "skipped" \/ result_status res = "error").
Proof.
  apply (@apply_rule_never_applies Samples.models_as_declared 100 1
                                   Samples.world_pending).
  discriminate.
Defined.

End RuleTaskFacts.


(* ===================================================================== *)
(** * Failures between the steps of tasks.py *)
(* ===================================================================== *)

Module RecoveryFacts.
Import LegacyTasks LegacySpec LegacyPoller.

Lemma legacy_apply_log_failure faults depth net now id w a r p s e :
  find_application id (db w) = Some a ->
  find_rule (app_rule a) (db w) = Some r ->
  find_product (app_product a) (db w) = Some p ->
  find_store (rule_store r) (db w) = Some s ->
  app_status a = "pending" ->
  not_yet_due now a = false ->
  action_type r = "hide_product" ->
  updated (net (sent w)) ->
  faults OpSaveProduct = None -> faults OpCreateLog = Some e ->
  exists message,
    apply_rule faults (S depth) net now id w
    = (Ok (Error message),
       {| db := write_product (set_status "draft" false (Some now) now p)
                              (db w);
          queue := queue w; sent := S (sent w) |}).
Proof.
  intros Ha Hr Hp Hst Hs Hdue Hact Hnet F1 F2.
  pose proof (@ApplyFacts.get_application_found id w a r p Ha Hr Hp) as Hget.
  destruct (@LegacyFacts.update_product_ok
              depth net (sent w) (product_shopify_id p)
              (status_patch (product_shopify_id p) "draft") Hnet)
    as (j & Hreq & Hj).
  destruct (ApplyFacts.error_handler_returns
              (not_found id) e
              {| db := write_product (set_status "draft" false (Some now)
                                                 now p) (db w);
                 queue := queue w; sent := S (sent w) |}) as [m Hm].
  exists m.
  unfold apply_rule, apply_rule_body, get_application, get_store,
    save_application, save_product, create_log,
    RuleTasks.save_application, RuleTasks.save_product, RuleTasks.create_log.
  run_task. rewrite Hget. run_task.
  rewrite Hs. cbn [String.eqb Ascii.eqb Bool.eqb negb]. rewrite Hdue.
  rewrite Hst. run_task. rewrite Hact.
  cbn [String.eqb Ascii.eqb Bool.eqb].
  rewrite Hreq. run_task. rewrite Hj. run_task.
  rewrite F1. run_task. rewrite F2. run_task. exact Hm.
Qed.

(** X24. [apply_rule] of tasks.py runs in no transaction: when the
    audit log cannot be written after the remote update and the product
    save went through, the task returns an error with the product
    already a hidden draft, locally and remotely, and the application
    still [pending], so that the apply will be tried again. *)
Theorem legacy_apply_rule_is_not_atomic
        faults depth net now id w a r p s e :
  find_application id (db w) = Some a ->
  find_rule (app_rule a) (db w) = Some r ->
  find_product (app_product a) (db w) = Some p ->
  find_store (rule_store r) (db w) = Some s ->
  app_status a = "pending" ->
  not_yet_due now a = false ->
  action_type r = "hide_product" ->
  updated (net (sent w)) ->
  faults OpSaveProduct = None -> faults OpCreateLog = Some e ->
  exists message w' p',
    apply_rule faults (S depth) net now id w = (Ok (Error message), w')
    /\ find_product (app_product a) (db w') = Some p'
    /\ status p' = "draft"
    /\ ApplySpec.visibility p' = (false, Some now, scheduled_return p)
    /\ find_application id (db w') = Some a
    /\ logs (db w') = logs (db w)
    /\ queue w' = queue w
    /\ sent w' = S (sent w).
Proof.
  intros Ha Hr Hp Hst Hs Hdue Hact Hnet F1 F2.
  destruct (@legacy_apply_log_failure faults depth net now id w a r p s e
              Ha Hr Hp Hst Hs Hdue Hact Hnet F1 F2) as [m Hrun].
  exists m. do 2 eexists. split; [exact Hrun |].
  cbn [db queue sent]. split.
  { apply LegacyFacts.find_product_write with (p := p); [exact Hp |].
    exact (@LegacyFacts.find_product_id _ _ _ Hp). }
  repeat split. exact Ha.
Qed.

Lemma legacy_apply_rule_is_not_atomic_witness :
  exists message w' p',
    apply_rule Samples.log_fails 1000 Fixtures.accepting 100 1
               Samples.world_pending = (Ok (Error message), w')
    /\ find_product 1 (db w') = Some p'
    /\ status p' = "draft"
    /\ ApplySpec.visibility p' = (false, Some 100, None)
    /\ find_application 1 (db w') = Some (Samples.application0 "pending")
    /\ logs (db w') = logs (db Samples.world_pending)
    /\ queue w' = queue Samples.world_pending
    /\ sent w' = 1%nat.
Proof.
  apply (@legacy_apply_rule_is_not_atomic
           Samples.log_fails 999%nat Fixtures.accepting 100 1
           Samples.world_pending (Samples.application0 "pending")
           Samples.rule0 Samples.product0 Samples.store0
           (DatabaseError "InventoryLog.create")); try reflexivity.
  apply LegacyFacts.accepting_updated.
Defined.

End RecoveryFacts.

(* ===================================================================== *)
(** * A broker failure inside [sync_product] *)
(* ===================================================================== *)

Module BrokerFacts.
Import LegacyTasks LegacySync LegacySyncSpec.

(** With the broker refusing [apply_rule.delay], scheduling queues
    nothing, and for a rule without delay it raises. *)
Lemma schedule_broker_down faults now rule product w e :
  faults OpEnqueueApply = Some e ->
  let res := schedule_rule_application faults now rule product w in
  queue (snd res) = queue w
  /\ (delay_minutes rule = 0 -> exists e', fst res = Raise e').
Proof.
  intros Hdown. cbv zeta.
  unfold schedule_rule_application. run_task.
  destruct (RuleTasks.pending_for rule product (db w)) as [|a0 [|a1 rest]];
    run_task.
  - destruct (faults OpCreateApplication); run_task; [eauto |].
    destruct (delay_minutes rule =? 0) eqn:Hd; run_task.
    + rewrite Hdown. cbn. eauto.
    + split; [reflexivity |]. intros H0. rewrite H0 in Hd. discriminate.
  - destruct (faults OpSaveApplication); run_task; [eauto |].
    destruct (delay_minutes rule =? 0) eqn:Hd; run_task.
    + rewrite Hdown. cbn. eauto.
    + split; [reflexivity |]. intros H0. rewrite H0 in Hd. discriminate.
  - eauto.
Qed.

Lemma schedule_matching_broker_down faults now product e rs : forall w,
  faults OpEnqueueApply = Some e ->
  let res := schedule_matching faults now rs product w in
  queue (snd res) = queue w
  /\ ((exists r, In r rs /\ rule_matches_product r product = true
                 /\ delay_minutes r = 0) ->
      exists e', fst res = Raise e').
Proof.
  induction rs as [|rule rs IH]; intros w Hdown; cbv zeta;
    cbn [schedule_matching].
  - split; [reflexivity |]. intros (r & [] & _).
  - unfold bind.
    destruct (rule_matches_product rule product) eqn:Hm.
    + destruct (@schedule_broker_down faults now rule product w e Hdown)
        as [Hq Hraise].
      destruct (schedule_rule_application faults now rule product w)
        as [[u|e1] w1]; cbv beta iota; cbn [fst snd] in *.
      * destruct (IH w1 Hdown) as [Hq1 Hraise1]. split; [congruence |].
        intros (r & [Hr|Hr] & Hrm & Hd).
        -- subst r. destruct (Hraise Hd) as [e' He']. discriminate.
        -- apply Hraise1. eauto.
      * split; [exact Hq | eauto].
    + unfold ret. destruct (IH w Hdown) as [Hq1 Hraise1].
      split; [exact Hq1 |].
      intros (r & [Hr|Hr] & Hrm & Hd).
      * subst r. congruence.
      * apply Hraise1. eauto.
Qed.

(** X25. A refused message undoes the synchronisation.  [sync_product]
    of tasks.py schedules the out-of-stock rules inside its
    transaction.  When the product is out of stock, an active
    out-of-stock rule of the store matches it and has no delay, and the
    broker refuses [apply_rule.delay], the exception leaves the
    [atomic] block: [sync_product] returns an error, the product,
    variant, location and level rows it had written are rolled back
    together with the pending application, and nothing is queued.
    There is no pending application left for the poller to find. *)
Theorem refused_apply_message_undoes_sync
        faults e now store shopify_id pp inventory_response w product d1
        rule :
  faults OpEnqueueApply = Some e ->
  store_product now store shopify_id pp inventory_response (db w)
  = (product, d1) ->
  total_inventory (product_id product) d1 <= 0 ->
  In rule (rules (db w)) ->
  concerns store product rule = true ->
  delay_minutes rule = 0 ->
  exists message w',
    sync_product faults now store shopify_id (Some pp) inventory_response w
    = (Ok (SyncError message), w')
    /\ db w' = db w
    /\ queue w' = queue w.
Proof.
  intros Hdown Hstore Hout Hin Hconcerns Hdelay.
  pose proof (LegacySyncFacts.store_product_frame
                now store shopify_id pp inventory_response (db w)) as Hfr.
  rewrite Hstore in Hfr. cbn [snd] in Hfr. destruct Hfr as [_ Hrules].
  unfold sync_product, sync_product_block, try_except, atomic.
  run_task. rewrite Hstore. run_task.
  apply Z.leb_le in Hout. rewrite Hout.
  set (w1 := {| db := d1; queue := queue w; sent := sent w |}).
  unfold process_out_of_stock_rules. run_task.
  destruct (@schedule_matching_broker_down
              faults now product e
              (order_by_priority_desc (RuleTasks.out_of_stock_rules store d1))
              w1 Hdown) as [Hq Hraise].
  destruct Hraise as [e' He'].
  { exists rule. unfold concerns in Hconcerns.
    apply andb_true_iff in Hconcerns. destruct Hconcerns as [Hfilter Hm].
    split; [| auto].
    apply LegacySyncFacts.order_by_priority_desc_in.
    unfold RuleTasks.out_of_stock_rules. apply filter_In.
    rewrite Hrules. auto. }
  subst w1. cbn [db] in *.
  destruct (schedule_matching _ _ _ _ _) as [[u|e1] w2];
    cbn [fst snd] in *; [discriminate |].
  do 2 eexists. split; [reflexivity |]. cbn [db queue]. auto.
Qed.

Lemma refused_apply_message_undoes_sync_witness :
  exists message w',
    sync_product RecoveryFixtures.broker_down 10 Samples.store0 1001
                 (Some Samples.payload0)
                 (Samples.levels_at_two_locations 0 0) Samples.world0
    = (Ok (SyncError message), w')
    /\ db w' = db Samples.world0
    /\ queue w' = queue Samples.world0.
Proof.
  apply (@refused_apply_message_undoes_sync
           RecoveryFixtures.broker_down (BrokerError "apply_rule.delay")
           10 Samples.store0 1001 Samples.payload0
           (Samples.levels_at_two_locations 0 0) Samples.world0
           (fst (store_product 10 Samples.store0 1001 Samples.payload0
                   (Samples.levels_at_two_locations 0 0)
                   (db Samples.world0)))
           (snd (store_product 10 Samples.store0 1001 Samples.payload0
                   (Samples.levels_at_two_locations 0 0)
                   (db Samples.world0)))
           Samples.rule0);
    try reflexivity; try (vm_compute; discriminate).
  now left.
Defined.

End BrokerFacts.

(* ===================================================================== *)
(** * The inventory webhook task *)
(* ===================================================================== *)

Module InventoryTaskFacts.
Import InventoryTasks.

(** X26. [process_inventory_update] of tasks/inventory_tasks.py
    returns an error dictionary for every input and changes nothing: an
    unknown or inactive shop is reported as such, and for a known shop
    the call that builds the client passes one argument where two are
    required, so the [TypeError] is caught and returned; neither
    [get_variant_by_id] nor [sync_product] is ever reached. *)
Theorem process_inventory_update_always_fails
        get_variant_by_id shop_domain product_id variant_id w :
  exists message,
    process_inventory_update get_variant_by_id shop_domain
                             product_id variant_id w
    = (Ok (UpdateError message), w).
Proof.
  unfold process_inventory_update, process_inventory_update_body,
    get_active_store, try_except.
  run_task.
  destruct (filter _ (stores (db w))) as [|s [|s' rest]];
    run_task; cbn; eauto.
Qed.

End InventoryTaskFacts.
